(** * Shallow embedding of miroeftw/minesweeper-ai

    [src/game/minesweeper.py] (the board and its state machine),
    [src/ai/pattern_agent.py] (the deductive agent), [src/ai/agent.py] (the
    rule-based and random agents), the click handling and AI move loop of
    [src/game/ui.py], and the agent choice of [src/ai_demo.py], over the
    Standard Library.  Python integers are [Z]; Python lists of lists are
    [list (list _)] read with Python's indexing rules ([py_index], negative
    indices counting from the end, [None] standing for [IndexError]); a
    Python set of coordinate pairs is a duplicate-free [list cell]. *)

From Stdlib Require Import ZArith List Bool Lia.
From Stdlib Require Floats.
Import ListNotations.
Open Scope Z_scope.

(** ** Python helpers *)

(** [l[i]] for a Python list; [None] is [IndexError]. *)
Definition py_index {A} (l : list A) (i : Z) : option A :=
  if i <? 0 then
    let j := Z.of_nat (length l) + i in
    if 0 <=? j then nth_error l (Z.to_nat j) else None
  else nth_error l (Z.to_nat i).

(** [g[r][c]] *)
Definition py_index2 {A} (g : list (list A)) (r c : Z) : option A :=
  match py_index g r with
  | Some row => py_index row c
  | None => None
  end.

(** [l[n] = v] for an index the caller has checked to be in range. *)
Fixpoint list_set {A} (l : list A) (n : nat) (v : A) : list A :=
  match l, n with
  | [], _ => []
  | _ :: t, O => v :: t
  | h :: t, S n' => h :: list_set t n' v
  end.

(** [g[r][c] = v] for non-negative in-range [r], [c]. *)
Definition grid_set {A} (g : list (list A)) (r c : Z) (v : A) : list (list A) :=
  list_set g (Z.to_nat r) (list_set (nth (Z.to_nat r) g []) (Z.to_nat c) v).

(** [range(n)] *)
Definition zrange (n : Z) : list Z := map Z.of_nat (seq 0 (Z.to_nat n)).

Definition cell : Type := (Z * Z)%type.

Definition cell_eqb (a b : cell) : bool := (fst a =? fst b) && (snd a =? snd b).

(** [x in s] for a set (or list) of coordinate pairs. *)
Definition mem (x : cell) (s : list cell) : bool := existsb (cell_eqb x) s.

(** [set(l)]: the distinct elements of [l]. *)
Fixpoint py_set (l : list cell) : list cell :=
  match l with
  | [] => []
  | x :: t => if mem x t then py_set t else x :: py_set t
  end.

Fixpoint nodupb (l : list cell) : bool :=
  match l with
  | [] => true
  | x :: t => negb (mem x t) && nodupb t
  end.

(** [for r in range(rs) for c in range(cs)], in row-major order. *)
Definition all_cells (rs cs : Z) : list cell :=
  flat_map (fun r => map (fun c => (r, c)) (zrange cs)) (zrange rs).

(** ** Enumerations *)

Inductive CellState := HIDDEN | REVEALED | FLAGGED.

Definition CellState_eqb (a b : CellState) : bool :=
  match a, b with
  | HIDDEN, HIDDEN | REVEALED, REVEALED | FLAGGED, FLAGGED => true
  | _, _ => false
  end.

Inductive GameState := READY | PLAYING | WON | LOST.

Inductive Difficulty := BEGINNER | INTERMEDIATE | EXPERT.

(** [Difficulty.value]: rows, cols, mines. *)
Definition difficulty_value (d : Difficulty) : Z * Z * Z :=
  match d with
  | BEGINNER => (8, 8, 10)
  | INTERMEDIATE => (16, 16, 40)
  | EXPERT => (16, 30, 99)
  end.

(** ** The [Minesweeper] object *)

Record Minesweeper := mkMinesweeper {
  rows : Z;
  cols : Z;
  num_mines : Z;
  board : list (list Z);
  cell_states : list (list CellState);
  mines : list cell;
  game_state : GameState;
  flags_placed : Z;
  cells_revealed : Z;
  first_click : bool
}.

Definition set_board (g : Minesweeper) (b : list (list Z)) : Minesweeper :=
  mkMinesweeper (rows g) (cols g) (num_mines g) b (cell_states g) (mines g)
    (game_state g) (flags_placed g) (cells_revealed g) (first_click g).
Definition set_cell_states (g : Minesweeper) (s : list (list CellState)) : Minesweeper :=
  mkMinesweeper (rows g) (cols g) (num_mines g) (board g) s (mines g)
    (game_state g) (flags_placed g) (cells_revealed g) (first_click g).
Definition set_mines (g : Minesweeper) (m : list cell) : Minesweeper :=
  mkMinesweeper (rows g) (cols g) (num_mines g) (board g) (cell_states g) m
    (game_state g) (flags_placed g) (cells_revealed g) (first_click g).
Definition set_game_state (g : Minesweeper) (s : GameState) : Minesweeper :=
  mkMinesweeper (rows g) (cols g) (num_mines g) (board g) (cell_states g) (mines g)
    s (flags_placed g) (cells_revealed g) (first_click g).
Definition set_flags_placed (g : Minesweeper) (n : Z) : Minesweeper :=
  mkMinesweeper (rows g) (cols g) (num_mines g) (board g) (cell_states g) (mines g)
    (game_state g) n (cells_revealed g) (first_click g).
Definition set_cells_revealed (g : Minesweeper) (n : Z) : Minesweeper :=
  mkMinesweeper (rows g) (cols g) (num_mines g) (board g) (cell_states g) (mines g)
    (game_state g) (flags_placed g) n (first_click g).
Definition set_first_click (g : Minesweeper) (b : bool) : Minesweeper :=
  mkMinesweeper (rows g) (cols g) (num_mines g) (board g) (cell_states g) (mines g)
    (game_state g) (flags_placed g) (cells_revealed g) b.

(** [Minesweeper.__init__] *)
Definition init (d : Difficulty) : Minesweeper :=
  let '(r, c, m) := difficulty_value d in
  mkMinesweeper r c m
    (repeat (repeat 0 (Z.to_nat c)) (Z.to_nat r))
    (repeat (repeat HIDDEN (Z.to_nat c)) (Z.to_nat r))
    [] READY 0 0 true.

(** ** Read accessors *)

(** [is_mine]: [(row, col) in self.mines] *)
Definition is_mine (g : Minesweeper) (row col : Z) : bool := mem (row, col) (mines g).

(** [get_cell_value]: [self.board[row][col]] *)
Definition get_cell_value (g : Minesweeper) (row col : Z) : option Z :=
  py_index2 (board g) row col.

(** [get_cell_state]: [self.cell_states[row][col]] *)
Definition get_cell_state (g : Minesweeper) (row col : Z) : option CellState :=
  py_index2 (cell_states g) row col.

(** [self.cell_states[row][col] == s]; every caller has checked the
    coordinates, so the [None] branch is never taken on a well-shaped board. *)
Definition state_is (g : Minesweeper) (row col : Z) (s : CellState) : bool :=
  match get_cell_state g row col with
  | Some s' => CellState_eqb s' s
  | None => false
  end.

(** [self.board[row][col] == 0] *)
Definition value_is_zero (g : Minesweeper) (row col : Z) : bool :=
  match get_cell_value g row col with
  | Some v => v =? 0
  | None => false
  end.

(** [0 <= row < self.rows and 0 <= col < self.cols] *)
Definition in_bounds (g : Minesweeper) (row col : Z) : bool :=
  (0 <=? row) && (row <? rows g) && (0 <=? col) && (col <? cols g).

Definition is_terminal (s : GameState) : bool :=
  match s with WON | LOST => true | _ => false end.

(** ** Neighbours and mine generation *)

(** [_get_neighbors], with the cells in the order the two loops produce
    them.  The source collects them in a set, which CPython iterates in its
    own hash order: the theorems state only what holds whatever that order
    is; the concrete runs of the witnesses follow the loop order. *)
Definition neighbors_in (rs cs row col : Z) : list cell :=
  flat_map (fun dr =>
    flat_map (fun dc =>
      if (dr =? 0) && (dc =? 0) then []
      else
        let nr := row + dr in
        let nc := col + dc in
        if (0 <=? nr) && (nr <? rs) && (0 <=? nc) && (nc <? cs)
        then [(nr, nc)] else [])
      [-1; 0; 1])
    [-1; 0; 1].

Definition get_neighbors (g : Minesweeper) (row col : Z) : list cell :=
  neighbors_in (rows g) (cols g) row col.

(** [_count_adjacent_mines] *)
Definition count_adjacent_mines (g : Minesweeper) (row col : Z) : Z :=
  Z.of_nat (length (filter (fun n => mem n (mines g)) (get_neighbors g row col))).

(** [excluded_cells] of [_generate_mines] *)
Definition excluded_cells (g : Minesweeper) (er ec : Z) : list cell :=
  get_neighbors g er ec ++ [(er, ec)].

(** [available_cells] of [_generate_mines] *)
Definition available_cells (g : Minesweeper) (er ec : Z) : list cell :=
  filter (fun x => negb (mem x (excluded_cells g er ec))) (all_cells (rows g) (cols g)).

(** The contract of [random.sample(population, k)]: [k] distinct members of
    the population.  The random source is injected: [drawn] is the list the
    call returned. *)
Definition sample_ok (population : list cell) (k : Z) (drawn : list cell) : bool :=
  nodupb drawn && (Z.of_nat (length drawn) =? k)
  && forallb (fun x => mem x population) drawn.

(** The loop that writes the numbers of the non-mine cells. *)
Definition fill_numbers (g : Minesweeper) : list (list Z) :=
  fold_left (fun b rc =>
      if mem rc (mines g) then b
      else grid_set b (fst rc) (snd rc) (count_adjacent_mines g (fst rc) (snd rc)))
    (all_cells (rows g) (cols g)) (board g).

(** [_generate_mines]; [None] is the [ValueError] of [random.sample] when
    the population is smaller than the sample. *)
Definition generate_mines (g : Minesweeper) (er ec : Z) (drawn : list cell)
  : option Minesweeper :=
  let available := available_cells g er ec in
  if (num_mines g <? 0) || (Z.of_nat (length available) <? num_mines g) then None
  else
    let g1 := set_mines g (py_set drawn) in
    Some (set_board g1 (fill_numbers g1)).

(** ** Reveal and flag *)

(** [_reveal_recursive].  Python recursion is unbounded; the embedding
    carries a recursion budget [fuel] (the depth of nested calls) and
    answers [None] when it is exhausted.  [reveal_cell] gives it
    [rows*cols + 1], which is always enough (see the termination lemma). *)
Fixpoint reveal_recursive (fuel : nat) (g : Minesweeper) (row col : Z)
  : option Minesweeper :=
  match fuel with
  | O => None
  | S f =>
    if negb (in_bounds g row col) then Some g
    else if negb (state_is g row col HIDDEN) then Some g
    else if mem (row, col) (mines g) then Some g
    else
      let g1 := set_cells_revealed
                  (set_cell_states g (grid_set (cell_states g) row col REVEALED))
                  (cells_revealed g + 1) in
      if value_is_zero g row col then
        fold_left (fun acc n =>
            match acc with
            | Some h => reveal_recursive f h (fst n) (snd n)
            | None => None
            end)
          (get_neighbors g row col) (Some g1)
      else Some g1
  end.

(** The first-click block of [reveal_cell]. *)
Definition first_click_setup (g : Minesweeper) (row col : Z) (drawn : list cell)
  : option Minesweeper :=
  if first_click g then
    match generate_mines g row col drawn with
    | Some g' => Some (set_game_state (set_first_click g' false) PLAYING)
    | None => None
    end
  else Some g.

Definition reveal_fuel (g : Minesweeper) : nat := S (Z.to_nat (rows g * cols g)).

(** [reveal_cell]: the new object and the returned boolean. *)
Definition reveal_cell (g : Minesweeper) (row col : Z) (drawn : list cell)
  : option (Minesweeper * bool) :=
  if is_terminal (game_state g) then Some (g, false)
  else if negb (in_bounds g row col) then Some (g, true)
  else
    match first_click_setup g row col drawn with
    | None => None
    | Some g1 =>
      if negb (state_is g1 row col HIDDEN) then Some (g1, true)
      else if mem (row, col) (mines g1) then
        Some (set_game_state
                (set_cell_states g1 (grid_set (cell_states g1) row col REVEALED))
                LOST, false)
      else
        match reveal_recursive (reveal_fuel g1) g1 row col with
        | None => None
        | Some g2 =>
          if cells_revealed g2 =? rows g2 * cols g2 - num_mines g2
          then Some (set_game_state g2 WON, true)
          else Some (g2, true)
        end
    end.

(** [toggle_flag] *)
Definition toggle_flag (g : Minesweeper) (row col : Z) : Minesweeper :=
  if is_terminal (game_state g) then g
  else if negb (in_bounds g row col) then g
  else if state_is g row col REVEALED then g
  else if state_is g row col HIDDEN then
    set_flags_placed (set_cell_states g (grid_set (cell_states g) row col FLAGGED))
      (flags_placed g + 1)
  else if state_is g row col FLAGGED then
    set_flags_placed (set_cell_states g (grid_set (cell_states g) row col HIDDEN))
      (flags_placed g - 1)
  else g.

(** A caller's move: a reveal (with the list the random source draws if
    this is the first click) or a flag toggle. *)
Inductive Action :=
| Reveal (row col : Z) (drawn : list cell)
| ToggleFlag (row col : Z).

Definition step (g : Minesweeper) (a : Action) : option Minesweeper :=
  match a with
  | Reveal r c d => option_map fst (reveal_cell g r c d)
  | ToggleFlag r c => Some (toggle_flag g r c)
  end.

Fixpoint run (g : Minesweeper) (acts : list Action) : option Minesweeper :=
  match acts with
  | [] => Some g
  | a :: t => match step g a with Some g' => run g' t | None => None end
  end.

(** The random source honours [random.sample]'s contract at a first click. *)
Definition valid_action (g : Minesweeper) (a : Action) : Prop :=
  match a with
  | Reveal r c d =>
      first_click g = true -> in_bounds g r c = true ->
      sample_ok (available_cells g r c) (num_mines g) d = true
  | ToggleFlag _ _ => True
  end.

Fixpoint valid_run (g : Minesweeper) (acts : list Action) : Prop :=
  match acts with
  | [] => True
  | a :: t => valid_action g a /\
      match step g a with Some g' => valid_run g' t | None => True end
  end.

(** The action is a [reveal_cell] call that hits a mine: the game is not
    over and the target is an in-bounds Hidden mine cell. *)
Definition hits_mine (g : Minesweeper) (a : Action) : Prop :=
  match a with
  | Reveal r c _ =>
      is_terminal (game_state g) = false /\ in_bounds g r c = true /\
      get_cell_state g r c = Some HIDDEN /\ is_mine g r c = true
  | ToggleFlag _ _ => False
  end.

(** What every reachable state satisfies about the outcome of the game. *)
Definition outcome_inv (g : Minesweeper) : Prop :=
  (first_click g = true -> mines g = []) /\
  (game_state g = WON <-> cells_revealed g = rows g * cols g - num_mines g).

(** Counting the cells of a grid in a given state. *)
Definition count_grid {A} (p : A -> bool) (gr : list (list A)) : nat :=
  list_sum (map (fun row => length (filter p row)) gr).

Definition count_state (g : Minesweeper) (s : CellState) : nat :=
  count_grid (fun x => CellState_eqb x s) (cell_states g).

(** A concrete game on the beginner board: ten mines drawn away from the
    bottom-right corner, a first click there, then two clicks on the top row. *)
Definition demo_draw : list cell :=
  [(0, 2); (1, 4); (3, 0); (3, 1); (3, 2); (3, 3); (3, 4); (3, 5); (3, 6); (3, 7)].

Definition demo_opening : list Action :=
  [Reveal 7 7 demo_draw; Reveal 0 3 []; Reveal 0 4 []].

(** The demo board right after mine generation, before the flood. *)
Definition demo_start : Minesweeper :=
  match first_click_setup (init BEGINNER) 7 7 demo_draw with
  | Some g => g
  | None => init BEGINNER
  end.

(** The demo game mirrored left to right: first click at (7, 0), then the
    top-row cells (0, 4) and (0, 3). *)
Definition mirror_draw : list cell := map (fun x => (fst x, 7 - snd x)) demo_draw.

Definition mirror_opening : list Action :=
  [Reveal 7 0 mirror_draw; Reveal 0 4 []; Reveal 0 3 []].

(** Ten mines in the two bottom rows, away from the top-left corner. *)
Definition corner_draw : list cell :=
  [(7, 0); (7, 1); (7, 2); (7, 3); (7, 4); (7, 5); (7, 6); (7, 7); (6, 0); (6, 1)].

(** A flag placed before the first click, next to the first click. *)
Definition flag_then_open : list Action := [ToggleFlag 0 1; Reveal 0 0 corner_draw].

(** ** The pattern agent ([src/ai/pattern_agent.py])

    The agent only reads the game; its coordinates always come from the
    range loops or from [_get_neighbors], so on a well-shaped board the
    reads never raise. *)

Definition is_revealed (g : Minesweeper) (row col : Z) : bool := state_is g row col REVEALED.
Definition is_hidden (g : Minesweeper) (row col : Z) : bool := state_is g row col HIDDEN.
Definition is_flagged (g : Minesweeper) (row col : Z) : bool := state_is g row col FLAGGED.

(** [_get_effective_value] *)
Definition get_effective_value (g : Minesweeper) (row col : Z) : Z :=
  if negb (is_revealed g row col) then 0
  else
    let base_value := match get_cell_value g row col with Some v => v | None => 0 end in
    base_value
    - Z.of_nat (length (filter (fun n => is_flagged g (fst n) (snd n))
                          (get_neighbors g row col))).

(** [hidden_neighbors] of the constraint pass *)
Definition hidden_neighbors (g : Minesweeper) (row col : Z) : list cell :=
  filter (fun n => is_hidden g (fst n) (snd n)) (get_neighbors g row col).

(** [find_certain_mines]; [len(h) == e > 0] is Python's chained comparison. *)
Definition find_certain_mines (g : Minesweeper) : list cell :=
  py_set (flat_map (fun rc =>
      let '(row, col) := rc in
      if negb (is_revealed g row col) then []
      else
        let hn := hidden_neighbors g row col in
        let ev := get_effective_value g row col in
        if (Z.of_nat (length hn) =? ev) && (0 <? ev) then hn else [])
    (all_cells (rows g) (cols g))).

(** [find_certain_safe] *)
Definition find_certain_safe (g : Minesweeper) : list cell :=
  py_set (flat_map (fun rc =>
      let '(row, col) := rc in
      if negb (is_revealed g row col) then []
      else
        let hn := hidden_neighbors g row col in
        let ev := get_effective_value g row col in
        if (ev =? 0) && negb (match hn with [] => true | _ => false end) then hn else [])
    (all_cells (rows g) (cols g))).

(** One iteration of the horizontal loop of [check_1_2_pattern]:
    (cells appended to [mines], cells appended to [safe]). *)
Definition check_1_2_horizontal_at (g : Minesweeper) (row col : Z) : list cell * list cell :=
  if is_revealed g row col && is_revealed g row (col + 1) then
    let val1 := get_effective_value g row col in
    let val2 := get_effective_value g row (col + 1) in
    let s := if (0 <? col) && is_hidden g row (col - 1) then [(row, col - 1)] else [] in
    let m := if (col + 2 <? cols g) && is_hidden g row (col + 2) then [(row, col + 2)] else [] in
    let bottom := (val1 =? 1) && (val2 =? 2) && (row =? rows g - 1) in
    let top := (val1 =? 1) && (val2 =? 2) && (row =? 0) in
    ((if bottom then m else []) ++ (if top then m else []),
     (if bottom then s else []) ++ (if top then s else []))
  else ([], []).

(** One iteration of the vertical loop of [check_1_2_pattern]. *)
Definition check_1_2_vertical_at (g : Minesweeper) (row col : Z) : list cell * list cell :=
  if is_revealed g row col && is_revealed g (row + 1) col then
    let val1 := get_effective_value g row col in
    let val2 := get_effective_value g (row + 1) col in
    let s := if (0 <? row) && is_hidden g (row - 1) col then [(row - 1, col)] else [] in
    let m := if (row + 2 <? rows g) && is_hidden g (row + 2) col then [(row + 2, col)] else [] in
    let left := (val1 =? 1) && (val2 =? 2) && (col =? 0) in
    let right := (val1 =? 1) && (val2 =? 2) && (col =? cols g - 1) in
    ((if left then m else []) ++ (if right then m else []),
     (if left then s else []) ++ (if right then s else []))
  else ([], []).

(** [check_1_2_pattern]: (mines, safe). *)
Definition check_1_2_pattern (g : Minesweeper) : list cell * list cell :=
  let hs := map (fun rc => check_1_2_horizontal_at g (fst rc) (snd rc))
                (all_cells (rows g) (cols g - 1)) in
  let vs := map (fun rc => check_1_2_vertical_at g (fst rc) (snd rc))
                (all_cells (rows g - 1) (cols g)) in
  (py_set (flat_map fst hs ++ flat_map fst vs),
   py_set (flat_map snd hs ++ flat_map snd vs)).

(** [check_1_2_1_pattern] *)
Definition check_1_2_1_pattern (g : Minesweeper) : list cell :=
  let hidden_at r c := if is_hidden g r c then [(r, c)] else [] in
  let horiz rc :=
    let '(row, col) := rc in
    if is_revealed g row col && is_revealed g row (col + 1) && is_revealed g row (col + 2) then
      if (get_effective_value g row col =? 1) && (get_effective_value g row (col + 1) =? 2)
         && (get_effective_value g row (col + 2) =? 1) then
        if row =? 0 then
          if row + 1 <? rows g then hidden_at (row + 1) col ++ hidden_at (row + 1) (col + 2) else []
        else if row =? rows g - 1 then
          if 0 <=? row - 1 then hidden_at (row - 1) col ++ hidden_at (row - 1) (col + 2) else []
        else []
      else []
    else [] in
  let vert rc :=
    let '(row, col) := rc in
    if is_revealed g row col && is_revealed g (row + 1) col && is_revealed g (row + 2) col then
      if (get_effective_value g row col =? 1) && (get_effective_value g (row + 1) col =? 2)
         && (get_effective_value g (row + 2) col =? 1) then
        if col =? 0 then
          if col + 1 <? cols g then hidden_at row (col + 1) ++ hidden_at (row + 2) (col + 1) else []
        else if col =? cols g - 1 then
          if 0 <=? col - 1 then hidden_at row (col - 1) ++ hidden_at (row + 2) (col - 1) else []
        else []
      else []
    else [] in
  py_set (flat_map horiz (all_cells (rows g) (cols g - 2))
          ++ flat_map vert (all_cells (rows g - 2) (cols g))).

(** [check_1_1_pattern] *)
Definition check_1_1_pattern (g : Minesweeper) : list cell :=
  let R := rows g in
  let C := cols g in
  let pair_ones r1 c1 r2 c2 :=
    is_revealed g r1 c1 && is_revealed g r2 c2
    && (get_effective_value g r1 c1 =? 1) && (get_effective_value g r2 c2 =? 1) in
  let left := flat_map (fun row =>
      if pair_ones row 0 row 1 then
        if (2 <? C) && is_hidden g row 2 then [(row, 2)] else [] else []) (zrange R) in
  let right := flat_map (fun row =>
      if pair_ones row (C - 1) row (C - 2) then
        if (0 <=? C - 3) && is_hidden g row (C - 3) then [(row, C - 3)] else [] else [])
      (zrange R) in
  let top := flat_map (fun col =>
      if pair_ones 0 col 1 col then
        if (2 <? R) && is_hidden g 2 col then [(2, col)] else [] else []) (zrange C) in
  let bottom := flat_map (fun col =>
      if pair_ones (R - 1) col (R - 2) col then
        if (0 <=? R - 3) && is_hidden g (R - 3) col then [(R - 3, col)] else [] else [])
      (zrange C) in
  py_set (left ++ right ++ top ++ bottom).

(** The tag of a returned action: ['flag'] or ['reveal']. *)
Inductive ActionKind := flag | reveal.

(** [_make_educated_guess]; the random source is injected: [rnd] selects
    the element [random.choice] returns. *)
Definition make_educated_guess (g : Minesweeper) (rnd : nat) : option (ActionKind * Z * Z) :=
  let hidden_cells :=
    filter (fun x => is_hidden g (fst x) (snd x)) (all_cells (rows g) (cols g)) in
  match hidden_cells with
  | [] => None
  | _ =>
    let '(best_cell, max_revealed) :=
      fold_left (fun acc x =>
          let '(b, m) := acc in
          let revealed_count :=
            Z.of_nat (length (filter (fun n => is_revealed g (fst n) (snd n))
                                (get_neighbors g (fst x) (snd x)))) in
          if m <? revealed_count then (Some x, revealed_count) else (b, m))
        hidden_cells (None, -1) in
    if max_revealed =? 0 then
      let corners := [(0, 0); (0, cols g - 1); (rows g - 1, 0); (rows g - 1, cols g - 1)] in
      match find (fun x => mem x hidden_cells) corners with
      | Some (r, c) => Some (reveal, r, c)
      | None =>
        let '(r, c) := nth (rnd mod length hidden_cells) hidden_cells (0, 0) in
        Some (reveal, r, c)
      end
    else
      match best_cell with
      | Some (r, c) => Some (reveal, r, c)
      | None => None
      end
  end.

(** [choose_action] *)
Definition choose_action (g : Minesweeper) (rnd : nat) : option (ActionKind * Z * Z) :=
  let first_hidden (l : list cell) := find (fun x => is_hidden g (fst x) (snd x)) l in
  match first_hidden (find_certain_mines g) with
  | Some (r, c) => Some (flag, r, c)
  | None =>
  match find_certain_safe g with
  | (r, c) :: _ => Some (reveal, r, c)
  | [] =>
  match first_hidden (check_1_2_1_pattern g) with
  | Some (r, c) => Some (flag, r, c)
  | None =>
  let '(pattern_mines, pattern_safe) := check_1_2_pattern g in
  match first_hidden pattern_mines with
  | Some (r, c) => Some (flag, r, c)
  | None =>
  match (match pattern_safe with
         | (r, c) :: _ => if is_hidden g r c then Some (reveal, r, c) else None
         | [] => None
         end) with
  | Some a => Some a
  | None =>
  match check_1_1_pattern g with
  | (r, c) :: _ => Some (reveal, r, c)
  | [] => make_educated_guess g rnd
  end end end end end end.

(** ** Well-formed boards *)

(** [rs] rows of [cs] cells each. *)
Definition shaped {A} (rs cs : Z) (gr : list (list A)) : Prop :=
  length gr = Z.to_nat rs /\ Forall (fun row => length row = Z.to_nat cs) gr.

Definition wf (g : Minesweeper) : Prop :=
  0 < rows g /\ 0 < cols g /\
  shaped (rows g) (cols g) (board g) /\
  shaped (rows g) (cols g) (cell_states g) /\
  Forall (fun m => in_bounds g (fst m) (snd m) = true) (mines g).

Definition shapedb {A} (rs cs : Z) (gr : list (list A)) : bool :=
  Nat.eqb (length gr) (Z.to_nat rs)
  && forallb (fun row => Nat.eqb (length row) (Z.to_nat cs)) gr.

Definition wfb (g : Minesweeper) : bool :=
  (0 <? rows g) && (0 <? cols g) && shapedb (rows g) (cols g) (board g)
  && shapedb (rows g) (cols g) (cell_states g)
  && forallb (fun m => in_bounds g (fst m) (snd m)) (mines g).

(** What every reachable state satisfies about the two counters: they
    match the cell states, except for the mine cell revealed by a loss. *)
Definition counters_inv (g : Minesweeper) : Prop :=
  wf g /\ flags_placed g = Z.of_nat (count_state g FLAGGED) /\
  (game_state g <> LOST -> cells_revealed g = Z.of_nat (count_state g REVEALED)) /\
  (game_state g = LOST -> cells_revealed g + 1 = Z.of_nat (count_state g REVEALED)).

(** ** Flood reveal: the relation between the states before and after *)

(** Everything but the cell states and [cells_revealed] is left alone. *)
Definition same_frame (g h : Minesweeper) : Prop :=
  rows h = rows g /\ cols h = cols g /\ num_mines h = num_mines g /\
  board h = board g /\ mines h = mines g /\ game_state h = game_state g /\
  flags_placed h = flags_placed g /\ first_click h = first_click g.

(** [h] arises from [g] by turning Hidden non-mine cells into Revealed
    ones, counting each of them once in [cells_revealed]. *)
Definition flood_mono (g h : Minesweeper) : Prop :=
  same_frame g h /\
  shaped (rows g) (cols g) (cell_states h) /\
  (forall r c, 0 <= r -> 0 <= c ->
     get_cell_state h r c = get_cell_state g r c \/
     (get_cell_state g r c = Some HIDDEN /\ get_cell_state h r c = Some REVEALED /\
      mem (r, c) (mines g) = false)) /\
  (count_state h REVEALED + count_state h HIDDEN
   = count_state g REVEALED + count_state g HIDDEN)%nat /\
  (count_state g REVEALED <= count_state h REVEALED)%nat /\
  cells_revealed h - cells_revealed g
  = Z.of_nat (count_state h REVEALED) - Z.of_nat (count_state g REVEALED).

(** A cell the flood cannot enter any more. *)
Definition settled (h : Minesweeper) (x : cell) : Prop :=
  get_cell_state h (fst x) (snd x) <> Some HIDDEN \/ mem x (mines h) = true.

Definition newly_revealed (g h : Minesweeper) (x : cell) : Prop :=
  in_bounds g (fst x) (snd x) = true /\
  get_cell_state g (fst x) (snd x) = Some HIDDEN /\
  get_cell_state h (fst x) (snd x) = Some REVEALED.

(** The cells a flood started at [z] must reveal: [z] itself when it is a
    Hidden non-mine cell, and every Hidden non-mine neighbour of a cell of
    the region whose value is 0. *)
Inductive flood_region (g : Minesweeper) (z : cell) : cell -> Prop :=
| fr_start :
    in_bounds g (fst z) (snd z) = true ->
    get_cell_state g (fst z) (snd z) = Some HIDDEN ->
    mem z (mines g) = false ->
    flood_region g z z
| fr_step x y :
    flood_region g z x ->
    get_cell_value g (fst x) (snd x) = Some 0 ->
    In y (get_neighbors g (fst x) (snd x)) ->
    get_cell_state g (fst y) (snd y) = Some HIDDEN ->
    mem y (mines g) = false ->
    flood_region g z y.

(** ** The rest of [Minesweeper] *)

(** [get_remaining_mines] *)
Definition get_remaining_mines (g : Minesweeper) : Z := num_mines g - flags_placed g.

(** [reset]; [difficulty] is [None] when the caller passes none (an enum
    member is always true for Python's [if difficulty:]). *)
Definition reset (g : Minesweeper) (difficulty : option Difficulty) : Minesweeper :=
  let '(r, c, m) :=
    match difficulty with
    | Some d => difficulty_value d
    | None => (rows g, cols g, num_mines g)
    end in
  mkMinesweeper r c m
    (repeat (repeat 0 (Z.to_nat c)) (Z.to_nat r))
    (repeat (repeat HIDDEN (Z.to_nat c)) (Z.to_nat r))
    [] READY 0 0 true.

(** The states a program reaches through the object's interface: a new
    game, a [reveal_cell] or [toggle_flag] call (the random source honouring
    the contract of [random.sample]), or a [reset]. *)
Inductive reachable : Minesweeper -> Prop :=
| reach_init d : reachable (init d)
| reach_step g a g' : reachable g -> valid_action g a -> step g a = Some g' -> reachable g'
| reach_reset g od : reachable g -> reachable (reset g od).

(** ** [MinesweeperAgent] and [RandomAgent] ([src/ai/agent.py]) *)

(** [get_safe_cells]; [self.game.get_cell_value] is read on a cell of the
    range loops, which exists on a well-shaped board. *)
Definition get_safe_cells (g : Minesweeper) : list cell :=
  py_set (flat_map (fun rc =>
      let '(row, col) := rc in
      if state_is g row col REVEALED then
        let neighbors := get_neighbors g row col in
        let hidden_neighbors := filter (fun n => state_is g (fst n) (snd n) HIDDEN) neighbors in
        let flagged_neighbors := filter (fun n => state_is g (fst n) (snd n) FLAGGED) neighbors in
        let cell_value := match get_cell_value g row col with Some v => v | None => 0 end in
        if (Z.of_nat (length flagged_neighbors) =? cell_value)
           && negb (match hidden_neighbors with [] => true | _ => false end)
        then hidden_neighbors else []
      else [])
    (all_cells (rows g) (cols g))).

(** [get_mine_cells] *)
Definition get_mine_cells (g : Minesweeper) : list cell :=
  py_set (flat_map (fun rc =>
      let '(row, col) := rc in
      if state_is g row col REVEALED then
        let neighbors := get_neighbors g row col in
        let hidden_neighbors := filter (fun n => state_is g (fst n) (snd n) HIDDEN) neighbors in
        let flagged_neighbors := filter (fun n => state_is g (fst n) (snd n) FLAGGED) neighbors in
        let cell_value := match get_cell_value g row col with Some v => v | None => 0 end in
        if (Z.of_nat (length hidden_neighbors) + Z.of_nat (length flagged_neighbors) =? cell_value)
           && negb (match hidden_neighbors with [] => true | _ => false end)
        then hidden_neighbors else []
      else [])
    (all_cells (rows g) (cols g))).

(** [MinesweeperAgent.choose_action]; [rnd] selects the element the one
    [random.choice] call that runs returns. *)
Definition agent_choose_action (g : Minesweeper) (rnd : nat) : option (ActionKind * Z * Z) :=
  match find (fun x => state_is g (fst x) (snd x) HIDDEN) (get_mine_cells g) with
  | Some (r, c) => Some (flag, r, c)
  | None =>
  match get_safe_cells g with
  | (r, c) :: _ => Some (reveal, r, c)
  | [] =>
    let hidden_cells :=
      filter (fun x => state_is g (fst x) (snd x) HIDDEN) (all_cells (rows g) (cols g)) in
    match hidden_cells with
    | [] => None
    | _ =>
      let '(best_cell, max_revealed_neighbors) :=
        fold_left (fun acc x =>
            let '(b, m) := acc in
            let revealed_count :=
              Z.of_nat (length (filter (fun n => state_is g (fst n) (snd n) REVEALED)
                                  (get_neighbors g (fst x) (snd x)))) in
            if m <? revealed_count then (Some x, revealed_count) else (b, m))
          hidden_cells (None, -1) in
      let best_cell :=
        if max_revealed_neighbors =? 0 then
          let corner_cells :=
            [(0, 0); (0, cols g - 1); (rows g - 1, 0); (rows g - 1, cols g - 1)] in
          let available_corners := filter (fun x => mem x hidden_cells) corner_cells in
          match available_corners with
          | [] => Some (nth (rnd mod length hidden_cells) hidden_cells (0, 0))
          | _ => Some (nth (rnd mod length available_corners) available_corners (0, 0))
          end
        else best_cell in
      match best_cell with
      | Some (r, c) => Some (reveal, r, c)
      | None => None
      end
    end
  end end.

(** [RandomAgent.choose_action] *)
Definition random_choose_action (g : Minesweeper) (rnd : nat) : option (ActionKind * Z * Z) :=
  let hidden_cells :=
    filter (fun x => state_is g (fst x) (snd x) HIDDEN) (all_cells (rows g) (cols g)) in
  match hidden_cells with
  | [] => None
  | _ => let '(r, c) := nth (rnd mod length hidden_cells) hidden_cells (0, 0) in
         Some (reveal, r, c)
  end.

(** The number [get_board_state] writes for one cell; [None] is an
    [IndexError].  The numbers are between -2 and 9 on every reachable
    state (see the theorem), so the [int8] array stores them unchanged. *)
Definition board_code (g : Minesweeper) (row col : Z) : option Z :=
  match get_cell_state g row col with
  | Some HIDDEN => Some (-1)
  | Some FLAGGED => Some (-2)
  | Some REVEALED => if is_mine g row col then Some 9 else get_cell_value g row col
  | None => None
  end.

(** [get_board_state]: [np.zeros], then one assignment per cell. *)
Definition get_board_state (g : Minesweeper) : option (list (list Z)) :=
  fold_left (fun acc rc =>
      match acc with
      | Some st =>
        match board_code g (fst rc) (snd rc) with
        | Some v => Some (grid_set st (fst rc) (snd rc) v)
        | None => None
        end
      | None => None
      end)
    (all_cells (rows g) (cols g))
    (Some (repeat (repeat 0 (Z.to_nat (cols g))) (Z.to_nat (rows g)))).

(** ** Statistics *)

(** Python's [float(n)] of an integer: exact below 2^53, which every count
    of a board is.  A Python [int / int] is the correctly rounded quotient,
    which is the float division of the two exact floats. *)
Definition py_float (z : Z) : PrimFloat.float :=
  if z <? 0 then PrimFloat.opp (PrimFloat.of_uint63 (Uint63.of_Z (- z)))
  else PrimFloat.of_uint63 (Uint63.of_Z z).

(** The dictionary [calculate_statistics] returns. *)
Record Statistics := mkStatistics {
  total_cells : Z;
  revealed_cells : Z;
  flagged_cells : Z;
  progress : PrimFloat.float;
  flags_correct : bool
}.

(** [sum(1 for row in range(rows) for col in range(cols) if p(row, col))] *)
Definition count_cells (g : Minesweeper) (p : Z -> Z -> bool) : Z :=
  Z.of_nat (length (filter (fun x => p (fst x) (snd x)) (all_cells (rows g) (cols g)))).

(** [PatternAgent.calculate_statistics]; [None] is the [ZeroDivisionError]
    of a board with as many mines as cells. *)
Definition calculate_statistics (g : Minesweeper) : option Statistics :=
  let total := rows g * cols g in
  let revealed := count_cells g (is_revealed g) in
  let flagged := count_cells g (is_flagged g) in
  if total - num_mines g =? 0 then None
  else Some (mkStatistics total revealed flagged
              (PrimFloat.mul (PrimFloat.div (py_float revealed) (py_float (total - num_mines g)))
                             (py_float 100))
              (flagged <=? num_mines g)).

(** [MinesweeperAgent.calculate_statistics], the same code over
    [self.game.get_cell_state(row, col) == ...]. *)
Definition agent_calculate_statistics (g : Minesweeper) : option Statistics :=
  let total := rows g * cols g in
  let revealed := count_cells g (fun r c => state_is g r c REVEALED) in
  let flagged := count_cells g (fun r c => state_is g r c FLAGGED) in
  if total - num_mines g =? 0 then None
  else Some (mkStatistics total revealed flagged
              (PrimFloat.mul (PrimFloat.div (py_float revealed) (py_float (total - num_mines g)))
                             (py_float 100))
              (flagged <=? num_mines g)).

(** ** The user interface ([src/game/ui.py]) *)

Definition cell_size : Z := 32.
Definition header_height : Z := 80.
Definition border_width : Z := 10.

(** [window_width], computed from the columns of the game the window shows. *)
Definition window_width (g : Minesweeper) : Z := cols g * cell_size + 2 * border_width.

(** The top-left pixel of the square [draw_cell] paints for a cell. *)
Definition cell_origin (row col : Z) : Z * Z :=
  (border_width + col * cell_size, header_height + border_width + row * cell_size).

(** [get_cell_from_pos]; [//] is floor division, as [Z.div]. *)
Definition get_cell_from_pos (g : Minesweeper) (pos : Z * Z) : option cell :=
  let '(x, y) := pos in
  let col := (x - border_width) / cell_size in
  let row := (y - header_height - border_width) / cell_size in
  if (0 <=? row) && (row <? rows g) && (0 <=? col) && (col <? cols g)
  then Some (row, col) else None.

(** [self.smiley_rect.collidepoint(pos)] for
    [pygame.Rect(window_width // 2 - 25, 20, 50, 50)]. *)
Definition smiley_hit (g : Minesweeper) (pos : Z * Z) : bool :=
  let '(x, y) := pos in
  let left := window_width g / 2 - 25 in
  (left <=? x) && (x <? left + 50) && (20 <=? y) && (y <? 20 + 50).

(** The game after [handle_click]; [drawn] is what the random source
    returns if the click is a first reveal, and [None] the error a reveal
    with a broken random source raises. *)
Definition handle_click (current_difficulty : Difficulty) (g : Minesweeper)
  (pos : Z * Z) (button : Z) (drawn : list cell) : option Minesweeper :=
  if smiley_hit g pos then Some (reset g (Some current_difficulty))
  else
    match get_cell_from_pos g pos with
    | Some (row, col) =>
      if button =? 1 then option_map fst (reveal_cell g row col drawn)
      else if button =? 3 then Some (toggle_flag g row col)
      else Some g
    | None => Some g
    end.

(** The three agents [ai_demo.py] offers. *)
Inductive AgentKind := PatternAgent | SmartAgent | RandomAgent.

Definition agent_action (ag : AgentKind) (g : Minesweeper) (rnd : nat)
  : option (ActionKind * Z * Z) :=
  match ag with
  | PatternAgent => choose_action g rnd
  | SmartAgent => agent_choose_action g rnd
  | RandomAgent => random_choose_action g rnd
  end.

(** The move block of [run_with_ai]: on a game in play the agent's action
    is applied; [None] when no move is made (the game is over, the agent has
    no action, or a first reveal's random source broke its contract). *)
Definition ai_move (ag : AgentKind) (g : Minesweeper) (rnd : nat) (drawn : list cell)
  : option Minesweeper :=
  match game_state g with
  | PLAYING | READY =>
    match agent_action ag g rnd with
    | Some (reveal, r, c) => option_map fst (reveal_cell g r c drawn)
    | Some (flag, r, c) => Some (toggle_flag g r c)
    | None => None
    end
  | _ => None
  end.

(** Consecutive moves of [run_with_ai] on one game, each with its random
    choices. *)
Fixpoint ai_play (ag : AgentKind) (g : Minesweeper) (moves : list (nat * list cell))
  : option Minesweeper :=
  match moves with
  | [] => Some g
  | (rnd, drawn) :: t =>
    match ai_move ag g rnd drawn with
    | Some g' => ai_play ag g' t
    | None => None
    end
  end.

(** The random source honours [random.sample]'s contract at each move. *)
Fixpoint ai_valid (ag : AgentKind) (g : Minesweeper) (moves : list (nat * list cell)) : Prop :=
  match moves with
  | [] => True
  | (rnd, drawn) :: t =>
    (forall k r c, agent_action ag g rnd = Some (k, r, c) -> valid_action g (Reveal r c drawn)) /\
    match ai_move ag g rnd drawn with
    | Some g' => ai_valid ag g' t
    | None => True
    end
  end.

(** What every reachable state satisfies about mines: before the first
    click nothing is revealed; after it every non-mine cell holds its number;
    a revealed mine means the game is lost, and a lost game shows one. *)
Definition mines_inv (g : Minesweeper) : Prop :=
  (first_click g = true -> count_state g REVEALED = 0%nat) /\
  (first_click g = false -> forall r c, in_bounds g r c = true -> is_mine g r c = false ->
     get_cell_value g r c = Some (count_adjacent_mines g r c)) /\
  (forall r c, in_bounds g r c = true -> get_cell_state g r c = Some REVEALED ->
     is_mine g r c = true -> game_state g = LOST) /\
  (game_state g = LOST -> exists r c, in_bounds g r c = true /\
     get_cell_state g r c = Some REVEALED /\ is_mine g r c = true).

(** The dimensions are those of one of the three difficulties. *)
Definition dims_ok (g : Minesweeper) : Prop :=
  exists d, difficulty_value d = (rows g, cols g, num_mines g).

Definition state_inv (g : Minesweeper) : Prop :=
  counters_inv g /\ outcome_inv g /\ mines_inv g /\ dims_ok g.

(** Two states of the demo game: after the opening and a flag on (0, 2),
    and after the opening and a click on the mine (0, 2). *)
Definition demo_played : Minesweeper :=
  match run (init BEGINNER) (demo_opening ++ [ToggleFlag 0 2]) with
  | Some g => g
  | None => init BEGINNER
  end.

Definition demo_lost : Minesweeper :=
  match run (init BEGINNER) (demo_opening ++ [Reveal 0 2 []]) with
  | Some g => g
  | None => init BEGINNER
  end.

(** ** Lemmas on Python lists *)

Lemma py_index_nonneg {A} (l : list A) i : 0 <= i -> py_index l i = nth_error l (Z.to_nat i).
Proof. intros H. unfold py_index. destruct (Z.ltb_spec i 0); [lia | reflexivity]. Qed.

Lemma length_list_set {A} (l : list A) n v : length (list_set l n v) = length l.
Proof. revert n; induction l as [|x l IH]; intros [|n]; simpl; auto. Qed.

Lemma nth_error_list_set {A} (l : list A) n v m :
  nth_error (list_set l n v) m =
  if Nat.eqb n m then option_map (fun _ => v) (nth_error l m) else nth_error l m.
Proof.
  revert n m; induction l as [|x l IH]; intros [|n] [|m]; simpl; auto;
    destruct (Nat.eqb n m); reflexivity.
Qed.

Lemma py_index2_grid_set {A} (gr : list (list A)) r c v r' c' :
  0 <= r -> 0 <= c -> 0 <= r' -> 0 <= c' ->
  py_index2 (grid_set gr r c v) r' c' =
  if (r =? r') && (c =? c') then option_map (fun _ => v) (py_index2 gr r c)
  else py_index2 gr r' c'.
Proof.
  intros Hr Hc Hr' Hc'. unfold py_index2, grid_set.
  rewrite !py_index_nonneg by assumption.
  rewrite nth_error_list_set.
  destruct (Z.eqb_spec r r') as [<-|Hne]; simpl.
  - rewrite Nat.eqb_refl.
    destruct (nth_error gr (Z.to_nat r)) as [row|] eqn:E; simpl; [|destruct (c =? c'); reflexivity].
    rewrite !py_index_nonneg by assumption.
    rewrite (nth_error_nth gr (Z.to_nat r) [] E), nth_error_list_set.
    destruct (Z.eqb_spec c c') as [<-|Hne]; simpl.
    + rewrite Nat.eqb_refl. reflexivity.
    + replace (Nat.eqb (Z.to_nat c) (Z.to_nat c')) with false; [reflexivity|].
      symmetry; apply Nat.eqb_neq; lia.
  - replace (Nat.eqb (Z.to_nat r) (Z.to_nat r')) with false; [reflexivity|].
    symmetry; apply Nat.eqb_neq; lia.
Qed.

Lemma shaped_grid_set {A} rs cs (gr : list (list A)) r c v :
  shaped rs cs gr -> shaped rs cs (grid_set gr r c v).
Proof.
  unfold shaped, grid_set. intros [Hl Hf]. split.
  - rewrite length_list_set. exact Hl.
  - rewrite Forall_forall in *. intros row Hin.
    apply In_nth_error in Hin as [k Hk].
    rewrite nth_error_list_set in Hk.
    destruct (Nat.eqb (Z.to_nat r) k) eqn:E.
    + apply Nat.eqb_eq in E; subst k.
      destruct (nth_error gr (Z.to_nat r)) as [row0|] eqn:E0; simpl in Hk; [|discriminate].
      inversion Hk; subst. rewrite length_list_set.
      rewrite (nth_error_nth gr _ [] E0). apply Hf. eapply nth_error_In; eauto.
    + apply Hf. eapply nth_error_In; eauto.
Qed.

Lemma shaped_get {A} rs cs (gr : list (list A)) r c :
  shaped rs cs gr -> 0 <= r < rs -> 0 <= c < cs -> exists v, py_index2 gr r c = Some v.
Proof.
  intros [Hl Hf] Hr Hc. unfold py_index2. rewrite py_index_nonneg by lia.
  destruct (nth_error gr (Z.to_nat r)) as [row|] eqn:E.
  - rewrite py_index_nonneg by lia.
    assert (Hrow : length row = Z.to_nat cs).
    { rewrite Forall_forall in Hf. apply Hf. eapply nth_error_In; eauto. }
    destruct (nth_error row (Z.to_nat c)) eqn:E2; [eauto|].
    apply nth_error_None in E2. lia.
  - apply nth_error_None in E. lia.
Qed.

Lemma shaped_get_bounds {A} rs cs (gr : list (list A)) r c v :
  shaped rs cs gr -> 0 <= r -> 0 <= c -> py_index2 gr r c = Some v -> r < rs /\ c < cs.
Proof.
  intros [Hl Hf] Hr Hc. unfold py_index2. rewrite !py_index_nonneg by lia.
  destruct (nth_error gr (Z.to_nat r)) as [row|] eqn:E; [|discriminate].
  intros E2. rewrite py_index_nonneg in E2 by lia.
  assert (Hrow : length row = Z.to_nat cs).
  { rewrite Forall_forall in Hf. apply Hf. eapply nth_error_In; eauto. }
  assert (Z.to_nat r < length gr)%nat by (apply nth_error_Some; congruence).
  assert (Z.to_nat c < length row)%nat by (apply nth_error_Some; congruence).
  lia.
Qed.

(** Counting after one write. *)
Lemma count_row_set {A} (p : A -> bool) row m v old :
  nth_error row m = Some old ->
  (length (filter p (list_set row m v)) + (if p old then 1 else 0)
   = length (filter p row) + (if p v then 1 else 0))%nat.
Proof.
  revert m; induction row as [|x row IH]; intros [|m] H; simpl in *; try discriminate.
  - inversion H; subst. destruct (p old), (p v); simpl; lia.
  - specialize (IH m H). destruct (p x); simpl; lia.
Qed.

Lemma count_grid_set_nat {A} (p : A -> bool) gr n m row v old :
  nth_error gr n = Some row -> nth_error row m = Some old ->
  (count_grid p (list_set gr n (list_set row m v)) + (if p old then 1 else 0)
   = count_grid p gr + (if p v then 1 else 0))%nat.
Proof.
  unfold count_grid. revert n; induction gr as [|row0 gr IH]; intros [|n] H1 H2;
    simpl in *; try discriminate.
  - inversion H1; subst. pose proof (count_row_set p row m v old H2). lia.
  - specialize (IH n H1 H2). lia.
Qed.

Lemma count_grid_set {A} (p : A -> bool) gr r c v old :
  0 <= r -> 0 <= c -> py_index2 gr r c = Some old ->
  (count_grid p (grid_set gr r c v) + (if p old then 1 else 0)
   = count_grid p gr + (if p v then 1 else 0))%nat.
Proof.
  intros Hr Hc H. unfold py_index2 in H. rewrite py_index_nonneg in H by lia.
  destruct (nth_error gr (Z.to_nat r)) as [row|] eqn:E; [|discriminate].
  rewrite py_index_nonneg in H by lia.
  unfold grid_set. rewrite (nth_error_nth gr _ [] E).
  eapply count_grid_set_nat; eauto.
Qed.

Lemma count_grid_le {A} (p : A -> bool) rs cs (gr : list (list A)) :
  shaped rs cs gr -> (count_grid p gr <= Z.to_nat rs * Z.to_nat cs)%nat.
Proof.
  intros [Hl Hf]. unfold count_grid. rewrite <- Hl. clear Hl.
  induction gr as [|row gr IH]; simpl; [lia|].
  inversion Hf; subst.
  pose proof (filter_length_le p row). specialize (IH H2). lia.
Qed.

(** ** Basic facts on the board *)

Lemma state_is_true g r c s :
  state_is g r c s = true <-> get_cell_state g r c = Some s.
Proof.
  unfold state_is. destruct (get_cell_state g r c) as [s'|]; split; intros H;
    try discriminate.
  - destruct s', s; simpl in H; congruence.
  - inversion H; subst. destruct s; reflexivity.
Qed.

Lemma in_bounds_true g r c :
  in_bounds g r c = true <-> 0 <= r < rows g /\ 0 <= c < cols g.
Proof.
  unfold in_bounds. rewrite !andb_true_iff, !Z.leb_le, !Z.ltb_lt. tauto.
Qed.

Lemma neighbors_in_bounds rs cs r c y :
  In y (neighbors_in rs cs r c) ->
  0 <= fst y < rs /\ 0 <= snd y < cs /\ y <> (r, c) /\
  Z.abs (fst y - r) <= 1 /\ Z.abs (snd y - c) <= 1.
Proof.
  unfold neighbors_in. intros H.
  apply in_flat_map in H as [dr [Hdr H]].
  apply in_flat_map in H as [dc [Hdc H]].
  destruct ((dr =? 0) && (dc =? 0)) eqn:E0; [destruct H|].
  destruct ((0 <=? r + dr) && (r + dr <? rs) && (0 <=? c + dc) && (c + dc <? cs)) eqn:E;
    [|destruct H].
  destruct H as [<-|[]]. simpl.
  rewrite !andb_true_iff, !Z.leb_le, !Z.ltb_lt in E.
  rewrite andb_false_iff, !Z.eqb_neq in E0.
  simpl in Hdr, Hdc.
  destruct Hdr as [<-|[<-|[<-|[]]]]; destruct Hdc as [<-|[<-|[<-|[]]]];
    repeat split; try lia; intros Heq; inversion Heq; lia.
Qed.

Lemma wf_get_state g r c :
  wf g -> in_bounds g r c = true -> exists s, get_cell_state g r c = Some s.
Proof.
  intros (_ & _ & _ & Hs & _) Hb. apply in_bounds_true in Hb.
  eapply shaped_get; eauto; lia.
Qed.

Lemma wf_get_state_bounds g r c s :
  wf g -> 0 <= r -> 0 <= c -> get_cell_state g r c = Some s -> in_bounds g r c = true.
Proof.
  intros (_ & _ & _ & Hs & _) Hr Hc H. apply in_bounds_true.
  pose proof (shaped_get_bounds _ _ _ _ _ _ Hs Hr Hc H). lia.
Qed.

Lemma same_frame_refl g : same_frame g g.
Proof. repeat split. Qed.

Lemma same_frame_trans g h k : same_frame g h -> same_frame h k -> same_frame g k.
Proof. unfold same_frame. intuition congruence. Qed.

Lemma flood_mono_refl g : wf g -> flood_mono g g.
Proof.
  intros Hwf. destruct Hwf as (_ & _ & _ & Hs & _).
  split; [apply same_frame_refl|]. split; [exact Hs|].
  split; [intros; left; reflexivity|]. lia.
Qed.

Lemma flood_mono_trans g h k : flood_mono g h -> flood_mono h k -> flood_mono g k.
Proof.
  intros (F1 & S1 & P1 & C1 & D1 & R1) (F2 & S2 & P2 & C2 & D2 & R2).
  pose proof F1 as (Hr & Hc & _ & _ & Hm & _).
  split; [eauto using same_frame_trans|].
  split; [rewrite <- Hr, <- Hc; exact S2|].
  split; [|repeat split; lia].
  intros r c H0r H0c.
  destruct (P1 r c H0r H0c) as [E1|(E1a & E1b & E1c)];
    destruct (P2 r c H0r H0c) as [E2|(E2a & E2b & E2c)].
  - left; congruence.
  - right. rewrite <- E1. rewrite Hm in E2c. auto.
  - right. rewrite E2. auto.
  - congruence.
Qed.

Lemma flood_mono_wf g h : wf g -> flood_mono g h -> wf h.
Proof.
  intros (H1 & H2 & H3 & H4 & H5) ((Hr & Hc & _ & Hb & Hm & _) & S & _).
  unfold wf, in_bounds. rewrite Hr, Hc, Hb, Hm. auto.
Qed.

Lemma settled_mono h h' y :
  flood_mono h h' -> 0 <= fst y -> 0 <= snd y -> settled h y -> settled h' y.
Proof.
  intros ((_ & _ & _ & _ & Hm & _) & _ & P & _) H1 H2 [Hs|Hs]; unfold settled.
  - left. destruct (P _ _ H1 H2) as [E|(E & _)]; congruence.
  - right. rewrite Hm. exact Hs.
Qed.

Lemma newly_revealed_split g h k x :
  flood_mono g h -> flood_mono h k -> newly_revealed g k x ->
  newly_revealed g h x \/ newly_revealed h k x.
Proof.
  intros M1 M2 (Hb & Hg & Hk).
  pose proof M1 as ((Hr & Hc & _) & _ & P1 & _).
  pose proof M2 as (_ & _ & P2 & _).
  apply in_bounds_true in Hb as Hb'.
  destruct (P1 (fst x) (snd x)) as [E1|(_ & E1 & _)]; try lia.
  - right. repeat split; try congruence.
    unfold in_bounds in *. rewrite Hr, Hc. exact Hb.
  - left. repeat split; congruence.
Qed.

Lemma reveal_one_mono g r c :
  wf g -> in_bounds g r c = true -> get_cell_state g r c = Some HIDDEN ->
  mem (r, c) (mines g) = false ->
  flood_mono g (set_cells_revealed
                  (set_cell_states g (grid_set (cell_states g) r c REVEALED))
                  (cells_revealed g + 1)).
Proof.
  intros Hwf Hb Hh Hm. pose proof Hwf as (_ & _ & _ & Hs & _).
  apply in_bounds_true in Hb.
  split; [repeat split|].
  split; [apply shaped_grid_set; exact Hs|].
  split.
  { intros r' c' Hr' Hc'. unfold get_cell_state; simpl.
    rewrite py_index2_grid_set by lia.
    destruct ((r =? r') && (c =? c')) eqn:E; [|left; reflexivity].
    apply andb_true_iff in E as [E1 E2]. apply Z.eqb_eq in E1, E2. subst r' c'.
    right. unfold get_cell_state in Hh. rewrite Hh. auto. }
  unfold count_state; simpl.
  pose proof (count_grid_set (fun x => CellState_eqb x REVEALED) (cell_states g) r c
                REVEALED HIDDEN ltac:(lia) ltac:(lia) Hh) as C1.
  pose proof (count_grid_set (fun x => CellState_eqb x HIDDEN) (cell_states g) r c
                REVEALED HIDDEN ltac:(lia) ltac:(lia) Hh) as C2.
  simpl in C1, C2. lia.
Qed.

Lemma flood_region_facts g z x :
  flood_region g z x ->
  in_bounds g (fst x) (snd x) = true /\ get_cell_state g (fst x) (snd x) = Some HIDDEN /\
  mem x (mines g) = false.
Proof.
  intros H. destruct H as [H1 H2 H3|x y _ _ Hy H4 H5]; auto.
  split; auto. pose proof (neighbors_in_bounds _ _ _ _ _ Hy) as (? & ? & _).
  apply in_bounds_true. lia.
Qed.

Lemma flood_region_start g z x : flood_region g z x -> flood_region g z z.
Proof. induction 1; auto using fr_start. Qed.

Lemma flood_region_trans g z n x :
  flood_region g n x -> flood_region g z n -> flood_region g z x.
Proof. intros H Hn. induction H; auto. eapply fr_step; eauto. Qed.

Lemma flood_region_mono g b z x :
  flood_mono g b -> flood_region b z x -> flood_region g z x.
Proof.
  intros M H. pose proof M as ((Hr & Hc & _ & Hbd & Hm & _) & _ & P & _).
  assert (Hib : forall y, in_bounds b (fst y) (snd y) = in_bounds g (fst y) (snd y))
    by (intros; unfold in_bounds; rewrite Hr, Hc; reflexivity).
  assert (Hh : forall y, in_bounds b (fst y) (snd y) = true ->
                 get_cell_state b (fst y) (snd y) = Some HIDDEN ->
                 get_cell_state g (fst y) (snd y) = Some HIDDEN).
  { intros y Hy Hs. apply in_bounds_true in Hy.
    destruct (P (fst y) (snd y)) as [E|(E & E' & _)]; try lia; congruence. }
  induction H as [H1 H2 H3|x y Hx IHx H1 H2 H3 H4].
  - apply fr_start; [rewrite <- Hib|apply Hh|rewrite <- Hm]; auto.
  - apply fr_step with x; auto.
    + unfold get_cell_value in *. rewrite <- Hbd. exact H1.
    + unfold get_neighbors in *. rewrite <- Hr, <- Hc. exact H2.
    + apply Hh; auto. pose proof (neighbors_in_bounds _ _ _ _ _ H2) as (? & ? & _).
      apply in_bounds_true. lia.
    + rewrite <- Hm. exact H4.
Qed.

Lemma fold_reveal_none f l :
  fold_left (fun acc n => match acc with
                          | Some h => reveal_recursive f h (fst n) (snd n)
                          | None => None end) l None = None.
Proof. induction l; simpl; auto. Qed.

(** Induction over the neighbour loop of [_reveal_recursive], indexed by the
    neighbours already processed. *)
Lemma fold_reveal_ind f (P : list cell -> Minesweeper -> Prop) l :
  forall pre a h,
  fold_left (fun acc n => match acc with
                          | Some h => reveal_recursive f h (fst n) (snd n)
                          | None => None end) l (Some a) = Some h ->
  P pre a ->
  (forall pre' x b b', In x l -> P pre' b ->
     reveal_recursive f b (fst x) (snd x) = Some b' -> P (pre' ++ [x]) b') ->
  P (pre ++ l) h.
Proof.
  induction l as [|x l IH]; simpl; intros pre a h E HP Hstep.
  - inversion E; subst. rewrite app_nil_r. exact HP.
  - destruct (reveal_recursive f a (fst x) (snd x)) as [a'|] eqn:Ea.
    + replace (pre ++ x :: l) with ((pre ++ [x]) ++ l) by (rewrite <- app_assoc; reflexivity).
      eapply IH; eauto.
    + rewrite fold_reveal_none in E. discriminate.
Qed.

Lemma value_is_zero_true g r c :
  value_is_zero g r c = true <-> get_cell_value g r c = Some 0.
Proof.
  unfold value_is_zero. destruct (get_cell_value g r c) as [v|]; split; intros H;
    try discriminate.
  - apply Z.eqb_eq in H. subst; reflexivity.
  - inversion H; reflexivity.
Qed.

(** The specification of one call of [_reveal_recursive]: what it changes,
    the target is settled afterwards, every newly revealed 0-valued cell has
    all its neighbours settled, and every newly revealed cell lies in the
    flood region of the target. *)
Lemma reveal_recursive_spec f : forall g r c h,
  wf g -> reveal_recursive f g r c = Some h ->
  flood_mono g h /\
  (in_bounds g r c = true -> settled h (r, c)) /\
  (forall x, newly_revealed g h x -> get_cell_value g (fst x) (snd x) = Some 0 ->
     forall y, In y (get_neighbors g (fst x) (snd x)) -> settled h y) /\
  (forall x, newly_revealed g h x -> flood_region g (r, c) x).
Proof.
  induction f as [|f IH]; intros g r c h Hwf E; [discriminate|].
  cbn [reveal_recursive] in E.
  destruct (in_bounds g r c) eqn:Hb; cbn [negb] in E.
  2:{ injection E as <-. split; [apply flood_mono_refl; exact Hwf|].
      split; [discriminate|].
      split; intros x (_ & H1 & H2); congruence. }
  destruct (state_is g r c HIDDEN) eqn:Hh; cbn [negb] in E.
  2:{ injection E as <-. split; [apply flood_mono_refl; exact Hwf|].
      split; [intros _; left; intros Hs; apply state_is_true in Hs; simpl in Hs; congruence|].
      split; intros x (_ & H1 & H2); congruence. }
  destruct (mem (r, c) (mines g)) eqn:Hm.
  { injection E as <-. split; [apply flood_mono_refl; exact Hwf|].
    split; [intros _; right; exact Hm|].
    split; intros x (_ & H1 & H2); congruence. }
  apply state_is_true in Hh.
  pose proof Hb as Hb'. apply in_bounds_true in Hb'.
  assert (M1 := reveal_one_mono g r c Hwf Hb Hh Hm).
  set (g1 := set_cells_revealed (set_cell_states g (grid_set (cell_states g) r c REVEALED))
                (cells_revealed g + 1)) in *.
  assert (W1 : wf g1) by eauto using flood_mono_wf.
  assert (G1 : forall r' c', 0 <= r' -> 0 <= c' ->
             get_cell_state g1 r' c' =
             if (r =? r') && (c =? c') then Some REVEALED else get_cell_state g r' c').
  { intros r' c' Hr' Hc'. unfold g1, get_cell_state; simpl.
    rewrite py_index2_grid_set by lia.
    destruct ((r =? r') && (c =? c')); [|reflexivity].
    unfold get_cell_state in Hh. rewrite Hh. reflexivity. }
  assert (N1 : forall x, newly_revealed g g1 x -> x = (r, c)).
  { intros [x1 x2] (Hbx & H1 & H2). simpl in *. apply in_bounds_true in Hbx.
    rewrite G1 in H2 by lia.
    destruct ((r =? x1) && (c =? x2)) eqn:Ex; [|congruence].
    apply andb_true_iff in Ex as [E1 E2]. apply Z.eqb_eq in E1, E2. subst. reflexivity. }
  assert (R0 : flood_region g (r, c) (r, c)) by (apply fr_start; auto).
  assert (Rg1 : get_cell_state g1 r c = Some REVEALED)
    by (rewrite G1 by lia; rewrite !Z.eqb_refl; reflexivity).
  destruct (value_is_zero g r c) eqn:Hz.
  - set (P := fun (pre : list cell) (b : Minesweeper) =>
           flood_mono g1 b /\
           (forall y, In y pre -> In y (get_neighbors g r c) /\ settled b y) /\
           (forall x, newly_revealed g1 b x -> get_cell_value g (fst x) (snd x) = Some 0 ->
              forall y, In y (get_neighbors g (fst x) (snd x)) -> settled b y) /\
           (forall x, newly_revealed g1 b x -> flood_region g (r, c) x)).
    assert (HP : P ([] ++ get_neighbors g r c) h).
    { eapply (fold_reveal_ind f P); [exact E| |].
      - split; [apply flood_mono_refl; exact W1|].
        split; [intros y []|].
        split; intros x (_ & H1 & H2); congruence.
      - intros pre x b b' Hin (Mb & Sb & Cb & Rb) Eb.
        assert (Wb : wf b) by eauto using flood_mono_wf.
        destruct (IH b (fst x) (snd x) b' Wb Eb) as (M' & S' & C' & R').
        assert (Mgb : flood_mono g b) by eauto using flood_mono_trans.
        pose proof Mgb as ((Hrb & Hcb & _ & Hbb & Hmb & _) & _).
        pose proof (neighbors_in_bounds _ _ _ _ _ Hin) as (Hx1 & Hx2 & _).
        assert (Hnb : forall a1 a2, get_neighbors b a1 a2 = get_neighbors g a1 a2)
          by (intros; unfold get_neighbors; rewrite Hrb, Hcb; reflexivity).
        assert (Hvb : forall a1 a2, get_cell_value b a1 a2 = get_cell_value g a1 a2)
          by (intros; unfold get_cell_value; rewrite Hbb; reflexivity).
        split; [eauto using flood_mono_trans|].
        split; [|split].
        + intros y Hy. apply in_app_or in Hy as [Hy|[<-|[]]].
          * destruct (Sb y Hy) as [Hy1 Hy2]. split; [exact Hy1|].
            pose proof (neighbors_in_bounds _ _ _ _ _ Hy1) as (? & ? & _).
            eapply settled_mono; eauto; lia.
          * split; [exact Hin|]. destruct x as [x1 x2]. apply S'.
            apply in_bounds_true. rewrite Hrb, Hcb. simpl in *. lia.
        + intros x0 Hnew Hz0 y Hy.
          destruct (newly_revealed_split g1 b b' x0 Mb M' Hnew) as [Hn|Hn].
          * pose proof (neighbors_in_bounds _ _ _ _ _ Hy) as (? & ? & _).
            eapply settled_mono; [exact M'| lia | lia |]. eapply Cb; eauto.
          * apply (C' x0 Hn); [rewrite Hvb; exact Hz0 | rewrite Hnb; exact Hy].
        + intros x0 Hnew.
          destruct (newly_revealed_split g1 b b' x0 Mb M' Hnew) as [Hn|Hn]; [apply Rb; exact Hn|].
          pose proof (flood_region_mono _ _ _ _ Mgb (R' x0 Hn)) as Hreg.
          eapply flood_region_trans; [exact Hreg|].
          destruct (flood_region_facts _ _ _ (flood_region_start _ _ _ Hreg)) as (F1 & F2 & F3).
          apply fr_step with (r, c); auto;
            [apply value_is_zero_true; exact Hz | destruct x; exact Hin]. }
    simpl in HP. destruct HP as (Mh & Sh & Ch & Rh).
    split; [eauto using flood_mono_trans|].
    split; [intros _; eapply settled_mono; [exact Mh|simpl; lia|simpl; lia|left; simpl; rewrite Rg1; discriminate]|].
    split.
    + intros x Hnew Hz0 y Hy.
      destruct (newly_revealed_split g g1 h x M1 Mh Hnew) as [Hn|Hn].
      * apply N1 in Hn. subst x. apply Sh. exact Hy.
      * apply (Ch x Hn Hz0 y Hy).
    + intros x Hnew.
      destruct (newly_revealed_split g g1 h x M1 Mh Hnew) as [Hn|Hn].
      * apply N1 in Hn. subst x. exact R0.
      * apply Rh. exact Hn.
  - injection E as <-. split; [exact M1|].
    split; [intros _; left; simpl; rewrite Rg1; discriminate|].
    split.
    + intros x Hn Hz0. apply N1 in Hn. subst x. simpl in Hz0.
      apply value_is_zero_true in Hz0. congruence.
    + intros x Hn. apply N1 in Hn. subst x. exact R0.
Qed.

Lemma flood_region_revealed f g z x h :
  wf g -> reveal_recursive f g (fst z) (snd z) = Some h ->
  flood_region g z x -> get_cell_state h (fst x) (snd x) = Some REVEALED.
Proof.
  intros Hwf E Hx.
  destruct (reveal_recursive_spec f g (fst z) (snd z) h Hwf E) as (M & S & C & _).
  pose proof M as ((_ & _ & _ & _ & Hm & _) & _ & P & _).
  induction Hx as [H1 H2 H3|x y Hx IHx H1 H2 H3 H4].
  - destruct z as [z1 z2]. simpl in *. apply in_bounds_true in H1 as H1'.
    destruct (S H1) as [Hs|Hs]; simpl in Hs; [|rewrite Hm in Hs; congruence].
    destruct (P z1 z2) as [E1|(_ & E1 & _)]; try lia; congruence.
  - destruct (flood_region_facts _ _ _ Hx) as (Fb & Fh & _).
    assert (Hy : settled h y).
    { apply (C x); auto. repeat split; auto. }
    pose proof (neighbors_in_bounds _ _ _ _ _ H2) as (? & ? & _).
    destruct Hy as [Hy|Hy]; [|rewrite Hm in Hy; congruence].
    destruct (P (fst y) (snd y)) as [E1|(_ & E1 & _)]; try lia; congruence.
Qed.

Lemma reveal_one_hidden_count g r c :
  0 <= r -> 0 <= c -> get_cell_state g r c = Some HIDDEN ->
  (count_state (set_cells_revealed
                  (set_cell_states g (grid_set (cell_states g) r c REVEALED))
                  (cells_revealed g + 1)) HIDDEN + 1 = count_state g HIDDEN)%nat.
Proof.
  intros Hr Hc Hh. unfold count_state; simpl.
  pose proof (count_grid_set (fun x => CellState_eqb x HIDDEN) (cell_states g) r c
                REVEALED HIDDEN Hr Hc Hh) as C. simpl in C. lia.
Qed.

Lemma flood_mono_hidden g h :
  flood_mono g h -> (count_state h HIDDEN <= count_state g HIDDEN)%nat.
Proof. intros (_ & _ & _ & C & D & _). lia. Qed.

(** Termination: a budget of one more than the number of Hidden cells is
    never exhausted. *)
Lemma reveal_recursive_total n : forall g r c,
  wf g -> (count_state g HIDDEN <= n)%nat ->
  exists h, reveal_recursive (S n) g r c = Some h.
Proof.
  induction n as [|n IH]; intros g r c Hwf Hn; cbn [reveal_recursive].
  all: destruct (in_bounds g r c) eqn:Hb; cbn [negb]; [|eauto].
  all: destruct (state_is g r c HIDDEN) eqn:Hh; cbn [negb]; [|eauto].
  all: destruct (mem (r, c) (mines g)) eqn:Hm; [eauto|].
  all: apply state_is_true in Hh; apply in_bounds_true in Hb as Hb'.
  all: pose proof (reveal_one_hidden_count g r c ltac:(lia) ltac:(lia) Hh) as Hc1.
  - lia.
  - pose proof (reveal_one_mono g r c Hwf Hb Hh Hm) as M1.
    set (g1 := set_cells_revealed (set_cell_states g (grid_set (cell_states g) r c REVEALED))
                  (cells_revealed g + 1)) in *.
    destruct (value_is_zero g r c); [|eauto].
    assert (Hfold : forall l a, flood_mono g1 a -> exists h,
      fold_left (fun acc n0 => match acc with
                               | Some h => reveal_recursive (S n) h (fst n0) (snd n0)
                               | None => None end) l (Some a) = Some h).
    { induction l as [|x l IHl]; intros a Ma; cbn [fold_left]; [eauto|].
      assert (Wa : wf a) by (eapply flood_mono_wf; [eapply flood_mono_wf|]; eauto).
      pose proof (flood_mono_hidden _ _ Ma).
      destruct (IH a (fst x) (snd x) Wa ltac:(lia)) as [a' Ea]. rewrite Ea.
      apply IHl. eapply flood_mono_trans; [exact Ma|].
      apply (reveal_recursive_spec _ _ _ _ _ Wa Ea). }
    apply Hfold. apply flood_mono_refl. eapply flood_mono_wf; eauto.
Qed.

Lemma reveal_recursive_fuel_mono f : forall f' g r c h,
  (f <= f')%nat -> reveal_recursive f g r c = Some h -> reveal_recursive f' g r c = Some h.
Proof.
  induction f as [|f IH]; intros f' g r c h Hle E; [discriminate|].
  destruct f' as [|f']; [lia|].
  cbn [reveal_recursive] in *.
  destruct (negb (in_bounds g r c)); [exact E|].
  destruct (negb (state_is g r c HIDDEN)); [exact E|].
  destruct (mem (r, c) (mines g)); [exact E|].
  destruct (value_is_zero g r c); [|exact E].
  revert E. generalize (set_cells_revealed (set_cell_states g (grid_set (cell_states g) r c REVEALED))
                  (cells_revealed g + 1)).
  induction (get_neighbors g r c) as [|x l IHl]; intros a E; simpl in *; [exact E|].
  destruct (reveal_recursive f a (fst x) (snd x)) as [a'|] eqn:Ea.
  - rewrite (IH f' a (fst x) (snd x) a' ltac:(lia) Ea). apply IHl. exact E.
  - rewrite fold_reveal_none in E. discriminate.
Qed.

Lemma count_state_le g s :
  wf g -> (count_state g s <= Z.to_nat (rows g * cols g))%nat.
Proof.
  intros (H1 & H2 & _ & Hs & _). unfold count_state.
  rewrite Z2Nat.inj_mul by lia. eapply count_grid_le; eauto.
Qed.

Lemma shapedb_sound {A} rs cs (gr : list (list A)) :
  shapedb rs cs gr = true -> shaped rs cs gr.
Proof.
  unfold shapedb, shaped. rewrite andb_true_iff, Nat.eqb_eq, forallb_forall.
  intros [H1 H2]. split; [exact H1|]. apply Forall_forall.
  intros row Hr. apply Nat.eqb_eq, H2, Hr.
Qed.

Lemma wfb_sound g : wfb g = true -> wf g.
Proof.
  unfold wfb, wf. rewrite !andb_true_iff, !Z.ltb_lt, forallb_forall.
  intros ((((H1 & H2) & H3) & H4) & H5).
  split; [exact H1|]. split; [exact H2|].
  split; [apply shapedb_sound; exact H3|]. split; [apply shapedb_sound; exact H4|].
  apply Forall_forall. exact H5.
Qed.

(** ** C3: what a flood reveals *)

(** C3 (amended).  A call of [_reveal_recursive] at [(r, c)] reveals exactly
    the flood region of [(r, c)]: the target if it is a Hidden non-mine cell,
    and, repeatedly, every Hidden non-mine neighbour of a region cell of
    value 0.  Non-zero cells of the region are revealed but not expanded;
    every other cell (in particular every Flagged or already Revealed cell,
    even one of value 0) keeps its state, and no other field but
    [cells_revealed] changes. *)
Theorem flood_reveal_exact f g r c h :
  wf g -> reveal_recursive f g r c = Some h ->
  same_frame g h /\
  forall x1 x2, in_bounds g x1 x2 = true ->
    ((get_cell_state g x1 x2 = Some HIDDEN /\ get_cell_state h x1 x2 = Some REVEALED)
       <-> flood_region g (r, c) (x1, x2)) /\
    (~ flood_region g (r, c) (x1, x2) -> get_cell_state h x1 x2 = get_cell_state g x1 x2).
Proof.
  intros Hwf E.
  destruct (reveal_recursive_spec f g r c h Hwf E) as (M & _ & _ & Rg).
  pose proof M as (F & _ & P & _).
  split; [exact F|]. intros x1 x2 Hb. apply in_bounds_true in Hb as Hb'.
  split.
  - split.
    + intros [H1 H2]. apply Rg. repeat split; auto.
    + intros Hx. destruct (flood_region_facts _ _ _ Hx) as (_ & Hh & _).
      split; [exact Hh|].
      exact (flood_region_revealed f g (r, c) (x1, x2) h Hwf E Hx).
  - intros Hn. destruct (P x1 x2) as [E1|(E1 & E2 & _)]; try lia; [exact E1|].
    exfalso. apply Hn, Rg. repeat split; auto.
Qed.

(** C3: a Flagged 0-valued neighbour of a 0-valued first click stays Flagged:
    it is reachable through a chain of 0-valued cells but is not revealed. *)
Lemma flood_leaves_flagged_zero_cell :
  sample_ok (available_cells (init BEGINNER) 0 0) 10 corner_draw = true /\
  match run (init BEGINNER) flag_then_open with
  | Some g' =>
      get_cell_value g' 0 0 = Some 0 /\ get_cell_value g' 0 1 = Some 0 /\
      mem (0, 1) (get_neighbors g' 0 0) = true /\ is_mine g' 0 0 = false /\
      get_cell_state g' 0 0 = Some REVEALED /\
      get_cell_state g' 0 1 = Some FLAGGED
  | None => False
  end.
Proof. vm_compute. repeat split. Qed.

Lemma flood_reveal_exact_witness :
  match reveal_recursive (reveal_fuel demo_start) demo_start 7 7 with
  | Some h =>
      same_frame demo_start h /\
      forall x1 x2, in_bounds demo_start x1 x2 = true ->
        ((get_cell_state demo_start x1 x2 = Some HIDDEN /\ get_cell_state h x1 x2 = Some REVEALED)
           <-> flood_region demo_start (7, 7) (x1, x2)) /\
        (~ flood_region demo_start (7, 7) (x1, x2) ->
         get_cell_state h x1 x2 = get_cell_state demo_start x1 x2)
  | None => False
  end.
Proof.
  destruct (reveal_recursive (reveal_fuel demo_start) demo_start 7 7) as [h|] eqn:E.
  - apply (flood_reveal_exact (reveal_fuel demo_start) demo_start 7 7 h).
    + apply wfb_sound. vm_compute. reflexivity.
    + exact E.
  - vm_compute in E. discriminate.
Defined.

(** ** C4: termination and bounds of the flood *)

(** C4 (amended).  On the boards of the three difficulties (at most
    16*30 = 480 cells), [_reveal_recursive] terminates with a nesting depth
    of at most one more than the number of Hidden cells, so at most 481
    nested calls, below CPython's default recursion limit of 1000 (the
    budget [rows*cols + 1] that [reveal_cell] uses suffices, with the same
    result); it only turns in-bounds Hidden non-mine cells into Revealed
    ones, keeps every other field but [cells_revealed], and increases
    [cells_revealed] by exactly the number of newly revealed cells, between
    0 and [rows*cols].  It is a direct recursion, not a worklist loop. *)
Theorem flood_reveal_bounded g r c :
  wf g -> dims_ok g ->
  (S (count_state g HIDDEN) <= 481)%nat /\
  exists h,
    reveal_recursive (S (count_state g HIDDEN)) g r c = Some h /\
    reveal_recursive (reveal_fuel g) g r c = Some h /\
    same_frame g h /\ shaped (rows g) (cols g) (cell_states h) /\
    (forall x1 x2, 0 <= x1 -> 0 <= x2 ->
       get_cell_state h x1 x2 <> get_cell_state g x1 x2 ->
       in_bounds g x1 x2 = true /\ get_cell_state g x1 x2 = Some HIDDEN /\
       get_cell_state h x1 x2 = Some REVEALED /\ is_mine g x1 x2 = false) /\
    cells_revealed h - cells_revealed g
    = Z.of_nat (count_state h REVEALED) - Z.of_nat (count_state g REVEALED) /\
    0 <= cells_revealed h - cells_revealed g <= rows g * cols g.
Proof.
  intros Hwf Hdims. split.
  { pose proof (count_state_le g HIDDEN Hwf) as Hc. destruct Hdims as [dd Hd].
    destruct dd; cbn in Hd; injection Hd as A B _; rewrite <- A, <- B in Hc; cbn in Hc; lia. }
  destruct (reveal_recursive_total (count_state g HIDDEN) g r c Hwf (le_n _)) as [h E].
  exists h. split; [exact E|].
  split.
  { eapply reveal_recursive_fuel_mono; [|exact E].
    unfold reveal_fuel. pose proof (count_state_le g HIDDEN Hwf). lia. }
  destruct (reveal_recursive_spec _ g r c h Hwf E) as (M & _).
  pose proof M as (F & S & P & C & D & R).
  split; [exact F|]. split; [exact S|].
  split.
  { intros x1 x2 H1 H2 Hne. destruct (P x1 x2 H1 H2) as [E1|(E1 & E2 & E3)]; [congruence|].
    repeat split; auto. eapply wf_get_state_bounds; eauto. }
  split; [exact R|].
  assert (Wh : wf h) by eauto using flood_mono_wf.
  pose proof (count_state_le h REVEALED Wh) as Hle.
  pose proof F as (Hr & Hc & _).
  rewrite Hr, Hc in Hle. pose proof Hwf as (Hr0 & Hc0 & _).
  rewrite Z2Nat.inj_mul in Hle by lia. rewrite R. nia.
Qed.

(** C4: the flood started by the demo's first click on (7, 7) does not fit
    in two nested calls of [_reveal_recursive], but completes within the
    budget of [reveal_cell]: its calls nest, it is a recursion and not a
    worklist.  This holds in every order the neighbour set is iterated: the
    first neighbour of (7, 7) the loop visits, whichever it is, is still
    Hidden, is no mine and has no adjacent mine (rows 5 to 7 of this board
    touch no mine), so it calls [_reveal_recursive] once more, a third
    nested call. *)
Lemma flood_reveal_nesting_depth :
  reveal_recursive 2 demo_start 7 7 = None /\
  reveal_recursive (reveal_fuel demo_start) demo_start 7 7 <> None.
Proof. vm_compute. split; [reflexivity|discriminate]. Qed.

Lemma flood_reveal_bounded_witness :
  dims_ok demo_start /\
  (S (count_state demo_start HIDDEN) <= 481)%nat /\
  exists h,
    reveal_recursive (S (count_state demo_start HIDDEN)) demo_start 7 7 = Some h /\
    reveal_recursive (reveal_fuel demo_start) demo_start 7 7 = Some h /\
    same_frame demo_start h /\ shaped (rows demo_start) (cols demo_start) (cell_states h) /\
    (forall x1 x2, 0 <= x1 -> 0 <= x2 ->
       get_cell_state h x1 x2 <> get_cell_state demo_start x1 x2 ->
       in_bounds demo_start x1 x2 = true /\ get_cell_state demo_start x1 x2 = Some HIDDEN /\
       get_cell_state h x1 x2 = Some REVEALED /\ is_mine demo_start x1 x2 = false) /\
    cells_revealed h - cells_revealed demo_start
    = Z.of_nat (count_state h REVEALED) - Z.of_nat (count_state demo_start REVEALED) /\
    0 <= cells_revealed h - cells_revealed demo_start <= rows demo_start * cols demo_start.
Proof.
  assert (Hd : dims_ok demo_start) by (exists BEGINNER; vm_compute; reflexivity).
  split; [exact Hd|].
  apply (flood_reveal_bounded demo_start 7 7); [|exact Hd].
  apply wfb_sound. vm_compute. reflexivity.
Defined.

(** ** Membership lemmas *)

Lemma cell_eqb_true x y : cell_eqb x y = true <-> x = y.
Proof.
  destruct x as [a b], y as [c d]. unfold cell_eqb; simpl.
  rewrite andb_true_iff, !Z.eqb_eq. split; [intros [-> ->]; reflexivity|].
  intros H; inversion H; auto.
Qed.

Lemma mem_true x l : mem x l = true <-> In x l.
Proof.
  unfold mem. rewrite existsb_exists. split.
  - intros (y & Hy & E). apply cell_eqb_true in E. subst. exact Hy.
  - intros H. exists x. split; [exact H|]. apply cell_eqb_true. reflexivity.
Qed.

Lemma mem_false x l : mem x l = false <-> ~ In x l.
Proof. rewrite <- mem_true. destruct (mem x l); split; congruence. Qed.

Lemma py_set_In x l : In x (py_set l) <-> In x l.
Proof.
  induction l as [|y l IH]; simpl; [tauto|].
  destruct (mem y l) eqn:E; simpl; rewrite IH; [|tauto].
  apply mem_true in E. split; [tauto|]. intros [<-|H]; auto.
Qed.

Lemma py_set_NoDup l : NoDup (py_set l).
Proof.
  induction l as [|y l IH]; simpl; [constructor|].
  destruct (mem y l) eqn:E; [exact IH|].
  constructor; [|exact IH]. rewrite py_set_In. apply mem_false. exact E.
Qed.

Lemma py_set_nodup l : NoDup l -> py_set l = l.
Proof.
  induction 1 as [|x l Hx _ IH]; simpl; [reflexivity|].
  apply mem_false in Hx. rewrite Hx, IH. reflexivity.
Qed.

Lemma nodupb_NoDup l : nodupb l = true -> NoDup l.
Proof.
  induction l as [|x l IH]; simpl; [constructor|].
  rewrite andb_true_iff, negb_true_iff, mem_false. intros [H1 H2].
  constructor; auto.
Qed.

Lemma zrange_In z n : In z (zrange n) <-> 0 <= z < n.
Proof.
  unfold zrange. rewrite in_map_iff. split.
  - intros (k & <- & Hk). apply in_seq in Hk. lia.
  - intros H. exists (Z.to_nat z). split; [lia|]. apply in_seq. lia.
Qed.

Lemma all_cells_In r c rs cs : In (r, c) (all_cells rs cs) <-> 0 <= r < rs /\ 0 <= c < cs.
Proof.
  unfold all_cells. rewrite in_flat_map. split.
  - intros (r' & Hr & Hc). apply in_map_iff in Hc as (c' & E & Hc).
    inversion E; subst. rewrite zrange_In in Hr, Hc. lia.
  - intros [Hr Hc]. exists r. rewrite zrange_In. split; [exact Hr|].
    apply in_map_iff. exists c. rewrite zrange_In. auto.
Qed.

Lemma hidden_neighbors_In g r c y :
  In y (hidden_neighbors g r c) <->
  In y (get_neighbors g r c) /\ get_cell_state g (fst y) (snd y) = Some HIDDEN.
Proof. unfold hidden_neighbors, is_hidden. rewrite filter_In, state_is_true. tauto. Qed.

(** ** C6: the constraint pass *)

(** C6.  [find_certain_mines] returns, without duplicates, exactly the
    Hidden neighbours of the Revealed cells [c] with
    [len(hidden(c)) == effective(c) > 0]; [find_certain_safe] returns,
    without duplicates, exactly the Hidden neighbours of the Revealed cells
    with [effective(c) == 0] and a non-empty [hidden(c)].  [hidden(c)] is the
    list of Hidden neighbours of [c] and [effective(c)] its value minus its
    Flagged neighbours. *)
Theorem certain_mines_safe_exact g :
  NoDup (find_certain_mines g) /\ NoDup (find_certain_safe g) /\
  (forall r c y, In y (hidden_neighbors g r c) <->
     In y (get_neighbors g r c) /\ get_cell_state g (fst y) (snd y) = Some HIDDEN) /\
  (forall r c, get_cell_state g r c = Some REVEALED ->
     get_effective_value g r c =
     match get_cell_value g r c with Some v => v | None => 0 end
     - Z.of_nat (length (filter (fun y => is_flagged g (fst y) (snd y)) (get_neighbors g r c)))) /\
  (forall x, In x (find_certain_mines g) <->
     exists r c, in_bounds g r c = true /\ get_cell_state g r c = Some REVEALED /\
       Z.of_nat (length (hidden_neighbors g r c)) = get_effective_value g r c /\
       0 < get_effective_value g r c /\ In x (hidden_neighbors g r c)) /\
  (forall x, In x (find_certain_safe g) <->
     exists r c, in_bounds g r c = true /\ get_cell_state g r c = Some REVEALED /\
       get_effective_value g r c = 0 /\ hidden_neighbors g r c <> [] /\
       In x (hidden_neighbors g r c)).
Proof.
  split; [apply py_set_NoDup|]. split; [apply py_set_NoDup|].
  split; [intros; apply hidden_neighbors_In|].
  split.
  { intros r c H. unfold get_effective_value, is_revealed.
    replace (state_is g r c REVEALED) with true by (symmetry; apply state_is_true; exact H).
    reflexivity. }
  split.
  - intros x. unfold find_certain_mines. rewrite py_set_In, in_flat_map. split.
    + intros ([r c] & Hrc & Hx). apply all_cells_In in Hrc.
      destruct (is_revealed g r c) eqn:Er; simpl in Hx; [|destruct Hx].
      destruct ((Z.of_nat (length (hidden_neighbors g r c)) =? get_effective_value g r c)
                && (0 <? get_effective_value g r c)) eqn:Ec; [|destruct Hx].
      apply andb_true_iff in Ec as [E1 E2]. apply Z.eqb_eq in E1. apply Z.ltb_lt in E2.
      exists r, c. split; [apply in_bounds_true; exact Hrc|].
      split; [apply state_is_true; exact Er|]. auto.
    + intros (r & c & Hb & Hr & E1 & E2 & Hx). exists (r, c).
      split; [apply all_cells_In, in_bounds_true; exact Hb|].
      unfold is_revealed. rewrite (proj2 (state_is_true g r c REVEALED) Hr). simpl.
      rewrite E1, Z.eqb_refl. simpl. replace (0 <? get_effective_value g r c) with true
        by (symmetry; apply Z.ltb_lt; exact E2). exact Hx.
  - intros x. unfold find_certain_safe. rewrite py_set_In, in_flat_map. split.
    + intros ([r c] & Hrc & Hx). apply all_cells_In in Hrc.
      destruct (is_revealed g r c) eqn:Er; simpl in Hx; [|destruct Hx].
      destruct (get_effective_value g r c =? 0) eqn:E1; simpl in Hx; [|destruct Hx].
      destruct (hidden_neighbors g r c) as [|h0 t] eqn:Eh; simpl in Hx; [destruct Hx|].
      apply Z.eqb_eq in E1.
      exists r, c. split; [apply in_bounds_true; exact Hrc|].
      split; [apply state_is_true; exact Er|]. rewrite Eh. split; [exact E1|].
      split; [discriminate|exact Hx].
    + intros (r & c & Hb & Hr & E1 & E2 & Hx). exists (r, c).
      split; [apply all_cells_In, in_bounds_true; exact Hb|].
      unfold is_revealed. rewrite (proj2 (state_is_true g r c REVEALED) Hr). simpl.
      rewrite E1. simpl. destruct (hidden_neighbors g r c); [congruence|exact Hx].
Qed.

(** ** The agent's targets are in-bounds Hidden cells *)

Lemma is_hidden_true g r c : is_hidden g r c = true <-> get_cell_state g r c = Some HIDDEN.
Proof. apply state_is_true. Qed.

Ltac split_bools :=
  repeat match goal with
  | H : (_ && _) = true |- _ => apply andb_true_iff in H; destruct H
  | H : (_ <? _) = true |- _ => apply Z.ltb_lt in H
  | H : (_ <=? _) = true |- _ => apply Z.leb_le in H
  | H : (_ =? _) = true |- _ => apply Z.eqb_eq in H
  end.

Ltac cells_tac :=
  repeat match goal with
  | H : In _ (_ ++ _) |- _ => apply in_app_iff in H; destruct H as [H|H]
  | H : In _ [] |- _ => destruct H
  | H : In _ [_] |- _ => destruct H as [<-|[]]
  | H : _ = _ \/ False |- _ => destruct H as [<-|[]]
  | H : False |- _ => destruct H
  | H : In _ ?l |- _ =>
      match l with context [if ?b then _ else _] => destruct b eqn:?; simpl in H end
  end;
  (split_bools; simpl; split; [apply in_bounds_true; lia | assumption]).

Lemma find_certain_mines_targets g x :
  In x (find_certain_mines g) ->
  in_bounds g (fst x) (snd x) = true /\ is_hidden g (fst x) (snd x) = true.
Proof.
  unfold find_certain_mines. rewrite py_set_In, in_flat_map.
  intros ([r c] & _ & Hx).
  destruct (negb (is_revealed g r c)); [destruct Hx|].
  destruct (_ && _); [|destruct Hx].
  apply hidden_neighbors_In in Hx as [Hn Hh].
  apply neighbors_in_bounds in Hn. split; [apply in_bounds_true; simpl; lia|].
  apply is_hidden_true. exact Hh.
Qed.

Lemma find_certain_safe_targets g x :
  In x (find_certain_safe g) ->
  in_bounds g (fst x) (snd x) = true /\ is_hidden g (fst x) (snd x) = true.
Proof.
  unfold find_certain_safe. rewrite py_set_In, in_flat_map.
  intros ([r c] & _ & Hx).
  destruct (negb (is_revealed g r c)); [destruct Hx|].
  destruct (_ && _); [|destruct Hx].
  apply hidden_neighbors_In in Hx as [Hn Hh].
  apply neighbors_in_bounds in Hn. split; [apply in_bounds_true; simpl; lia|].
  apply is_hidden_true. exact Hh.
Qed.

Lemma check_1_2_1_targets g x :
  In x (check_1_2_1_pattern g) ->
  in_bounds g (fst x) (snd x) = true /\ is_hidden g (fst x) (snd x) = true.
Proof.
  unfold check_1_2_1_pattern. rewrite py_set_In, in_app_iff, !in_flat_map.
  intros [([r c] & Hrc & Hx) | ([r c] & Hrc & Hx)];
    apply all_cells_In in Hrc; cells_tac.
Qed.

Lemma check_1_2_targets g x :
  (In x (fst (check_1_2_pattern g)) \/ In x (snd (check_1_2_pattern g))) ->
  in_bounds g (fst x) (snd x) = true /\ is_hidden g (fst x) (snd x) = true.
Proof.
  unfold check_1_2_pattern. simpl. rewrite !py_set_In, !in_app_iff, !in_flat_map.
  intros [[(p & Hp & Hx) | (p & Hp & Hx)] | [(p & Hp & Hx) | (p & Hp & Hx)]];
    apply in_map_iff in Hp as ([r c] & <- & Hrc); apply all_cells_In in Hrc;
    simpl in Hx; unfold check_1_2_horizontal_at, check_1_2_vertical_at in Hx; cells_tac.
Qed.

Lemma check_1_1_targets g x :
  In x (check_1_1_pattern g) ->
  in_bounds g (fst x) (snd x) = true /\ is_hidden g (fst x) (snd x) = true.
Proof.
  unfold check_1_1_pattern. rewrite py_set_In, !in_app_iff, !in_flat_map.
  intros [(r & Hr & Hx) | [(r & Hr & Hx) | [(r & Hr & Hx) | (r & Hr & Hx)]]];
    apply zrange_In in Hr; cells_tac.
Qed.

Lemma guess_fold (L l : list (Z * Z)) (f : option (Z * Z) * Z -> Z * Z -> option (Z * Z) * Z) b m :
  (forall b m x, (exists k, 0 <= k /\ f (b, m) x = (Some x, k)) \/
                 (f (b, m) x = (b, m) /\ 0 <= m)) ->
  incl l L -> (forall x, b = Some x -> In x L) -> (b = None -> m = -1) ->
  (forall x, fst (fold_left f l (b, m)) = Some x -> In x L) /\
  (fst (fold_left f l (b, m)) = None -> l = [] /\ b = None).
Proof.
  intros Hf. revert b m. induction l as [|x t IH]; intros b m Hl Hb Hm; simpl.
  - split; [exact Hb|]. auto.
  - destruct (Hf b m x) as [(k & Hk & E) | (E & Hm0)]; rewrite E.
    + destruct (IH (Some x) k) as [H1 H2].
      * intros y Hy. apply Hl. right. exact Hy.
      * intros y Hy. injection Hy as <-. apply Hl. left. reflexivity.
      * discriminate.
      * split; [exact H1|]. intros Hn. destruct (H2 Hn) as [_ Hc]. discriminate.
    + destruct (IH b m) as [H1 H2]; auto.
      * intros y Hy. apply Hl. right. exact Hy.
      * split; [exact H1|]. intros Hn. destruct (H2 Hn) as [_ Hc].
        specialize (Hm Hc). lia.
Qed.

Lemma make_educated_guess_spec g rnd :
  (forall k r c, make_educated_guess g rnd = Some (k, r, c) ->
     in_bounds g r c = true /\ is_hidden g r c = true) /\
  (make_educated_guess g rnd = None ->
     forall r c, in_bounds g r c = true -> is_hidden g r c = false).
Proof.
  unfold make_educated_guess.
  assert (Hhc : forall x, In x (filter (fun x => is_hidden g (fst x) (snd x))
                                   (all_cells (rows g) (cols g))) ->
                  in_bounds g (fst x) (snd x) = true /\ is_hidden g (fst x) (snd x) = true).
  { intros [r c] Hx. apply filter_In in Hx as [Hx Hh]. apply all_cells_In in Hx.
    split; [apply in_bounds_true; exact Hx | exact Hh]. }
  destruct (filter (fun x => is_hidden g (fst x) (snd x)) (all_cells (rows g) (cols g)))
    as [|h t] eqn:Ehc.
  - split; [discriminate|]. intros _ r c Hb.
    destruct (is_hidden g r c) eqn:E; [|reflexivity]. exfalso.
    assert (Hin : In (r, c) (filter (fun x => is_hidden g (fst x) (snd x))
                                    (all_cells (rows g) (cols g)))).
    { apply filter_In. split; [apply all_cells_In, in_bounds_true; exact Hb | exact E]. }
    rewrite Ehc in Hin. destruct Hin.
  - match goal with |- context [fold_left ?f (h :: t) (None, -1)] =>
      pose proof (guess_fold (h :: t) (h :: t) f None (-1)) as G;
      revert G; destruct (fold_left f (h :: t) (None, -1)) as [b m]; intros G end.
    simpl in G. destruct G as [G1 G2].
    { intros b0 m0 x0. simpl.
      destruct (m0 <? _) eqn:E.
      - left. eexists. split; [|reflexivity]. lia.
      - right. apply Z.ltb_ge in E. split; [reflexivity | lia]. }
    { intros y Hy. exact Hy. }
    { discriminate. }
    { reflexivity. }
    split.
    + intros k r c H. destruct (m =? 0).
      * destruct (find _ _) as [[r0 c0]|] eqn:Efind.
        -- injection H as <- <- <-. apply find_some in Efind as [_ Hm].
           apply mem_true in Hm. exact (Hhc _ Hm).
        -- destruct (nth _ (h :: t) (0, 0)) as [r0 c0] eqn:En.
           injection H as <- <- <-.
           apply (f_equal (fun x => In x (h :: t))) in En.
           assert (Hn : In (r0, c0) (h :: t)).
           { rewrite <- En. apply nth_In. apply Nat.mod_upper_bound. simpl. lia. }
           exact (Hhc _ Hn).
      * destruct b as [[r0 c0]|]; [|discriminate].
        injection H as <- <- <-. exact (Hhc _ (G1 _ eq_refl)).
    + intros H. exfalso. destruct (m =? 0).
      * destruct (find _ _) as [[r0 c0]|]; [discriminate|].
        destruct (nth _ (h :: t) (0, 0)) as [r0 c0]. discriminate.
      * destruct b as [[r0 c0]|]; [discriminate|].
        destruct (G2 eq_refl) as [Hc _]. discriminate.
Qed.

Lemma target_state g r c :
  in_bounds g r c = true /\ is_hidden g r c = true ->
  get_cell_state g r c = Some HIDDEN /\ in_bounds g r c = true.
Proof. intros [Hb Hh]. split; [apply is_hidden_true; exact Hh | exact Hb]. Qed.

Lemma choose_action_some_target g rnd k r c :
  choose_action g rnd = Some (k, r, c) ->
  in_bounds g r c = true /\ is_hidden g r c = true.
Proof.
  unfold choose_action. cbv beta zeta. intros H.
  set (hid := fun x : Z * Z => is_hidden g (fst x) (snd x)) in H.
  destruct (find hid (find_certain_mines g)) as [[r0 c0]|] eqn:E1.
  { injection H as <- <- <-. apply find_some in E1 as [Hin _].
    exact (find_certain_mines_targets g _ Hin). }
  destruct (find_certain_safe g) as [|[r0 c0] l0] eqn:E2.
  2: { injection H as <- <- <-. apply (find_certain_safe_targets g (r0, c0)).
       rewrite E2. left. reflexivity. }
  destruct (find hid (check_1_2_1_pattern g)) as [[r0 c0]|] eqn:E3.
  { injection H as <- <- <-. apply find_some in E3 as [Hin _].
    exact (check_1_2_1_targets g _ Hin). }
  pose proof (check_1_2_targets g) as T12.
  destruct (check_1_2_pattern g) as [pm ps]. simpl in T12.
  destruct (find hid pm) as [[r0 c0]|] eqn:E4.
  { injection H as <- <- <-. apply find_some in E4 as [Hin _].
    exact (T12 _ (or_introl Hin)). }
  destruct ps as [|[r0 c0] l0];
    [| destruct (is_hidden g r0 c0) eqn:Eh;
       [injection H as <- <- <-; exact (T12 (r0, c0) (or_intror (or_introl eq_refl))) |]].
  all: destruct (check_1_1_pattern g) as [|[r1 c1] l1] eqn:E5;
         [ exact (proj1 (make_educated_guess_spec g rnd) _ _ _ H)
         | injection H as <- <- <-; apply (check_1_1_targets g (r1, c1));
           rewrite E5; left; reflexivity ].
Qed.

(** ** C8: the action selector *)

(** C8.  Whenever [choose_action] returns an action (['flag'] or
    ['reveal'], from any of its steps or from the guess), the target is an
    in-bounds cell whose current state is Hidden; and it returns no action
    exactly when no in-bounds cell is Hidden.  The random choice of the guess
    is the injected index [rnd]. *)
Theorem choose_action_targets_hidden g rnd :
  (forall k r c, choose_action g rnd = Some (k, r, c) ->
     get_cell_state g r c = Some HIDDEN /\ in_bounds g r c = true) /\
  (choose_action g rnd = None <->
     forall r c, in_bounds g r c = true -> get_cell_state g r c <> Some HIDDEN).
Proof.
  split.
  { intros k r c H. apply target_state. exact (choose_action_some_target g rnd k r c H). }
  split.
  - intros H r c Hb Hh. apply is_hidden_true in Hh.
    assert (Hg : make_educated_guess g rnd = None).
    { revert H. unfold choose_action. cbv beta zeta.
      set (hid := fun x : Z * Z => is_hidden g (fst x) (snd x)).
      destruct (find hid (find_certain_mines g)) as [[r0 c0]|]; [discriminate|].
      destruct (find_certain_safe g) as [|[r0 c0] l0]; [|discriminate].
      destruct (find hid (check_1_2_1_pattern g)) as [[r0 c0]|]; [discriminate|].
      destruct (check_1_2_pattern g) as [pm ps].
      destruct (find hid pm) as [[r0 c0]|]; [discriminate|].
      destruct ps as [|[r0 c0] l0]; [| destruct (is_hidden g r0 c0); [discriminate|]].
      all: destruct (check_1_1_pattern g) as [|[r1 c1] l1]; [exact (fun H => H) | discriminate]. }
    rewrite (proj2 (make_educated_guess_spec g rnd) Hg r c Hb) in Hh. discriminate.
  - intros H. destruct (choose_action g rnd) as [[[k r] c]|] eqn:E; [|reflexivity].
    exfalso. destruct (choose_action_some_target g rnd k r c E) as [Hb Hh].
    apply (H r c Hb). apply is_hidden_true. exact Hh.
Qed.

(** ** Python indexing in the read accessors *)

Lemma mod_neg_wrap i n : - n <= i < 0 -> i mod n = i + n.
Proof.
  intros H. rewrite <- (Z.mod_add i 1 n) by lia. rewrite Z.mul_1_l. apply Z.mod_small. lia.
Qed.

Lemma py_index_wrap {A} (l : list A) i :
  - Z.of_nat (length l) <= i < Z.of_nat (length l) ->
  py_index l i = py_index l (i mod Z.of_nat (length l)) /\ exists v, py_index l i = Some v.
Proof.
  intros H. assert (Hm : 0 <= i mod Z.of_nat (length l) < Z.of_nat (length l))
    by (apply Z.mod_pos_bound; lia).
  rewrite (py_index_nonneg l (i mod _)) by lia.
  unfold py_index. destruct (Z.ltb_spec i 0).
  - rewrite mod_neg_wrap by lia. replace (0 <=? Z.of_nat (length l) + i) with true
      by (symmetry; apply Z.leb_le; lia).
    split; [f_equal; f_equal; lia|].
    destruct (nth_error l (Z.to_nat (Z.of_nat (length l) + i))) as [v|] eqn:E; [eauto|].
    apply nth_error_None in E. lia.
  - rewrite Z.mod_small by lia. split; [reflexivity|].
    destruct (nth_error l (Z.to_nat i)) as [v|] eqn:E; [eauto|].
    apply nth_error_None in E. lia.
Qed.

Lemma py_index_high {A} (l : list A) i : Z.of_nat (length l) <= i -> py_index l i = None.
Proof.
  intros H. rewrite py_index_nonneg by lia. apply nth_error_None. lia.
Qed.

Lemma py_index_In {A} (l : list A) i v : py_index l i = Some v -> In v l.
Proof.
  unfold py_index. destruct (i <? 0); [destruct (0 <=? _)|]; try discriminate;
    apply nth_error_In.
Qed.

Lemma py_index2_wrap {A} rs cs (gr : list (list A)) r c :
  shaped rs cs gr -> - rs <= r < rs -> - cs <= c < cs ->
  py_index2 gr r c = py_index2 gr (r mod rs) (c mod cs) /\ exists v, py_index2 gr r c = Some v.
Proof.
  intros [Hl Hf] Hr Hc. unfold py_index2.
  assert (Hl' : Z.of_nat (length gr) = rs) by lia.
  destruct (py_index_wrap gr r) as [E [row Hrow]]; [lia|].
  rewrite E, Hl' in *. rewrite Hrow.
  assert (Hrl : Z.of_nat (length row) = cs).
  { apply py_index_In in Hrow. rewrite Forall_forall in Hf. rewrite (Hf _ Hrow). lia. }
  destruct (py_index_wrap row c) as [E2 Hv]; [lia|]. rewrite Hrl in E2.
  split; [exact E2 | exact Hv].
Qed.

Lemma py_index2_high {A} rs cs (gr : list (list A)) r c :
  shaped rs cs gr -> 0 <= rs -> 0 <= cs -> rs <= r \/ cs <= c -> py_index2 gr r c = None.
Proof.
  intros [Hl Hf] Hrs Hcs H. unfold py_index2.
  destruct (py_index gr r) as [row|] eqn:E; [|reflexivity].
  destruct H as [H|H].
  - rewrite py_index_high in E by lia. discriminate.
  - apply py_index_In in E. rewrite Forall_forall in Hf.
    apply py_index_high. rewrite (Hf _ E). lia.
Qed.

Lemma wf_is_mine_out g r c : wf g -> in_bounds g r c = false -> is_mine g r c = false.
Proof.
  intros (_ & _ & _ & _ & Hm) Hb. unfold is_mine.
  destruct (mem (r, c) (mines g)) eqn:E; [|reflexivity].
  apply mem_true in E. rewrite Forall_forall in Hm. specialize (Hm _ E).
  simpl in Hm. congruence.
Qed.

(** ** C10: the read accessors *)

(** C10.  On a well-formed board, [get_cell_state] and [get_cell_value]
    do no bounds check: a coordinate in [[-rows, rows)] x [[-cols, cols)] is
    read as Python reads it, a negative component counting from the opposite
    edge (the cell at [(r mod rows, c mod cols)]), and always yields a
    value; a component [>= rows] or [>= cols] raises IndexError ([None]).
    [is_mine] returns false for every out-of-bounds coordinate. *)
Theorem accessors_python_indexing g :
  wf g ->
  (forall r c, - rows g <= r < rows g -> - cols g <= c < cols g ->
     get_cell_state g r c = get_cell_state g (r mod rows g) (c mod cols g) /\
     get_cell_value g r c = get_cell_value g (r mod rows g) (c mod cols g) /\
     (exists s, get_cell_state g r c = Some s) /\ (exists v, get_cell_value g r c = Some v)) /\
  (forall r c, rows g <= r \/ cols g <= c ->
     get_cell_state g r c = None /\ get_cell_value g r c = None) /\
  (forall r c, in_bounds g r c = false -> is_mine g r c = false).
Proof.
  intros Hwf. pose proof Hwf as (Hr & Hc & Hb & Hs & _). split; [|split].
  - intros r c H1 H2. unfold get_cell_state, get_cell_value.
    destruct (py_index2_wrap _ _ _ r c Hs H1 H2) as [E1 V1].
    destruct (py_index2_wrap _ _ _ r c Hb H1 H2) as [E2 V2]. auto.
  - intros r c H. unfold get_cell_state, get_cell_value.
    split; apply (py_index2_high (rows g) (cols g)); auto; lia.
  - intros r c H. apply wf_is_mine_out; assumption.
Qed.

Lemma accessors_python_indexing_witness :
  wf demo_start /\
  get_cell_state demo_start (-1) (-1) = get_cell_state demo_start 7 7 /\
  get_cell_value demo_start (-8) 3 = get_cell_value demo_start 0 3 /\
  get_cell_value demo_start 8 0 = None /\
  is_mine demo_start (-1) 2 = false.
Proof.
  assert (W : wf demo_start) by (apply wfb_sound; vm_compute; reflexivity).
  destruct (accessors_python_indexing demo_start W) as (H1 & H2 & H3).
  assert (Er : rows demo_start = 8) by (vm_compute; reflexivity).
  assert (Ec : cols demo_start = 8) by (vm_compute; reflexivity).
  split; [exact W|]. split; [|split; [|split]].
  - destruct (H1 (-1) (-1)) as (E & _); [lia | lia |]. rewrite E, Er, Ec. reflexivity.
  - destruct (H1 (-8) 3) as (_ & E & _); [lia | lia |]. rewrite E, Er, Ec. reflexivity.
  - destruct (H2 8 0) as (_ & E); [lia|]. exact E.
  - apply H3. vm_compute. reflexivity.
Defined.

(** ** Mine generation *)

Lemma neighbors_in_complete rs cs r c y :
  0 <= fst y < rs -> 0 <= snd y < cs -> y <> (r, c) ->
  Z.abs (fst y - r) <= 1 -> Z.abs (snd y - c) <= 1 -> In y (neighbors_in rs cs r c).
Proof.
  destruct y as [a b]. simpl. intros Ha Hb Hne Hr Hc.
  unfold neighbors_in. apply in_flat_map. exists (a - r). split; [simpl; lia|].
  apply in_flat_map. exists (b - c). split; [simpl; lia|]. cbv beta zeta.
  destruct ((a - r =? 0) && (b - c =? 0)) eqn:E.
  { split_bools. exfalso. apply Hne. f_equal; lia. }
  replace (r + (a - r)) with a by lia. replace (c + (b - c)) with b by lia.
  replace ((0 <=? a) && (a <? rs) && (0 <=? b) && (b <? cs)) with true
    by (symmetry; rewrite !andb_true_iff, !Z.leb_le, !Z.ltb_lt; lia).
  left. reflexivity.
Qed.

Lemma mem_cons x y t : mem x (y :: t) = cell_eqb x y || mem x t.
Proof. reflexivity. Qed.

Lemma fill_fold_spec (m : list cell) (f : Z -> Z -> Z) l b r c :
  0 <= r -> 0 <= c -> (forall x, In x l -> 0 <= fst x /\ 0 <= snd x) ->
  py_index2 (fold_left (fun b rc => if mem rc m then b
                                    else grid_set b (fst rc) (snd rc) (f (fst rc) (snd rc))) l b) r c =
  if mem (r, c) l && negb (mem (r, c) m) then option_map (fun _ => f r c) (py_index2 b r c)
  else py_index2 b r c.
Proof.
  intros Hr Hc. revert b. induction l as [|[a e] t IH]; intros b Hl; [reflexivity|].
  simpl fold_left. rewrite IH by (intros x Hx; apply Hl; right; exact Hx).
  destruct (Hl (a, e) (or_introl eq_refl)) as [Ha He]. simpl in Ha, He.
  rewrite mem_cons.
  destruct (cell_eqb (r, c) (a, e)) eqn:Ec.
  - apply cell_eqb_true in Ec. injection Ec as <- <-.
    destruct (mem (r, c) m); simpl; [rewrite andb_false_r; reflexivity|].
    rewrite andb_true_r. rewrite py_index2_grid_set by assumption.
    rewrite !Z.eqb_refl. simpl.
    destruct (mem (r, c) t); [|reflexivity].
    destruct (py_index2 b r c); reflexivity.
  - simpl. destruct (mem (a, e) m); [reflexivity|].
    rewrite !py_index2_grid_set by assumption.
    replace ((a =? r) && (e =? c)) with false; [reflexivity|].
    symmetry. unfold cell_eqb in Ec. simpl in Ec.
    rewrite (Z.eqb_sym a r), (Z.eqb_sym e c). exact Ec.
Qed.

(** ** C5: mine generation *)

(** C5.  For a well-formed board, an in-bounds first click [(r, c)] and a
    draw satisfying the contract of [random.sample] on the available cells,
    [_generate_mines] succeeds; the mine set has no duplicates and exactly
    [num_mines] elements, all in bounds and outside the excluded zone (the
    clicked cell and its neighbours: each mine is more than one row or more
    than one column away from the click); and every in-bounds non-mine cell
    holds the number of mines among its neighbours. *)
Theorem generate_mines_spec g r c d :
  wf g -> in_bounds g r c = true ->
  sample_ok (available_cells g r c) (num_mines g) d = true ->
  exists g1, generate_mines g r c d = Some g1 /\
    NoDup (mines g1) /\ Z.of_nat (length (mines g1)) = num_mines g /\
    (forall m, In m (mines g1) ->
       in_bounds g (fst m) (snd m) = true /\ m <> (r, c) /\ ~ In m (get_neighbors g r c) /\
       (1 < Z.abs (fst m - r) \/ 1 < Z.abs (snd m - c))) /\
    (forall r' c', in_bounds g r' c' = true -> is_mine g1 r' c' = false ->
       get_cell_value g1 r' c' =
       Some (Z.of_nat (length (filter (fun y => is_mine g1 (fst y) (snd y))
                                      (get_neighbors g1 r' c'))))).
Proof.
  intros Hwf Hb Hs. unfold sample_ok in Hs.
  apply andb_true_iff in Hs as [Hs Hpop]. apply andb_true_iff in Hs as [Hnd Hk].
  apply nodupb_NoDup in Hnd. apply Z.eqb_eq in Hk.
  rewrite forallb_forall in Hpop.
  assert (Hd : forall m, In m d -> In m (available_cells g r c))
    by (intros m Hm; apply mem_true, Hpop, Hm).
  assert (Hlen : (length d <= length (available_cells g r c))%nat).
  { apply NoDup_incl_length; [exact Hnd | intros m Hm; apply Hd, Hm]. }
  unfold generate_mines.
  replace ((num_mines g <? 0) || (Z.of_nat (length (available_cells g r c)) <? num_mines g))
    with false by (symmetry; apply orb_false_iff; split; apply Z.ltb_ge; lia).
  eexists. split; [reflexivity|]. simpl. rewrite (py_set_nodup d Hnd).
  split; [exact Hnd|]. split; [lia|]. split.
  - intros m Hm. apply Hd in Hm. unfold available_cells in Hm.
    apply filter_In in Hm as [Hm Hx]. destruct m as [a e].
    apply all_cells_In in Hm. apply negb_true_iff, mem_false in Hx.
    unfold excluded_cells in Hx. rewrite in_app_iff in Hx.
    assert (Hnb : (a, e) <> (r, c)) by (intros E; apply Hx; right; left; symmetry; exact E).
    split; [apply in_bounds_true; exact Hm|]. split; [exact Hnb|].
    split; [intros H; apply Hx; left; exact H|].
    apply in_bounds_true in Hb. simpl.
    destruct (Z_le_gt_dec (Z.abs (a - r)) 1); [|lia].
    destruct (Z_le_gt_dec (Z.abs (e - c)) 1); [|lia].
    exfalso. apply Hx. left. apply neighbors_in_complete; simpl; try exact Hnb; lia.
  - intros r' c' Hb' Hm'. apply in_bounds_true in Hb'.
    unfold get_cell_value, fill_numbers. simpl.
    rewrite (fill_fold_spec d (count_adjacent_mines (set_mines g d))) by
      (lia || (intros [x1 x2] Hx; apply all_cells_In in Hx; simpl; lia)).
    unfold is_mine in Hm'. simpl in Hm'. rewrite Hm'.
    replace (mem (r', c') (all_cells (rows g) (cols g))) with true
      by (symmetry; apply mem_true, all_cells_In; exact Hb').
    destruct Hwf as (_ & _ & Hbd & _).
    destruct (shaped_get _ _ _ r' c' Hbd) as [v Hv]; [lia | lia |].
    rewrite Hv. reflexivity.
Qed.

Lemma generate_mines_spec_witness :
  sample_ok (available_cells (init BEGINNER) 7 7) 10 demo_draw = true /\
  exists g1, generate_mines (init BEGINNER) 7 7 demo_draw = Some g1 /\
    Z.of_nat (length (mines g1)) = 10.
Proof.
  split; [vm_compute; reflexivity|].
  destruct (generate_mines_spec (init BEGINNER) 7 7 demo_draw) as (g1 & E & _ & L & _).
  - apply wfb_sound. vm_compute. reflexivity.
  - reflexivity.
  - vm_compute. reflexivity.
  - exists g1. split; [exact E | exact L].
Defined.

(** ** Outcome of the game *)

Lemma reveal_recursive_frame f :
  forall g r c h, reveal_recursive f g r c = Some h -> same_frame g h.
Proof.
  induction f as [|f IH]; intros g r c h H; [discriminate|].
  cbn [reveal_recursive] in H.
  destruct (negb (in_bounds g r c)); [injection H as <-; apply same_frame_refl|].
  destruct (negb (state_is g r c HIDDEN)); [injection H as <-; apply same_frame_refl|].
  destruct (mem (r, c) (mines g)); [injection H as <-; apply same_frame_refl|].
  set (g1 := set_cells_revealed _ _) in H.
  assert (F1 : same_frame g g1) by (repeat split).
  destruct (value_is_zero g r c); [|injection H as <-; exact F1].
  apply (fold_reveal_ind f (fun _ b => same_frame g b) _ [] g1 h H F1).
  intros pre' x b b' _ Hb Hr. exact (same_frame_trans _ _ _ Hb (IH _ _ _ _ Hr)).
Qed.

Lemma generate_mines_frame g r c d g0 :
  generate_mines g r c d = Some g0 ->
  mines g0 = py_set d /\ rows g0 = rows g /\ cols g0 = cols g /\ num_mines g0 = num_mines g /\
  cell_states g0 = cell_states g /\ game_state g0 = game_state g /\
  cells_revealed g0 = cells_revealed g /\ first_click g0 = first_click g /\
  flags_placed g0 = flags_placed g.
Proof.
  unfold generate_mines. destruct (_ || _); [discriminate|].
  intros H. injection H as <-. repeat split.
Qed.

Lemma toggle_flag_frame g r c :
  let g' := toggle_flag g r c in
  rows g' = rows g /\ cols g' = cols g /\ num_mines g' = num_mines g /\ mines g' = mines g /\
  game_state g' = game_state g /\ cells_revealed g' = cells_revealed g /\
  first_click g' = first_click g.
Proof.
  unfold toggle_flag.
  destruct (is_terminal (game_state g)); [repeat split|].
  destruct (negb (in_bounds g r c)); [repeat split|].
  destruct (state_is g r c REVEALED); [repeat split|].
  destruct (state_is g r c HIDDEN); [repeat split|].
  destruct (state_is g r c FLAGGED); repeat split.
Qed.

Lemma available_excludes_target g r c x :
  In x (available_cells g r c) -> x <> (r, c).
Proof.
  unfold available_cells. rewrite filter_In. intros [_ H] E. subst x.
  apply negb_true_iff, mem_false in H. apply H. unfold excluded_cells.
  apply in_or_app. right. left. reflexivity.
Qed.

Lemma setup_facts g r c d g1 :
  outcome_inv g -> is_terminal (game_state g) = false -> in_bounds g r c = true ->
  valid_action g (Reveal r c d) -> first_click_setup g r c d = Some g1 ->
  rows g1 = rows g /\ cols g1 = cols g /\ num_mines g1 = num_mines g /\
  cell_states g1 = cell_states g /\ cells_revealed g1 = cells_revealed g /\
  game_state g1 <> WON /\ game_state g1 <> LOST /\
  cells_revealed g1 <> rows g1 * cols g1 - num_mines g1 /\
  mem (r, c) (mines g1) = is_mine g r c /\
  (first_click g1 = true -> mines g1 = []).
Proof.
  intros [I1 I2] Ht Hb Hv Hs.
  assert (Hnw : game_state g <> WON) by (intros E; rewrite E in Ht; discriminate).
  assert (Hnl : game_state g <> LOST) by (intros E; rewrite E in Ht; discriminate).
  assert (Hcr : cells_revealed g <> rows g * cols g - num_mines g) by (intros E; apply Hnw, I2, E).
  unfold first_click_setup in Hs. destruct (first_click g) eqn:Ef.
  - destruct (generate_mines g r c d) as [g0|] eqn:Eg; [|discriminate].
    injection Hs as <-. simpl in Hv. specialize (Hv Ef Hb).
    destruct (generate_mines_frame _ _ _ _ _ Eg) as (Em & Er & Ec & En & Es & Eg' & Ecr & _).
    simpl. rewrite Em, Er, Ec, En, Es, Ecr.
    split; [reflexivity|]. split; [reflexivity|]. split; [reflexivity|].
    split; [reflexivity|]. split; [reflexivity|].
    split; [discriminate|]. split; [discriminate|]. split; [exact Hcr|].
    split; [|discriminate].
    unfold is_mine. rewrite (I1 eq_refl). simpl. apply mem_false. rewrite py_set_In.
    intros Hin. unfold sample_ok in Hv. apply andb_true_iff in Hv as [_ Hp].
    rewrite forallb_forall in Hp. apply Hp, mem_true, available_excludes_target in Hin.
    apply Hin. reflexivity.
  - injection Hs as <-. repeat (split; [first [reflexivity | assumption]|]).
    rewrite Ef. exact I1.
Qed.

Lemma step_outcome g a g' :
  outcome_inv g -> valid_action g a -> step g a = Some g' ->
  outcome_inv g' /\ (game_state g' = LOST <-> game_state g = LOST \/ hits_mine g a).
Proof.
  intros Hinv Hv Hs. destruct a as [r c d | r c]; simpl in Hs.
  2: { injection Hs as <-. destruct Hinv as [I1 I2].
       destruct (toggle_flag_frame g r c) as (Er & Ec & En & Em & Eg & Ecr & Ef).
       split; [split|].
       - rewrite Ef, Em. exact I1.
       - rewrite Er, Ec, En, Eg, Ecr. exact I2.
       - rewrite Eg. simpl. tauto. }
  unfold reveal_cell in Hs.
  destruct (is_terminal (game_state g)) eqn:Ht.
  { injection Hs as <-. split; [exact Hinv|]. simpl. rewrite Ht. intuition discriminate. }
  destruct (in_bounds g r c) eqn:Hb; cbn [negb] in Hs.
  2: { injection Hs as <-. split; [exact Hinv|]. simpl. rewrite Hb. intuition discriminate. }
  assert (Hnl : game_state g <> LOST) by (intros E; rewrite E in Ht; discriminate).
  destruct (first_click_setup g r c d) as [g1|] eqn:Es; [|discriminate].
  destruct (setup_facts g r c d g1 Hinv Ht Hb Hv Es)
    as (Er & Ec & En & Ecs & Ecr & Hw1 & Hl1 & Hcr1 & Hm1 & Hf1).
  assert (Hst : forall s, state_is g1 r c s = state_is g r c s)
    by (intros s; unfold state_is, get_cell_state; rewrite Ecs; reflexivity).
  destruct (negb (state_is g1 r c HIDDEN)) eqn:Eh.
  { injection Hs as <-. split; [split; [exact Hf1 | tauto]|].
    simpl. split; [intros E; contradiction|].
    intros [E | (_ & _ & Hh & _)]; [contradiction|].
    rewrite Hst in Eh. apply state_is_true in Hh. rewrite Hh in Eh. discriminate. }
  destruct (mem (r, c) (mines g1)) eqn:Em.
  { injection Hs as <-. simpl. split; [split; [exact Hf1 | split; [discriminate | tauto]]|].
    split; [intros _; right | intros _; reflexivity].
    apply negb_false_iff in Eh. rewrite Hst in Eh. apply state_is_true in Eh.
    split; [exact Ht|]. split; [exact Hb|]. split; [exact Eh|]. rewrite <- Hm1. reflexivity. }
  destruct (reveal_recursive (reveal_fuel g1) g1 r c) as [g2|] eqn:Erec; [|discriminate].
  destruct (reveal_recursive_frame _ _ _ _ _ Erec)
    as (Er2 & Ec2 & En2 & _ & Em2 & Eg2 & _ & Ef2).
  assert (Hnh : ~ hits_mine g (Reveal r c d)).
  { intros (_ & _ & _ & Hm). rewrite <- Hm1 in Hm. discriminate. }
  destruct (cells_revealed g2 =? rows g2 * cols g2 - num_mines g2) eqn:Ew.
  - injection Hs as <-. unfold outcome_inv. simpl. apply Z.eqb_eq in Ew.
    split; [split; [rewrite Ef2, Em2; exact Hf1 | tauto]|].
    split; [discriminate | intros [E|E]; contradiction].
  - injection Hs as <-. apply Z.eqb_neq in Ew. unfold outcome_inv. rewrite Eg2.
    split; [split; [rewrite Ef2, Em2; exact Hf1 | tauto]|].
    split; [intros E; contradiction | intros [E|E]; contradiction].
Qed.

Lemma run_outcome acts :
  forall g g', outcome_inv g -> valid_run g acts -> run g acts = Some g' ->
  outcome_inv g' /\
  (game_state g' = LOST <-> game_state g = LOST \/
     exists pre a post gp, acts = pre ++ a :: post /\ run g pre = Some gp /\ hits_mine gp a).
Proof.
  induction acts as [|a t IH]; intros g g' Hinv Hv Hr.
  - injection Hr as <-. split; [exact Hinv|]. split; [tauto|].
    intros [E | (pre & a & post & gp & Ea & _)]; [exact E|].
    destruct pre; discriminate.
  - simpl in Hr, Hv. destruct Hv as [Hva Hvt].
    destruct (step g a) as [g1|] eqn:Es; [|discriminate].
    destruct (step_outcome g a g1 Hinv Hva Es) as [Hinv1 HL1].
    destruct (IH g1 g' Hinv1 Hvt Hr) as [Hinv' HL]. split; [exact Hinv'|].
    rewrite HL, HL1. split.
    + intros [[E | Hh] | (pre & a' & post & gp & Ea & Ep & Hh)].
      * left. exact E.
      * right. exists [], a, t, g. simpl. auto.
      * right. exists (a :: pre), a', post, gp. simpl. rewrite Es, Ea. auto.
    + intros [E | (pre & a' & post & gp & Ea & Ep & Hh)]; [left; left; exact E|].
      destruct pre as [|a0 pre].
      * injection Ea as <- <-. simpl in Ep. injection Ep as <-. left. right. exact Hh.
      * injection Ea as <- Ea. simpl in Ep. rewrite Es in Ep.
        right. exists pre, a', post, gp. auto.
Qed.

Lemma init_outcome d : outcome_inv (init d).
Proof. destruct d; split; [reflexivity | split; discriminate | reflexivity | split; discriminate | reflexivity | split; discriminate]. Qed.

Lemma hits_mine_reveal g r c d :
  outcome_inv g -> hits_mine g (Reveal r c d) ->
  exists g'', reveal_cell g r c d = Some (g'', false) /\ game_state g'' = LOST /\
    get_cell_state g'' r c = Some REVEALED.
Proof.
  intros [I1 _] (Ht & Hb & Hh & Hm).
  assert (Ef : first_click g = false).
  { destruct (first_click g) eqn:E; [|reflexivity].
    unfold is_mine in Hm. rewrite (I1 eq_refl) in Hm. discriminate. }
  unfold reveal_cell. rewrite Ht, Hb. simpl. unfold first_click_setup. rewrite Ef.
  replace (state_is g r c HIDDEN) with true by (symmetry; apply state_is_true; exact Hh).
  simpl. unfold is_mine in Hm. rewrite Hm.
  eexists. split; [reflexivity|]. split; [reflexivity|].
  apply in_bounds_true in Hb.
  unfold get_cell_state. simpl. rewrite py_index2_grid_set by lia.
  rewrite !Z.eqb_refl. unfold get_cell_state in Hh. rewrite Hh. reflexivity.
Qed.

(** ** C2: winning and losing *)

(** C2.  In every state reached from a fresh board by [reveal_cell] and
    [toggle_flag] calls (with [random.sample] honouring its contract), the
    game is Won iff [cells_revealed = rows*cols - num_mines], and it is
    Lost iff some earlier call was a reveal that hit a mine: the game was
    not over and the target was an in-bounds Hidden mine.  A reveal aimed at
    a mine that is not Hidden (Flagged, or already Revealed) leaves the game
    unchanged, so it does not lose: it returns true while the game is in
    play and false once it is Won or Lost.  A reveal that hits a mine marks
    that cell Revealed, sets Lost and returns false. *)
Theorem game_outcome d acts g' :
  valid_run (init d) acts -> run (init d) acts = Some g' ->
  (game_state g' = WON <-> cells_revealed g' = rows g' * cols g' - num_mines g') /\
  (game_state g' = LOST <->
     exists pre a post gp, acts = pre ++ a :: post /\ run (init d) pre = Some gp /\
       hits_mine gp a) /\
  (forall r c dd, is_mine g' r c = true -> get_cell_state g' r c <> Some HIDDEN ->
     reveal_cell g' r c dd = Some (g', negb (is_terminal (game_state g')))) /\
  (forall r c dd, hits_mine g' (Reveal r c dd) ->
     exists g'', reveal_cell g' r c dd = Some (g'', false) /\ game_state g'' = LOST /\
       get_cell_state g'' r c = Some REVEALED).
Proof.
  intros Hv Hr.
  destruct (run_outcome acts (init d) g' (init_outcome d) Hv Hr) as [Hinv HL].
  split; [exact (proj2 Hinv)|]. split.
  - rewrite HL. split; [|intros H; right; exact H].
    intros [E | H]; [destruct d; discriminate | exact H].
  - split.
    + intros r c dd Hm Hh. unfold reveal_cell.
      destruct (is_terminal (game_state g')); [reflexivity|].
      destruct (in_bounds g' r c); [|reflexivity]. cbn [negb].
      destruct (first_click g') eqn:F.
      { unfold is_mine in Hm. rewrite (proj1 Hinv F) in Hm. discriminate Hm. }
      unfold first_click_setup. rewrite F.
      destruct (state_is g' r c HIDDEN) eqn:S; [apply state_is_true in S; contradiction|].
      reflexivity.
    + intros r c dd H. exact (hits_mine_reveal g' r c dd Hinv H).
Qed.

Lemma game_outcome_witness :
  valid_run (init BEGINNER) (demo_opening ++ [Reveal 0 2 []]) /\
  match run (init BEGINNER) (demo_opening ++ [Reveal 0 2 []]) with
  | Some g' => game_state g' = LOST /\
      exists pre a post gp, demo_opening ++ [Reveal 0 2 []] = pre ++ a :: post /\
        run (init BEGINNER) pre = Some gp /\ hits_mine gp a
  | None => False
  end.
Proof.
  assert (Hv : valid_run (init BEGINNER) (demo_opening ++ [Reveal 0 2 []])).
  { vm_compute. repeat split; intros; first [reflexivity | discriminate]. }
  split; [exact Hv|].
  destruct (run (init BEGINNER) (demo_opening ++ [Reveal 0 2 []])) as [g'|] eqn:E.
  - assert (HL : game_state g' = LOST).
    { revert E. vm_compute. intros E. injection E as <-. reflexivity. }
    split; [exact HL|].
    destruct (game_outcome BEGINNER _ g' Hv E) as (_ & H & _). apply H. exact HL.
  - revert E. vm_compute. discriminate.
Defined.

(** Counterexample to C2 as first stated: on the demo board a reveal aimed
    directly at the Flagged mine (0, 2) is a no-op; the game goes on. *)
Lemma flagged_mine_reveal_not_lost :
  match run (init BEGINNER) (demo_opening ++ [ToggleFlag 0 2]) with
  | Some g =>
      is_mine g 0 2 = true /\ get_cell_state g 0 2 = Some FLAGGED /\
      reveal_cell g 0 2 [] = Some (g, true) /\ game_state g = PLAYING
  | None => False
  end.
Proof. vm_compute. repeat split. Qed.

(** ** C9: out-of-range coordinates and finished games *)

(** C9.  For an out-of-bounds coordinate, [reveal_cell] leaves the board
    unchanged and returns true while the game is Ready or Playing, but
    false once it is Won or Lost (the terminal check comes first);
    [toggle_flag] leaves it unchanged.  When the game is Won or Lost,
    [reveal_cell] is a no-op returning false and [toggle_flag] a no-op, at
    every coordinate. *)
Theorem out_of_range_and_terminal_noop g r c d :
  (in_bounds g r c = false ->
     reveal_cell g r c d = Some (g, negb (is_terminal (game_state g))) /\
     toggle_flag g r c = g) /\
  (is_terminal (game_state g) = true ->
     reveal_cell g r c d = Some (g, false) /\ toggle_flag g r c = g).
Proof.
  unfold reveal_cell, toggle_flag. split; intros H.
  - rewrite H. destruct (is_terminal (game_state g)); split; reflexivity.
  - rewrite H. split; reflexivity.
Qed.

Lemma out_of_range_and_terminal_noop_witness :
  match run (init BEGINNER) (demo_opening ++ [Reveal 0 2 []]) with
  | Some g =>
      in_bounds g (-1) (-1) = false /\ is_terminal (game_state g) = true /\
      reveal_cell g (-1) (-1) [] = Some (g, false) /\ toggle_flag g 0 0 = g
  | None => False
  end.
Proof.
  destruct (run (init BEGINNER) (demo_opening ++ [Reveal 0 2 []])) as [g|] eqn:E.
  - assert (Hb : in_bounds g (-1) (-1) = false).
    { unfold in_bounds. reflexivity. }
    assert (Ht : is_terminal (game_state g) = true).
    { revert E. vm_compute. intros E. injection E as <-. reflexivity. }
    destruct (out_of_range_and_terminal_noop g (-1) (-1) []) as [_ H1].
    destruct (out_of_range_and_terminal_noop g 0 0 []) as [_ H2].
    split; [exact Hb|]. split; [exact Ht|].
    split; [exact (proj1 (H1 Ht)) | exact (proj2 (H2 Ht))].
  - revert E. vm_compute. discriminate.
Defined.

(** Counterexample to C9 as first stated: after the demo game is lost, an
    out-of-bounds reveal returns false, not true. *)
Lemma lost_game_out_of_range_reveal :
  match run (init BEGINNER) (demo_opening ++ [Reveal 0 2 []]) with
  | Some g => game_state g = LOST /\ in_bounds g (-1) (-1) = false /\
              reveal_cell g (-1) (-1) [] = Some (g, false)
  | None => False
  end.
Proof. vm_compute. repeat split. Qed.

(** ** C1: the counters *)

(** C1.  The mine-hit branch of [reveal_cell] marks the target Revealed
    without incrementing [cells_revealed], while [_reveal_recursive]
    counts every cell it reveals: on the demo game, hitting the mine at
    (0, 2) leaves 35 Revealed cells but [cells_revealed = 34]. *)
Lemma mine_hit_counter_mismatch :
  match run (init BEGINNER) demo_opening with
  | Some g =>
      cells_revealed g = Z.of_nat (count_state g REVEALED) /\
      flags_placed g = Z.of_nat (count_state g FLAGGED) /\
      hits_mine g (Reveal 0 2 []) /\
      match reveal_cell g 0 2 [] with
      | Some (h, ok) =>
          ok = false /\ game_state h = LOST /\
          cells_revealed h = 34 /\ count_state h REVEALED = 35%nat /\
          cells_revealed h <> Z.of_nat (count_state h REVEALED)
      | None => False
      end
  | None => False
  end.
Proof. vm_compute. repeat split; discriminate. Qed.

(** ** C7: the 1-2 wall pattern *)

(** C7.  [check_1_2_pattern] only recognises the 1 at the lower index and
    the 2 at the higher one.  On the demo game, the top wall reads 2 at
    (0, 3) and 1 at (0, 4), both Revealed, with (0, 2) and (0, 5) Hidden:
    read from right to left this is a 1-2 pair whose far cells are (0, 5)
    (safe) and (0, 2) (a mine), yet the check reports nothing. *)
Lemma check_1_2_misses_reversed_pair :
  match run (init BEGINNER) demo_opening with
  | Some g =>
      is_revealed g 0 3 = true /\ is_revealed g 0 4 = true /\
      get_effective_value g 0 4 = 1 /\ get_effective_value g 0 3 = 2 /\
      is_hidden g 0 5 = true /\ is_hidden g 0 2 = true /\
      is_mine g 0 2 = true /\ is_mine g 0 5 = false /\
      check_1_2_pattern g = ([], [])
  | None => False
  end.
Proof. vm_compute. repeat split. Qed.

Lemma choose_action_targets_hidden_witness :
  match run (init BEGINNER) demo_opening with
  | Some g => exists k r c, choose_action g 0 = Some (k, r, c) /\
                get_cell_state g r c = Some HIDDEN
  | None => False
  end.
Proof.
  destruct (run (init BEGINNER) demo_opening) as [g|] eqn:E.
  - destruct (choose_action g 0) as [[[k r] c]|] eqn:Ea.
    + exists k, r, c. split; [reflexivity|].
      exact (proj1 (proj1 (choose_action_targets_hidden g 0) k r c Ea)).
    + revert E. vm_compute. intros E. injection E as <-. revert Ea. vm_compute. discriminate.
  - revert E. vm_compute. discriminate.
Defined.

(** ** The counters in reachable states *)

Lemma count_partition_row (row : list CellState) :
  (length (filter (fun x => CellState_eqb x REVEALED) row)
   + length (filter (fun x => CellState_eqb x HIDDEN) row)
   + length (filter (fun x => CellState_eqb x FLAGGED) row) = length row)%nat.
Proof. induction row as [|[] row IH]; simpl; lia. Qed.

Lemma shaped_total {A} rs cs (gr : list (list A)) :
  shaped rs cs gr -> list_sum (map (@length A) gr) = (Z.to_nat rs * Z.to_nat cs)%nat.
Proof.
  intros [Hl Hf]. rewrite <- Hl. clear Hl.
  induction Hf as [|row gr H _ IH]; simpl; [reflexivity|]. rewrite IH, H. reflexivity.
Qed.

Lemma count_partition g :
  wf g ->
  (count_state g REVEALED + count_state g HIDDEN + count_state g FLAGGED
   = Z.to_nat (rows g) * Z.to_nat (cols g))%nat.
Proof.
  intros (_ & _ & _ & Hs & _). rewrite <- (shaped_total _ _ _ Hs).
  unfold count_state, count_grid. clear Hs.
  induction (cell_states g) as [|row gr IH]; simpl; [reflexivity|].
  pose proof (count_partition_row row). lia.
Qed.

Lemma flood_mono_flagged g h :
  wf g -> flood_mono g h -> count_state h FLAGGED = count_state g FLAGGED.
Proof.
  intros Hwf Hm. pose proof (flood_mono_wf g h Hwf Hm) as Hwh.
  pose proof (count_partition g Hwf) as P1. pose proof (count_partition h Hwh) as P2.
  destruct Hm as ((Hr & Hc & _) & _ & _ & C & _). rewrite Hr, Hc in P2. lia.
Qed.

Lemma fill_fold_shaped rs cs (m : list cell) (f : Z -> Z -> Z) l b :
  shaped rs cs b ->
  shaped rs cs (fold_left (fun b rc => if mem rc m then b
                                       else grid_set b (fst rc) (snd rc) (f (fst rc) (snd rc))) l b).
Proof.
  revert b. induction l as [|x l IH]; intros b Hb; simpl; [exact Hb|].
  apply IH. destruct (mem x m); [exact Hb | apply shaped_grid_set; exact Hb].
Qed.

Lemma generate_mines_wf g r c d g0 :
  wf g -> sample_ok (available_cells g r c) (num_mines g) d = true ->
  generate_mines g r c d = Some g0 -> wf g0.
Proof.
  intros (H1 & H2 & H3 & H4 & _) Hs. unfold generate_mines.
  destruct (_ || _); [discriminate|]. intros E. injection E as <-.
  unfold wf, in_bounds. simpl.
  split; [exact H1|]. split; [exact H2|].
  split; [apply fill_fold_shaped; exact H3|]. split; [exact H4|].
  apply Forall_forall. intros [x1 x2] Hx. rewrite !py_set_In in Hx.
  unfold sample_ok in Hs. apply andb_true_iff in Hs as [_ Hp].
  rewrite forallb_forall in Hp. apply Hp, mem_true in Hx.
  unfold available_cells in Hx. apply filter_In in Hx as [Hx _].
  apply all_cells_In in Hx. apply in_bounds_true. exact Hx.
Qed.

Lemma grid_set_wf g r c s :
  wf g -> wf (set_cell_states g (grid_set (cell_states g) r c s)).
Proof.
  intros (H1 & H2 & H3 & H4 & H5). unfold wf, in_bounds in *. simpl.
  split; [exact H1|]. split; [exact H2|]. split; [exact H3|].
  split; [apply shaped_grid_set; exact H4 | exact H5].
Qed.

Lemma set_state_counts g r c old s :
  in_bounds g r c = true -> get_cell_state g r c = Some old ->
  forall t, (count_state (set_cell_states g (grid_set (cell_states g) r c s)) t
             + (if CellState_eqb old t then 1 else 0)
             = count_state g t + (if CellState_eqb s t then 1 else 0))%nat.
Proof.
  intros Hb Hg t. apply in_bounds_true in Hb. unfold count_state. simpl.
  exact (count_grid_set (fun x => CellState_eqb x t) _ r c s old ltac:(lia) ltac:(lia) Hg).
Qed.

Lemma toggle_flag_counters g r c : counters_inv g -> counters_inv (toggle_flag g r c).
Proof.
  intros Hinv. pose proof Hinv as (Hwf & Hf & Hr & Hl). unfold toggle_flag.
  destruct (is_terminal (game_state g)); [exact Hinv|].
  destruct (negb (in_bounds g r c)) eqn:Hb; [exact Hinv|]. apply negb_false_iff in Hb.
  destruct (state_is g r c REVEALED); [exact Hinv|].
  destruct (state_is g r c HIDDEN) eqn:Eh.
  { apply state_is_true in Eh. pose proof (set_state_counts g r c HIDDEN FLAGGED Hb Eh) as C.
    split; [exact (grid_set_wf g r c FLAGGED Hwf)|].
    pose proof (C FLAGGED) as CF. pose proof (C REVEALED) as CR.
    unfold count_state in *. simpl in *. split; [lia|].
    split; intros H; [specialize (Hr H) | specialize (Hl H)]; lia. }
  destruct (state_is g r c FLAGGED) eqn:Ef; [|exact Hinv].
  apply state_is_true in Ef. pose proof (set_state_counts g r c FLAGGED HIDDEN Hb Ef) as C.
  split; [exact (grid_set_wf g r c HIDDEN Hwf)|].
  pose proof (C FLAGGED) as CF. pose proof (C REVEALED) as CR.
  unfold count_state in *. simpl in *. split; [lia|].
  split; intros H; [specialize (Hr H) | specialize (Hl H)]; lia.
Qed.

Lemma setup_counters g r c d g1 :
  counters_inv g -> is_terminal (game_state g) = false -> in_bounds g r c = true ->
  valid_action g (Reveal r c d) -> first_click_setup g r c d = Some g1 ->
  counters_inv g1 /\ cell_states g1 = cell_states g /\ game_state g1 <> LOST /\
  rows g1 = rows g /\ cols g1 = cols g.
Proof.
  intros Hinv Ht Hb Hv Es. pose proof Hinv as (Hwf & Hf & Hr & Hl).
  assert (Hnl : game_state g <> LOST) by (intros E; rewrite E in Ht; discriminate).
  unfold first_click_setup in Es. destruct (first_click g) eqn:Ef.
  - destruct (generate_mines g r c d) as [g0|] eqn:Eg; [|discriminate].
    injection Es as <-. simpl in Hv. specialize (Hv Ef Hb).
    pose proof (generate_mines_wf g r c d g0 Hwf Hv Eg) as W0.
    destruct (generate_mines_frame _ _ _ _ _ Eg)
      as (_ & Er & Ec & _ & Ecs & _ & Ecr & _ & Efl).
    split; [split; [exact W0|]|]; unfold count_state; simpl; rewrite ?Ecs, ?Ecr, ?Efl.
    + split; [exact Hf|]. split; [intros _; exact (Hr Hnl) | discriminate].
    + split; [reflexivity|]. split; [discriminate|]. split; assumption.
  - injection Es as <-. auto.
Qed.

Lemma step_counters g a g' :
  counters_inv g -> valid_action g a -> step g a = Some g' -> counters_inv g'.
Proof.
  intros Hinv Hv Hs. destruct a as [r c d | r c]; simpl in Hs.
  2: { injection Hs as <-. apply toggle_flag_counters. exact Hinv. }
  unfold reveal_cell in Hs.
  destruct (is_terminal (game_state g)) eqn:Ht; [injection Hs as <-; exact Hinv|].
  destruct (in_bounds g r c) eqn:Hb; cbn [negb] in Hs; [|injection Hs as <-; exact Hinv].
  destruct (first_click_setup g r c d) as [g1|] eqn:Es; [|discriminate].
  destruct (setup_counters g r c d g1 Hinv Ht Hb Hv Es) as (Hinv1 & _ & Hnl1 & Er1 & Ec1).
  pose proof Hinv1 as (Hwf1 & Hf1 & Hr1 & _).
  assert (Hb1 : in_bounds g1 r c = true) by (unfold in_bounds; rewrite Er1, Ec1; exact Hb).
  destruct (negb (state_is g1 r c HIDDEN)) eqn:Eh; [injection Hs as <-; exact Hinv1|].
  apply negb_false_iff, state_is_true in Eh.
  destruct (mem (r, c) (mines g1)).
  { injection Hs as <-. pose proof (set_state_counts g1 r c HIDDEN REVEALED Hb1 Eh) as C.
    split; [exact (grid_set_wf g1 r c REVEALED Hwf1)|].
    pose proof (C FLAGGED) as CF. pose proof (C REVEALED) as CR. specialize (Hr1 Hnl1).
    unfold count_state in *. simpl in *. split; [lia|].
    split; [intros H; contradiction H; reflexivity | intros _; lia]. }
  destruct (reveal_recursive (reveal_fuel g1) g1 r c) as [g2|] eqn:Erec; [|discriminate].
  destruct (reveal_recursive_spec _ g1 r c g2 Hwf1 Erec) as [Hm _].
  pose proof (flood_mono_wf g1 g2 Hwf1 Hm) as Hwf2.
  pose proof (flood_mono_flagged g1 g2 Hwf1 Hm) as CF.
  destruct Hm as ((_ & _ & _ & _ & _ & Eg2 & Ef2 & _) & _ & _ & _ & _ & R1).
  specialize (Hr1 Hnl1).
  assert (Hinv2 : counters_inv g2).
  { split; [exact Hwf2|]. rewrite Ef2, CF. split; [exact Hf1|].
    rewrite Eg2. split; [intros _; lia | intros H; contradiction]. }
  destruct (_ =? _); injection Hs as <-; [|exact Hinv2].
  destruct Hinv2 as (W & F & R & _). split; [exact W|]. split; [exact F|].
  split; [intros _; apply R; rewrite Eg2; exact Hnl1 | discriminate].
Qed.

Lemma run_counters acts :
  forall g g', counters_inv g -> valid_run g acts -> run g acts = Some g' -> counters_inv g'.
Proof.
  induction acts as [|a t IH]; intros g g' Hinv Hv Hr.
  - injection Hr as <-. exact Hinv.
  - simpl in Hr, Hv. destruct Hv as [Hva Hvt].
    destruct (step g a) as [g1|] eqn:Es; [|discriminate].
    exact (IH g1 g' (step_counters g a g1 Hinv Hva Es) Hvt Hr).
Qed.

Lemma init_counters d : counters_inv (init d).
Proof.
  destruct d; (split; [apply wfb_sound; vm_compute; reflexivity|]);
    (vm_compute; split; [reflexivity | split; [intros _; reflexivity | discriminate]]).
Qed.

(** X1.  Every state reached from a fresh board by [reveal_cell] and
    [toggle_flag] calls (with [random.sample] honouring its contract) is
    well formed, [flags_placed] equals the number of Flagged cells, and
    [cells_revealed] equals the number of Revealed cells unless the game is
    Lost, in which case it is one less: the mine cell revealed by the loss is
    not counted. *)
Theorem counters_match_states d acts g' :
  valid_run (init d) acts -> run (init d) acts = Some g' ->
  wf g' /\ flags_placed g' = Z.of_nat (count_state g' FLAGGED) /\
  (game_state g' <> LOST -> cells_revealed g' = Z.of_nat (count_state g' REVEALED)) /\
  (game_state g' = LOST -> cells_revealed g' + 1 = Z.of_nat (count_state g' REVEALED)).
Proof.
  intros Hv Hr. exact (run_counters acts (init d) g' (init_counters d) Hv Hr).
Qed.

Lemma counters_match_states_witness :
  valid_run (init BEGINNER) (demo_opening ++ [Reveal 0 2 []]) /\
  match run (init BEGINNER) (demo_opening ++ [Reveal 0 2 []]) with
  | Some g' => game_state g' = LOST /\
      cells_revealed g' + 1 = Z.of_nat (count_state g' REVEALED)
  | None => False
  end.
Proof.
  assert (Hv : valid_run (init BEGINNER) (demo_opening ++ [Reveal 0 2 []])).
  { vm_compute. repeat split; intros; first [reflexivity | discriminate]. }
  split; [exact Hv|].
  destruct (run (init BEGINNER) (demo_opening ++ [Reveal 0 2 []])) as [g'|] eqn:E.
  - assert (HL : game_state g' = LOST).
    { revert E. vm_compute. intros E. injection E as <-. reflexivity. }
    split; [exact HL|].
    destruct (counters_match_states BEGINNER _ g' Hv E) as (_ & _ & _ & H). exact (H HL).
  - revert E. vm_compute. discriminate.
Defined.

(** ** The 1-2 wall pattern in the order the check handles *)

Lemma check_1_2_horizontal_member g row col :
  0 <= row < rows g -> 0 <= col -> col + 1 < cols g ->
  forall x, (In x (fst (check_1_2_horizontal_at g row col)) -> In x (fst (check_1_2_pattern g))) /\
            (In x (snd (check_1_2_horizontal_at g row col)) -> In x (snd (check_1_2_pattern g))).
Proof.
  intros Hr Hc0 Hc1 x. unfold check_1_2_pattern. cbn [fst snd].
  rewrite !py_set_In, !in_app_iff, !in_flat_map.
  split; intros H; left; exists (check_1_2_horizontal_at g row col);
    (split; [apply in_map_iff; exists (row, col); split; [reflexivity | apply all_cells_In; lia]
            | exact H]).
Qed.

Lemma check_1_2_vertical_member g row col :
  0 <= col < cols g -> 0 <= row -> row + 1 < rows g ->
  forall x, (In x (fst (check_1_2_vertical_at g row col)) -> In x (fst (check_1_2_pattern g))) /\
            (In x (snd (check_1_2_vertical_at g row col)) -> In x (snd (check_1_2_pattern g))).
Proof.
  intros Hc Hr0 Hr1 x. unfold check_1_2_pattern. cbn [fst snd].
  rewrite !py_set_In, !in_app_iff, !in_flat_map.
  split; intros H; right; exists (check_1_2_vertical_at g row col);
    (split; [apply in_map_iff; exists (row, col); split; [reflexivity | apply all_cells_In; lia]
            | exact H]).
Qed.

Lemma wall_pick (a b : bool) (l : list cell) x :
  a = true \/ b = true -> In x l -> In x ((if a then l else []) ++ (if b then l else [])).
Proof.
  intros [-> | ->] H; apply in_or_app; [left; exact H|].
  right. exact H.
Qed.

(** X2.  [check_1_2_pattern] handles the 1-2 pair read in increasing
    index order: for Revealed cells on a wall with effective values 1 at
    the lower index and 2 at the next one, the Hidden cell beyond the 2 is
    reported as a mine and the Hidden cell before the 1 as safe, both along
    the top and bottom walls (horizontal pairs) and along the left and right
    walls (vertical pairs). *)
Theorem check_1_2_forward g row col :
  is_revealed g row col = true -> get_effective_value g row col = 1 ->
  ((row = 0 \/ row = rows g - 1) -> 0 <= row < rows g -> 0 <= col -> col + 1 < cols g ->
   is_revealed g row (col + 1) = true -> get_effective_value g row (col + 1) = 2 ->
   (col + 2 < cols g -> is_hidden g row (col + 2) = true ->
      In (row, col + 2) (fst (check_1_2_pattern g))) /\
   (0 < col -> is_hidden g row (col - 1) = true ->
      In (row, col - 1) (snd (check_1_2_pattern g)))) /\
  ((col = 0 \/ col = cols g - 1) -> 0 <= col < cols g -> 0 <= row -> row + 1 < rows g ->
   is_revealed g (row + 1) col = true -> get_effective_value g (row + 1) col = 2 ->
   (row + 2 < rows g -> is_hidden g (row + 2) col = true ->
      In (row + 2, col) (fst (check_1_2_pattern g))) /\
   (0 < row -> is_hidden g (row - 1) col = true ->
      In (row - 1, col) (snd (check_1_2_pattern g)))).
Proof.
  intros Hr1 Hv1. split.
  - intros Hw Hr Hc0 Hc1 Hr2 Hv2.
    pose proof (check_1_2_horizontal_member g row col Hr Hc0 Hc1) as M.
    unfold check_1_2_horizontal_at in M. rewrite Hr1, Hr2, Hv1, Hv2 in M. cbn in M.
    assert (Hwb : (row =? rows g - 1) = true \/ (row =? 0) = true)
      by (destruct Hw as [E|E]; [right|left]; apply Z.eqb_eq; exact E).
    split; intros Hlt Hh.
    + apply (M (row, col + 2)). replace (col + 2 <? cols g) with true
        by (symmetry; apply Z.ltb_lt; exact Hlt).
      rewrite Hh. apply wall_pick; [exact Hwb | left; reflexivity].
    + apply (M (row, col - 1)). replace (0 <? col) with true
        by (symmetry; apply Z.ltb_lt; exact Hlt).
      rewrite Hh. apply wall_pick; [exact Hwb | left; reflexivity].
  - intros Hw Hc Hr0 Hr1' Hr2 Hv2.
    pose proof (check_1_2_vertical_member g row col Hc Hr0 Hr1') as M.
    unfold check_1_2_vertical_at in M. rewrite Hr1, Hr2, Hv1, Hv2 in M. cbn in M.
    assert (Hwb : (col =? 0) = true \/ (col =? cols g - 1) = true)
      by (destruct Hw as [E|E]; [left|right]; apply Z.eqb_eq; exact E).
    split; intros Hlt Hh.
    + apply (M (row + 2, col)). replace (row + 2 <? rows g) with true
        by (symmetry; apply Z.ltb_lt; exact Hlt).
      rewrite Hh. apply wall_pick; [exact Hwb | left; reflexivity].
    + apply (M (row - 1, col)). replace (0 <? row) with true
        by (symmetry; apply Z.ltb_lt; exact Hlt).
      rewrite Hh. apply wall_pick; [exact Hwb | left; reflexivity].
Qed.

Lemma check_1_2_forward_witness :
  match run (init BEGINNER) mirror_opening with
  | Some g => In (0, 5) (fst (check_1_2_pattern g)) /\ In (0, 2) (snd (check_1_2_pattern g))
  | None => False
  end.
Proof.
  destruct (run (init BEGINNER) mirror_opening) as [g|] eqn:E.
  - vm_compute in E. injection E as <-.
    match goal with |- In _ (fst (check_1_2_pattern ?g0)) /\ _ =>
      destruct (check_1_2_forward g0 0 3) as [H _] end.
    1, 2: vm_compute; reflexivity.
    destruct H as [Hm Hs].
    1: left; reflexivity.
    1, 2, 3: cbn [rows cols]; lia.
    1, 2: vm_compute; reflexivity.
    split; [apply Hm | apply Hs]; first [cbn [rows cols]; lia | vm_compute; reflexivity].
  - revert E. vm_compute. discriminate.
Defined.

(** ** Grid updates that undo each other *)

Lemma list_set_out {A} (l : list A) n v : (length l <= n)%nat -> list_set l n v = l.
Proof.
  revert n; induction l as [|x l IH]; intros [|n] H; simpl in *; try lia; auto.
  f_equal. apply IH. lia.
Qed.

Lemma nth_list_set_eq {A} (l : list A) n v d :
  (n < length l)%nat -> nth n (list_set l n v) d = v.
Proof. revert n; induction l as [|x l IH]; intros [|n] H; simpl in *; try lia; auto. apply IH. lia. Qed.

Lemma list_set_twice {A} (l : list A) n v w :
  list_set (list_set l n v) n w = list_set l n w.
Proof. revert n; induction l as [|x l IH]; intros [|n]; simpl; auto. f_equal; apply IH. Qed.

Lemma list_set_same {A} (l : list A) n v : nth_error l n = Some v -> list_set l n v = l.
Proof.
  revert n; induction l as [|x l IH]; intros [|n] H; simpl in *; try discriminate.
  - injection H as ->. reflexivity.
  - f_equal. apply IH. exact H.
Qed.

Lemma grid_set_twice {A} (gr : list (list A)) r c v w :
  grid_set (grid_set gr r c v) r c w = grid_set gr r c w.
Proof.
  unfold grid_set. destruct (Nat.lt_ge_cases (Z.to_nat r) (length gr)) as [H|H].
  - rewrite nth_list_set_eq by exact H. rewrite !list_set_twice. reflexivity.
  - rewrite (list_set_out gr _ (list_set (nth (Z.to_nat r) gr []) (Z.to_nat c) v)) by exact H.
    reflexivity.
Qed.

Lemma grid_set_same {A} (gr : list (list A)) r c v :
  0 <= r -> 0 <= c -> py_index2 gr r c = Some v -> grid_set gr r c v = gr.
Proof.
  intros Hr Hc. unfold py_index2, grid_set. rewrite py_index_nonneg by exact Hr.
  destruct (nth_error gr (Z.to_nat r)) as [row|] eqn:E; [|discriminate].
  rewrite py_index_nonneg by exact Hc. intros Hv.
  rewrite (nth_error_nth gr (Z.to_nat r) [] E), (list_set_same row _ _ Hv).
  apply list_set_same. exact E.
Qed.

Lemma Minesweeper_eta g :
  mkMinesweeper (rows g) (cols g) (num_mines g) (board g) (cell_states g) (mines g)
    (game_state g) (flags_placed g) (cells_revealed g) (first_click g) = g.
Proof. destruct g; reflexivity. Qed.

(** [toggle_flag] by the state of the cell. *)
Lemma toggle_flag_eq g r c :
  toggle_flag g r c =
  if is_terminal (game_state g) || negb (in_bounds g r c) then g
  else match get_cell_state g r c with
       | Some HIDDEN =>
         set_flags_placed (set_cell_states g (grid_set (cell_states g) r c FLAGGED))
           (flags_placed g + 1)
       | Some FLAGGED =>
         set_flags_placed (set_cell_states g (grid_set (cell_states g) r c HIDDEN))
           (flags_placed g - 1)
       | _ => g
       end.
Proof.
  unfold toggle_flag, state_is. destruct (is_terminal _); [reflexivity|].
  destruct (in_bounds g r c); simpl; [|reflexivity].
  destruct (get_cell_state g r c) as [[| |]|]; reflexivity.
Qed.

(** X7.  [toggle_flag] undoes itself: toggling the same coordinates twice
    gives back exactly the game it started from, whatever the game, the
    coordinates and the state of the cell. *)
Theorem toggle_flag_involutive g r c : toggle_flag (toggle_flag g r c) r c = g.
Proof.
  rewrite (toggle_flag_eq g r c).
  destruct (is_terminal (game_state g) || negb (in_bounds g r c)) eqn:E1.
  { rewrite toggle_flag_eq, E1. reflexivity. }
  pose proof E1 as E2. apply orb_false_iff in E2 as [Et Eb].
  apply negb_false_iff in Eb. pose proof Eb as Hb. apply in_bounds_true in Hb.
  destruct (get_cell_state g r c) as [[| |]|] eqn:Es;
    try (rewrite toggle_flag_eq, E1, Es; reflexivity).
  - rewrite toggle_flag_eq. unfold in_bounds, get_cell_state in *.
    cbn [game_state rows cols cell_states flags_placed set_flags_placed set_cell_states].
    rewrite Et, Eb. cbn [orb negb]. rewrite py_index2_grid_set by lia.
    rewrite !Z.eqb_refl, Es. cbn [andb option_map].
    rewrite grid_set_twice, (grid_set_same _ r c HIDDEN) by (lia || exact Es).
    unfold set_flags_placed, set_cell_states. cbn [rows cols num_mines board cell_states mines
      game_state flags_placed cells_revealed first_click].
    replace (flags_placed g + 1 - 1) with (flags_placed g) by lia. apply Minesweeper_eta.
  - rewrite toggle_flag_eq. unfold in_bounds, get_cell_state in *.
    cbn [game_state rows cols cell_states flags_placed set_flags_placed set_cell_states].
    rewrite Et, Eb. cbn [orb negb]. rewrite py_index2_grid_set by lia.
    rewrite !Z.eqb_refl, Es. cbn [andb option_map].
    rewrite grid_set_twice, (grid_set_same _ r c FLAGGED) by (lia || exact Es).
    unfold set_flags_placed, set_cell_states. cbn [rows cols num_mines board cell_states mines
      game_state flags_placed cells_revealed first_click].
    replace (flags_placed g - 1 + 1) with (flags_placed g) by lia. apply Minesweeper_eta.
Qed.

(** ** Fresh boards and [reset] *)

Lemma filter_repeat_length {A} (p : A -> bool) x m :
  length (filter p (repeat x m)) = if p x then m else 0%nat.
Proof. induction m as [|m IH]; simpl; [destruct (p x); reflexivity|]. destruct (p x); simpl; lia. Qed.

Lemma count_grid_repeat {A} (p : A -> bool) x m n :
  count_grid p (repeat (repeat x m) n) = if p x then (n * m)%nat else 0%nat.
Proof.
  unfold count_grid. induction n as [|n IH]; simpl; [destruct (p x); reflexivity|].
  rewrite IH, filter_repeat_length. destruct (p x); lia.
Qed.

Lemma repeat_shaped {A} (x : A) rs cs :
  shaped rs cs (repeat (repeat x (Z.to_nat cs)) (Z.to_nat rs)).
Proof.
  split; [apply repeat_length|]. apply Forall_forall. intros row Hr.
  apply repeat_spec in Hr. subst row. apply repeat_length.
Qed.

Lemma py_index2_In {A} (gr : list (list A)) r c v :
  py_index2 gr r c = Some v -> exists row, In row gr /\ In v row.
Proof.
  unfold py_index2. destruct (py_index gr r) as [row|] eqn:E; [|discriminate].
  intros H. exists row. split; [exact (py_index_In _ _ _ E) | exact (py_index_In _ _ _ H)].
Qed.

Lemma reset_init g od : dims_ok g -> exists d, reset g od = init d.
Proof.
  intros [d0 Hd]. destruct od as [d|]; [exists d; reflexivity|].
  exists d0. unfold reset, init. rewrite Hd. reflexivity.
Qed.

Lemma init_dims d : dims_ok (init d).
Proof. exists d. destruct d; reflexivity. Qed.

Lemma init_mines d : mines_inv (init d).
Proof.
  assert (Hs : forall r c s, get_cell_state (init d) r c = Some s -> s = HIDDEN).
  { intros r c s H. apply py_index2_In in H as (row & Hrow & Hs).
    destruct d; cbn in Hrow; apply repeat_spec in Hrow; subst row;
      apply repeat_spec in Hs; exact Hs. }
  split; [|split; [|split]].
  - intros _. unfold count_state. destruct d; cbn [init difficulty_value cell_states];
      rewrite count_grid_repeat; reflexivity.
  - destruct d; discriminate.
  - intros r c _ H. apply Hs in H. discriminate.
  - destruct d; discriminate.
Qed.

Lemma init_state_inv d : state_inv (init d).
Proof.
  split; [apply init_counters|]. split; [apply init_outcome|].
  split; [apply init_mines | apply init_dims].
Qed.

(** ** The mine invariant along a game *)

Lemma count_zero_not_state g s r c :
  count_state g s = 0%nat -> get_cell_state g r c <> Some s.
Proof.
  intros H0 H. apply py_index2_In in H as (row & Hrow & Hs).
  unfold count_state, count_grid in H0.
  assert (Hp : In (length (filter (fun x => CellState_eqb x s) row))
                  (map (fun row => length (filter (fun x => CellState_eqb x s) row))
                       (cell_states g)))
    by exact (in_map (fun row => length (filter (fun x => CellState_eqb x s) row)) _ _ Hrow).
  assert (Hpos : (0 < length (filter (fun x => CellState_eqb x s) row))%nat).
  { destruct (filter (fun x => CellState_eqb x s) row) as [|y t] eqn:E; simpl; [|lia].
    assert (Hin : In s (filter (fun x => CellState_eqb x s) row))
      by (apply filter_In; split; [exact Hs | destruct s; reflexivity]).
    rewrite E in Hin. destruct Hin. }
  revert H0 Hp Hpos. generalize (map (fun row => length (filter (fun x => CellState_eqb x s) row))
                                     (cell_states g)).
  intros l. induction l as [|a l IH]; simpl; [tauto|].
  intros H0 [<-|Hin] Hpos; [lia|]. apply IH; [lia | exact Hin | exact Hpos].
Qed.

Lemma board_numbers_frame g h :
  rows h = rows g -> cols h = cols g -> board h = board g -> mines h = mines g ->
  (forall r c, in_bounds g r c = true -> is_mine g r c = false ->
     get_cell_value g r c = Some (count_adjacent_mines g r c)) ->
  (forall r c, in_bounds h r c = true -> is_mine h r c = false ->
     get_cell_value h r c = Some (count_adjacent_mines h r c)).
Proof.
  intros Er Ec Eb Em H r c. unfold in_bounds, is_mine, get_cell_value,
    count_adjacent_mines, get_neighbors. rewrite Er, Ec, Eb, Em. exact (H r c).
Qed.

Lemma generate_board g r c d g0 :
  shaped (rows g) (cols g) (board g) -> generate_mines g r c d = Some g0 ->
  forall r' c', in_bounds g0 r' c' = true -> is_mine g0 r' c' = false ->
    get_cell_value g0 r' c' = Some (count_adjacent_mines g0 r' c').
Proof.
  intros Hbd. unfold generate_mines. destruct (_ || _); [discriminate|].
  intros H. injection H as <-. intros r' c' Hb' Hm'. apply in_bounds_true in Hb'.
  unfold get_cell_value, fill_numbers. cbn [board rows cols set_board set_mines] in *.
  rewrite (fill_fold_spec (py_set d) (count_adjacent_mines (set_mines g (py_set d)))) by
    (lia || (intros [x1 x2] Hx; apply all_cells_In in Hx; simpl; lia)).
  unfold is_mine in Hm'. simpl in Hm'. rewrite Hm'.
  replace (mem (r', c') (all_cells (rows g) (cols g))) with true
    by (symmetry; apply mem_true, all_cells_In; exact Hb').
  destruct (shaped_get _ _ _ r' c' Hbd) as [v Hv]; [lia | lia |].
  rewrite Hv. reflexivity.
Qed.

Lemma toggle_flag_board g r c : board (toggle_flag g r c) = board g.
Proof.
  rewrite toggle_flag_eq. destruct (_ || _); [reflexivity|].
  destruct (get_cell_state g r c) as [[| |]|]; reflexivity.
Qed.

Lemma toggle_flag_revealed g r c x y :
  0 <= x -> 0 <= y ->
  (get_cell_state (toggle_flag g r c) x y = Some REVEALED <-> get_cell_state g x y = Some REVEALED) /\
  count_state (toggle_flag g r c) REVEALED = count_state g REVEALED.
Proof.
  intros Hx Hy. rewrite toggle_flag_eq.
  destruct (is_terminal (game_state g) || negb (in_bounds g r c)) eqn:E1; [tauto|].
  apply orb_false_iff in E1 as [_ Eb]. apply negb_false_iff in Eb.
  pose proof Eb as Hb. apply in_bounds_true in Hb.
  destruct (get_cell_state g r c) as [[| |]|] eqn:Es; try tauto.
  - pose proof (set_state_counts g r c HIDDEN FLAGGED Eb Es REVEALED) as C.
    unfold count_state in *. simpl in *. split; [|lia].
    unfold get_cell_state in *. simpl. rewrite py_index2_grid_set by lia.
    destruct ((r =? x) && (c =? y)) eqn:E; [|tauto].
    apply andb_true_iff in E as [E E']. apply Z.eqb_eq in E, E'. subst x y.
    rewrite Es. simpl. split; discriminate.
  - pose proof (set_state_counts g r c FLAGGED HIDDEN Eb Es REVEALED) as C.
    unfold count_state in *. simpl in *. split; [|lia].
    unfold get_cell_state in *. simpl. rewrite py_index2_grid_set by lia.
    destruct ((r =? x) && (c =? y)) eqn:E; [|tauto].
    apply andb_true_iff in E as [E E']. apply Z.eqb_eq in E, E'. subst x y.
    rewrite Es. simpl. split; discriminate.
Qed.

Lemma toggle_flag_mines g r c : mines_inv g -> mines_inv (toggle_flag g r c).
Proof.
  intros (M1 & M2 & M3 & M4).
  destruct (toggle_flag_frame g r c) as (Er & Ec & _ & Em & Eg & _ & Ef).
  split; [|split; [|split]].
  - rewrite Ef. intros H. rewrite (proj2 (toggle_flag_revealed g r c 0 0 ltac:(lia) ltac:(lia))).
    exact (M1 H).
  - rewrite Ef. intros H.
    exact (board_numbers_frame g _ Er Ec (toggle_flag_board g r c) Em (M2 H)).
  - intros x y Hb Hs Hm. pose proof Hb as Hb'. apply in_bounds_true in Hb'.
    apply (toggle_flag_revealed g r c x y ltac:(lia) ltac:(lia)) in Hs.
    rewrite Eg. apply (M3 x y).
    + unfold in_bounds in *. rewrite Er, Ec in Hb. exact Hb.
    + exact Hs.
    + unfold is_mine in *. rewrite Em in Hm. exact Hm.
  - rewrite Eg. intros HL.
    replace (toggle_flag g r c) with g by (rewrite toggle_flag_eq, HL; reflexivity).
    exact (M4 HL).
Qed.

Lemma setup_mines g r c d g1 :
  counters_inv g -> mines_inv g -> is_terminal (game_state g) = false ->
  in_bounds g r c = true -> first_click_setup g r c d = Some g1 ->
  mines_inv g1 /\ first_click g1 = false.
Proof.
  intros (Hwf & _) Hm Ht Hb Hs. pose proof Hm as (M1 & M2 & M3 & M4).
  unfold first_click_setup in Hs. destruct (first_click g) eqn:Ef.
  2: { injection Hs as <-. split; [exact Hm | exact Ef]. }
  destruct (generate_mines g r c d) as [g0|] eqn:Eg; [|discriminate].
  injection Hs as <-.
  destruct (generate_mines_frame _ _ _ _ _ Eg) as (_ & Er & Ec & _ & Ecs & _).
  destruct Hwf as (_ & _ & Hbd & _).
  split; [|reflexivity]. split; [|split; [|split]].
  - discriminate.
  - intros _. exact (board_numbers_frame g0 _ eq_refl eq_refl eq_refl eq_refl
                       (generate_board g r c d g0 Hbd Eg)).
  - intros x y _ Hx. exfalso. apply (count_zero_not_state g REVEALED x y (M1 eq_refl)).
    unfold get_cell_state in *. simpl in Hx. rewrite Ecs in Hx. exact Hx.
  - discriminate.
Qed.

Lemma step_mines g a g' :
  counters_inv g -> outcome_inv g -> mines_inv g -> valid_action g a -> step g a = Some g' ->
  mines_inv g'.
Proof.
  intros Hc Ho Hm Hv Hs. destruct a as [r c d | r c]; simpl in Hs.
  2: { injection Hs as <-. apply toggle_flag_mines. exact Hm. }
  unfold reveal_cell in Hs.
  destruct (is_terminal (game_state g)) eqn:Ht; [injection Hs as <-; exact Hm|].
  destruct (in_bounds g r c) eqn:Hb; cbn [negb] in Hs; [|injection Hs as <-; exact Hm].
  destruct (first_click_setup g r c d) as [g1|] eqn:Es; [|discriminate].
  destruct (setup_mines g r c d g1 Hc Hm Ht Hb Es) as [Hm1 Hf1].
  destruct (setup_counters g r c d g1 Hc Ht Hb Hv Es) as (Hc1 & _ & Hnl1 & Er1 & Ec1).
  pose proof Hc1 as (Hwf1 & _). pose proof Hm1 as (M1 & M2 & M3 & M4).
  assert (Hb1 : in_bounds g1 r c = true) by (unfold in_bounds; rewrite Er1, Ec1; exact Hb).
  pose proof Hb1 as Hb1'. apply in_bounds_true in Hb1'.
  destruct (negb (state_is g1 r c HIDDEN)) eqn:Eh; [injection Hs as <-; exact Hm1|].
  apply negb_false_iff, state_is_true in Eh.
  destruct (mem (r, c) (mines g1)) eqn:Emr.
  { injection Hs as <-. split; [|split; [|split]].
    - simpl. rewrite Hf1. discriminate.
    - intros H. exact (board_numbers_frame g1 _ eq_refl eq_refl eq_refl eq_refl (M2 Hf1)).
    - intros. reflexivity.
    - intros _. exists r, c. split; [exact Hb1|]. split; [|exact Emr].
      unfold get_cell_state in *. simpl. rewrite py_index2_grid_set by lia.
      rewrite !Z.eqb_refl, Eh. reflexivity. }
  destruct (reveal_recursive (reveal_fuel g1) g1 r c) as [g2|] eqn:Erec; [|discriminate].
  destruct (reveal_recursive_spec _ g1 r c g2 Hwf1 Erec) as [Hmono _].
  destruct Hmono as ((Er2 & Ec2 & _ & Ebd2 & Em2 & Eg2 & _ & Ef2) & _ & Hcell & _).
  assert (Hno : forall x y, in_bounds g2 x y = true -> get_cell_state g2 x y = Some REVEALED ->
                  is_mine g2 x y = false).
  { intros x y Hbx Hsx. unfold is_mine. rewrite Em2.
    assert (Hbx1 : in_bounds g1 x y = true) by (unfold in_bounds in *; rewrite Er2, Ec2 in Hbx; exact Hbx).
    pose proof Hbx1 as Hbx'. apply in_bounds_true in Hbx'.
    destruct (Hcell x y ltac:(lia) ltac:(lia)) as [E | (_ & _ & Hmx)]; [|exact Hmx].
    rewrite Hsx in E. destruct (mem (x, y) (mines g1)) eqn:Emx; [|reflexivity].
    exfalso. apply Hnl1. exact (M3 x y Hbx1 (eq_sym E) Emx). }
  assert (Hfr : forall r' c', in_bounds g2 r' c' = true -> is_mine g2 r' c' = false ->
                  get_cell_value g2 r' c' = Some (count_adjacent_mines g2 r' c'))
    by exact (board_numbers_frame g1 g2 Er2 Ec2 Ebd2 Em2 (M2 Hf1)).
  destruct (_ =? _); injection Hs as <-; (split; [|split; [|split]]).
  - simpl. rewrite Ef2, Hf1. discriminate.
  - intros _. exact Hfr.
  - intros x y Hbx Hsx Hmx.
    change (in_bounds g2 x y = true) in Hbx. change (get_cell_state g2 x y = Some REVEALED) in Hsx.
    change (is_mine g2 x y = true) in Hmx. rewrite (Hno x y Hbx Hsx) in Hmx. discriminate.
  - discriminate.
  - rewrite Ef2, Hf1. discriminate.
  - intros _. exact Hfr.
  - intros x y Hbx Hsx Hmx.
    change (in_bounds g2 x y = true) in Hbx. change (get_cell_state g2 x y = Some REVEALED) in Hsx.
    change (is_mine g2 x y = true) in Hmx. rewrite (Hno x y Hbx Hsx) in Hmx. discriminate.
  - rewrite Eg2. intros HL. contradiction.
Qed.

Lemma setup_dims g r c d g1 :
  first_click_setup g r c d = Some g1 ->
  rows g1 = rows g /\ cols g1 = cols g /\ num_mines g1 = num_mines g.
Proof.
  unfold first_click_setup. destruct (first_click g); [|intros H; injection H as <-; auto].
  destruct (generate_mines g r c d) as [g0|] eqn:Eg; [|discriminate].
  intros H. injection H as <-.
  destruct (generate_mines_frame _ _ _ _ _ Eg) as (_ & Er & Ec & En & _). simpl. auto.
Qed.

Lemma reveal_cell_dims g r c d g' b :
  reveal_cell g r c d = Some (g', b) ->
  rows g' = rows g /\ cols g' = cols g /\ num_mines g' = num_mines g.
Proof.
  unfold reveal_cell.
  destruct (is_terminal (game_state g)); [intros H; injection H as <-; auto|].
  destruct (negb (in_bounds g r c)); [intros H; injection H as <-; auto|].
  destruct (first_click_setup g r c d) as [g1|] eqn:Es; [|discriminate].
  destruct (setup_dims g r c d g1 Es) as (Er & Ec & En).
  destruct (negb (state_is g1 r c HIDDEN)); [intros H; injection H as <-; auto|].
  destruct (mem (r, c) (mines g1)); [intros H; injection H as <-; simpl; auto|].
  destruct (reveal_recursive (reveal_fuel g1) g1 r c) as [g2|] eqn:Erec; [|discriminate].
  destruct (reveal_recursive_frame _ _ _ _ _ Erec) as (Er2 & Ec2 & En2 & _).
  destruct (_ =? _); intros H; injection H as <-; simpl; rewrite Er2, Ec2, En2; auto.
Qed.

Lemma step_dims g a g' :
  step g a = Some g' -> rows g' = rows g /\ cols g' = cols g /\ num_mines g' = num_mines g.
Proof.
  destruct a as [r c d | r c]; simpl.
  - destruct (reveal_cell g r c d) as [[g1 b]|] eqn:E; [|discriminate].
    intros H. injection H as <-. exact (reveal_cell_dims _ _ _ _ _ _ E).
  - intros H. injection H as <-.
    destruct (toggle_flag_frame g r c) as (Er & Ec & En & _). auto.
Qed.

Lemma reachable_state_inv g : reachable g -> state_inv g.
Proof.
  induction 1 as [d | g a g' Hr IH Hv Hs | g od Hr IH].
  - apply init_state_inv.
  - destruct IH as (Hc & Ho & Hm & [d Hd]).
    split; [exact (step_counters g a g' Hc Hv Hs)|].
    split; [exact (proj1 (step_outcome g a g' Ho Hv Hs))|].
    split; [exact (step_mines g a g' Hc Ho Hm Hv Hs)|].
    exists d. destruct (step_dims g a g' Hs) as (Er & Ec & En). rewrite Er, Ec, En. exact Hd.
  - destruct IH as (_ & _ & _ & Hd). destruct (reset_init g od Hd) as [d ->].
    apply init_state_inv.
Qed.

Lemma run_reachable acts :
  forall g g', reachable g -> valid_run g acts -> run g acts = Some g' -> reachable g'.
Proof.
  induction acts as [|a t IH]; intros g g' Hr Hv Hrun.
  - injection Hrun as <-. exact Hr.
  - simpl in Hrun, Hv. destruct Hv as [Hva Hvt].
    destruct (step g a) as [g1|] eqn:Es; [|discriminate].
    exact (IH g1 g' (reach_step g a g1 Hr Hva Es) Hvt Hrun).
Qed.

Lemma demo_played_reachable : reachable demo_played.
Proof.
  apply (run_reachable (demo_opening ++ [ToggleFlag 0 2]) (init BEGINNER)).
  - apply reach_init.
  - vm_compute. repeat split; intros; first [reflexivity | discriminate].
  - vm_compute. reflexivity.
Qed.

Lemma demo_lost_reachable : reachable demo_lost.
Proof.
  apply (run_reachable (demo_opening ++ [Reveal 0 2 []]) (init BEGINNER)).
  - apply reach_init.
  - vm_compute. repeat split; intros; first [reflexivity | discriminate].
  - vm_compute. reflexivity.
Qed.

(** X3.  On any game reached from a fresh board by [reveal_cell],
    [toggle_flag] and [reset] calls, [reset()] without a difficulty starts a
    fresh game of the current dimensions and mine count (the initial game of
    the difficulty having them), and [reset(difficulty)] the fresh game of
    that difficulty: every cell Hidden, no mine, all counters zero, state
    Ready and the next click a first click. *)
Theorem reset_new_game g :
  reachable g ->
  (exists d, difficulty_value d = (rows g, cols g, num_mines g) /\ reset g None = init d) /\
  (forall d, reset g (Some d) = init d).
Proof.
  intros Hr. destruct (reachable_state_inv g Hr) as (_ & _ & _ & [d Hd]).
  split; [|reflexivity].
  exists d. split; [exact Hd|]. unfold reset, init. rewrite Hd. reflexivity.
Qed.

Lemma reset_new_game_witness :
  reachable demo_played /\
  reset demo_played None = init BEGINNER /\ reset demo_played (Some EXPERT) = init EXPERT.
Proof.
  destruct (reset_new_game demo_played demo_played_reachable) as [[d [Hd E]] E'].
  split; [exact demo_played_reachable|]. split; [|apply E'].
  rewrite E. destruct d; vm_compute in Hd; try discriminate Hd; reflexivity.
Defined.

(** X4.  On any reachable game: before the first click no cell is
    Revealed; after it, every in-bounds non-mine cell of [board] holds the
    number of mines among its neighbours; and the game is Lost exactly when
    some in-bounds Revealed cell is a mine. *)
Theorem reachable_board_consistent g :
  reachable g ->
  (first_click g = true -> forall r c, get_cell_state g r c <> Some REVEALED) /\
  (first_click g = false -> forall r c, in_bounds g r c = true -> is_mine g r c = false ->
     get_cell_value g r c = Some (count_adjacent_mines g r c)) /\
  (game_state g = LOST <->
     exists r c, in_bounds g r c = true /\ get_cell_state g r c = Some REVEALED /\
                 is_mine g r c = true).
Proof.
  intros Hr. destruct (reachable_state_inv g Hr) as (_ & _ & (M1 & M2 & M3 & M4) & _).
  split; [intros Hf r c; exact (count_zero_not_state g REVEALED r c (M1 Hf))|].
  split; [exact M2|]. split; [exact M4|].
  intros (r & c & Hb & Hs & Hm). exact (M3 r c Hb Hs Hm).
Qed.

Lemma reachable_board_consistent_witness :
  reachable demo_lost /\ game_state demo_lost = LOST /\
  in_bounds demo_lost 0 2 = true /\ get_cell_state demo_lost 0 2 = Some REVEALED /\
  is_mine demo_lost 0 2 = true /\
  get_cell_value demo_lost 0 3 = Some (count_adjacent_mines demo_lost 0 3).
Proof.
  destruct (reachable_board_consistent demo_lost demo_lost_reachable) as (_ & H2 & H3).
  split; [exact demo_lost_reachable|].
  assert (HL : game_state demo_lost = LOST) by (vm_compute; reflexivity).
  split; [exact HL|].
  split; [vm_compute; reflexivity|]. split; [vm_compute; reflexivity|].
  split; [vm_compute; reflexivity|].
  apply H2; vm_compute; reflexivity.
Defined.

(** X5.  On any reachable game [get_remaining_mines] is the mine count
    minus the number of Flagged cells, so it never exceeds the mine count
    and goes negative only down to the mine count minus the board size
    (flags are not limited to the number of mines). *)
Theorem remaining_mines_range g :
  reachable g ->
  get_remaining_mines g = num_mines g - Z.of_nat (count_state g FLAGGED) /\
  num_mines g - rows g * cols g <= get_remaining_mines g <= num_mines g.
Proof.
  intros Hr. destruct (reachable_state_inv g Hr) as ((Hwf & Hf & _) & _).
  pose proof (count_state_le g FLAGGED Hwf) as Hle.
  pose proof Hwf as (Hr0 & Hc0 & _).
  unfold get_remaining_mines. rewrite Hf. split; [reflexivity|].
  apply Nat2Z.inj_le in Hle. rewrite Z2Nat.id in Hle by lia. lia.
Qed.

Lemma remaining_mines_range_witness :
  reachable demo_played /\ get_remaining_mines demo_played = 9 /\
  get_remaining_mines demo_played = num_mines demo_played - Z.of_nat (count_state demo_played FLAGGED).
Proof.
  split; [exact demo_played_reachable|]. split; [vm_compute; reflexivity|].
  exact (proj1 (remaining_mines_range demo_played demo_played_reachable)).
Defined.

Lemma get_cells_eq g :
  get_safe_cells g = find_certain_safe g /\ get_mine_cells g = find_certain_mines g.
Proof.
  unfold get_safe_cells, find_certain_safe, get_mine_cells, find_certain_mines.
  split; f_equal; apply flat_map_ext; intros [r c];
    unfold hidden_neighbors, get_effective_value, is_revealed, is_hidden, is_flagged;
    destruct (state_is g r c REVEALED); cbn [negb]; try reflexivity;
    destruct (filter (fun n => state_is g (fst n) (snd n) HIDDEN) (get_neighbors g r c))
      as [|h t] eqn:Eh; cbn [length negb];
    set (v := match get_cell_value g r c with Some v => v | None => 0 end);
    set (f := Z.of_nat (length (filter (fun n => state_is g (fst n) (snd n) FLAGGED)
                                 (get_neighbors g r c))));
    rewrite ?andb_false_r; try reflexivity.
  - rewrite !andb_true_r.
    destruct (Z.eqb_spec f v), (Z.eqb_spec (v - f) 0); try reflexivity; lia.
  - destruct (_ && _); reflexivity.
  - rewrite andb_true_r. unfold cell in *.
    assert (Hn : 0 < Z.of_nat (S (length t))) by lia.
    revert Hn. generalize (Z.of_nat (S (length t))). intros n Hn.
    destruct (n + f =? v) eqn:E1, (n =? v - f) eqn:E2, (0 <? v - f) eqn:E3;
      cbn [andb]; try reflexivity;
      rewrite ?Z.eqb_eq, ?Z.eqb_neq, ?Z.ltb_lt, ?Z.ltb_ge in *; lia.
Qed.

(** X6.  The base agent's [get_safe_cells] and [get_mine_cells] return
    exactly the lists the pattern agent's [find_certain_safe] and
    [find_certain_mines] return, on every board: "all mines around are
    flagged" is "effective value 0", and "hidden plus flagged equals the
    value, with a hidden neighbour" is Python's chained "hidden equals
    effective value > 0". *)
Theorem agent_cells_agree g :
  get_safe_cells g = find_certain_safe g /\ get_mine_cells g = find_certain_mines g.
Proof. exact (get_cells_eq g). Qed.

(** ** The agents' targets *)

Lemma hidden_cells_In g x :
  In x (filter (fun x => state_is g (fst x) (snd x) HIDDEN) (all_cells (rows g) (cols g))) ->
  in_bounds g (fst x) (snd x) = true /\ is_hidden g (fst x) (snd x) = true.
Proof.
  intros Hx. destruct x as [r c]. apply filter_In in Hx as [Hx Hh]. apply all_cells_In in Hx.
  split; [apply in_bounds_true; exact Hx | exact Hh].
Qed.

Lemma hidden_cells_nil g r c :
  filter (fun x => state_is g (fst x) (snd x) HIDDEN) (all_cells (rows g) (cols g)) = [] ->
  in_bounds g r c = true -> is_hidden g r c = false.
Proof.
  intros E Hb. destruct (is_hidden g r c) eqn:Eh; [|reflexivity]. exfalso.
  assert (Hin : In (r, c) (filter (fun x => state_is g (fst x) (snd x) HIDDEN)
                                  (all_cells (rows g) (cols g)))).
  { apply filter_In. split; [apply all_cells_In, in_bounds_true; exact Hb | exact Eh]. }
  rewrite E in Hin. destruct Hin.
Qed.

Lemma nth_mod_In {A} (l : list A) (d : A) rnd :
  l <> [] -> In (nth (rnd mod length l) l d) l.
Proof.
  intros Hl. apply nth_In. apply Nat.mod_upper_bound.
  destruct l; [congruence | simpl; lia].
Qed.

Lemma agent_choose_action_spec g rnd :
  (forall k r c, agent_choose_action g rnd = Some (k, r, c) ->
     in_bounds g r c = true /\ is_hidden g r c = true) /\
  (agent_choose_action g rnd = None ->
     forall r c, in_bounds g r c = true -> is_hidden g r c = false).
Proof.
  unfold agent_choose_action. rewrite (proj1 (get_cells_eq g)), (proj2 (get_cells_eq g)).
  destruct (find (fun x => state_is g (fst x) (snd x) HIDDEN) (find_certain_mines g))
    as [[r0 c0]|] eqn:E1.
  { split; [|discriminate]. intros k r c H. injection H as <- <- <-.
    apply find_some in E1 as [Hin _]. exact (find_certain_mines_targets g _ Hin). }
  destruct (find_certain_safe g) as [|[r0 c0] l0] eqn:E2.
  2: { split; [|discriminate]. intros k r c H. injection H as <- <- <-.
       apply (find_certain_safe_targets g (r0, c0)). rewrite E2. left. reflexivity. }
  pose proof (hidden_cells_In g) as Hhc. pose proof (hidden_cells_nil g) as Hnil.
  destruct (filter (fun x => state_is g (fst x) (snd x) HIDDEN) (all_cells (rows g) (cols g)))
    as [|h t] eqn:Ehc.
  { split; [discriminate|]. intros _ r c Hb. exact (Hnil r c eq_refl Hb). }
  match goal with |- context [fold_left ?f (h :: t) (None, -1)] =>
    pose proof (guess_fold (h :: t) (h :: t) f None (-1)) as G;
    revert G; destruct (fold_left f (h :: t) (None, -1)) as [b m]; intros G end.
  destruct G as [G1 G2].
  { intros b0 m0 x0. cbv beta.
    destruct (m0 <? _) eqn:E.
    - left. eexists. split; [|reflexivity]. lia.
    - right. apply Z.ltb_ge in E. split; [reflexivity | lia]. }
  { intros y Hy. exact Hy. }
  { discriminate. }
  { reflexivity. }
  cbv zeta. split.
  - intros k r c H. destruct (m =? 0).
    + destruct (filter (fun x => mem x (h :: t)) _) as [|y ys] eqn:Ec.
      * assert (Hin : In (nth (rnd mod length (h :: t)) (h :: t) (0, 0)) (h :: t))
          by (apply nth_mod_In; discriminate).
        destruct (nth _ (h :: t) (0, 0)) as [r0 c0].
        injection H as <- <- <-. exact (Hhc _ Hin).
      * assert (Hin : In (nth (rnd mod length (y :: ys)) (y :: ys) (0, 0)) (y :: ys))
          by (apply nth_mod_In; discriminate).
        rewrite <- Ec in Hin. apply filter_In in Hin as [_ Hm]. apply mem_true in Hm.
        rewrite Ec in Hm. destruct (nth _ (y :: ys) (0, 0)) as [r0 c0].
        injection H as <- <- <-. exact (Hhc _ Hm).
    + destruct b as [[r0 c0]|]; [|discriminate].
      injection H as <- <- <-. exact (Hhc _ (G1 _ eq_refl)).
  - intros H. exfalso. destruct (m =? 0).
    + destruct (filter (fun x => mem x (h :: t)) _) as [|y ys];
        [destruct (nth _ (h :: t) (0, 0)) as [r0 c0] | destruct (nth _ (y :: ys) (0, 0)) as [r0 c0]];
        discriminate.
    + destruct b as [[r0 c0]|]; [discriminate|].
      destruct (G2 eq_refl) as [Hc _]. discriminate.
Qed.

Lemma random_choose_action_spec g rnd :
  (forall k r c, random_choose_action g rnd = Some (k, r, c) ->
     in_bounds g r c = true /\ is_hidden g r c = true) /\
  (random_choose_action g rnd = None ->
     forall r c, in_bounds g r c = true -> is_hidden g r c = false).
Proof.
  unfold random_choose_action.
  pose proof (hidden_cells_In g) as Hhc. pose proof (hidden_cells_nil g) as Hnil.
  destruct (filter (fun x => state_is g (fst x) (snd x) HIDDEN) (all_cells (rows g) (cols g)))
    as [|h t] eqn:Ehc.
  { split; [discriminate|]. intros _ r c Hb. exact (Hnil r c eq_refl Hb). }
  assert (Hin : In (nth (rnd mod length (h :: t)) (h :: t) (0, 0)) (h :: t))
    by (apply nth_mod_In; discriminate).
  destruct (nth _ (h :: t) (0, 0)) as [r0 c0]. split; [|discriminate].
  intros k r c H. injection H as <- <- <-. exact (Hhc _ Hin).
Qed.

Lemma choose_action_none g rnd :
  choose_action g rnd = None -> forall r c, in_bounds g r c = true -> is_hidden g r c = false.
Proof.
  intros H. apply (proj2 (make_educated_guess_spec g rnd)).
  revert H. unfold choose_action. cbv beta zeta.
  set (hid := fun x : Z * Z => is_hidden g (fst x) (snd x)).
  destruct (find hid (find_certain_mines g)) as [[r0 c0]|]; [discriminate|].
  destruct (find_certain_safe g) as [|[r0 c0] l0]; [|discriminate].
  destruct (find hid (check_1_2_1_pattern g)) as [[r0 c0]|]; [discriminate|].
  destruct (check_1_2_pattern g) as [pm ps].
  destruct (find hid pm) as [[r0 c0]|]; [discriminate|].
  destruct ps as [|[r0 c0] l0]; [| destruct (is_hidden g r0 c0); [discriminate|]].
  all: destruct (check_1_1_pattern g) as [|[r1 c1] l1]; [exact (fun H => H) | discriminate].
Qed.

Lemma agent_action_spec ag g rnd :
  (forall k r c, agent_action ag g rnd = Some (k, r, c) ->
     get_cell_state g r c = Some HIDDEN /\ in_bounds g r c = true) /\
  (agent_action ag g rnd = None <->
     forall r c, in_bounds g r c = true -> get_cell_state g r c <> Some HIDDEN).
Proof.
  assert (Hs : forall k r c, agent_action ag g rnd = Some (k, r, c) ->
                 in_bounds g r c = true /\ is_hidden g r c = true).
  { destruct ag; simpl.
    - exact (choose_action_some_target g rnd).
    - exact (proj1 (agent_choose_action_spec g rnd)).
    - exact (proj1 (random_choose_action_spec g rnd)). }
  assert (Hn : agent_action ag g rnd = None ->
                 forall r c, in_bounds g r c = true -> is_hidden g r c = false).
  { destruct ag; simpl.
    - exact (choose_action_none g rnd).
    - exact (proj2 (agent_choose_action_spec g rnd)).
    - exact (proj2 (random_choose_action_spec g rnd)). }
  split; [intros k r c H; apply target_state; exact (Hs k r c H)|]. split.
  - intros H r c Hb Hh. apply is_hidden_true in Hh. rewrite (Hn H r c Hb) in Hh. discriminate.
  - intros H. destruct (agent_action ag g rnd) as [[[k r] c]|] eqn:E; [|reflexivity].
    exfalso. destruct (Hs k r c eq_refl) as [Hb Hh].
    apply (H r c Hb). apply is_hidden_true. exact Hh.
Qed.

(** X8.  The agents of agent.py only ever target in-bounds Hidden cells:
    whatever [MinesweeperAgent.choose_action] (flag, reveal or guess, with
    its corner preference) and [RandomAgent.choose_action] return names an
    in-bounds cell whose state is Hidden, and each returns [None] exactly
    when no in-bounds cell is Hidden.  [rnd] is the index the one
    [random.choice] call picks. *)
Theorem agents_target_hidden g rnd :
  (forall k r c, agent_choose_action g rnd = Some (k, r, c) ->
     get_cell_state g r c = Some HIDDEN /\ in_bounds g r c = true) /\
  (agent_choose_action g rnd = None <->
     forall r c, in_bounds g r c = true -> get_cell_state g r c <> Some HIDDEN) /\
  (forall k r c, random_choose_action g rnd = Some (k, r, c) ->
     get_cell_state g r c = Some HIDDEN /\ in_bounds g r c = true) /\
  (random_choose_action g rnd = None <->
     forall r c, in_bounds g r c = true -> get_cell_state g r c <> Some HIDDEN).
Proof.
  destruct (agent_action_spec SmartAgent g rnd) as [A1 A2].
  destruct (agent_action_spec RandomAgent g rnd) as [B1 B2].
  exact (conj A1 (conj A2 (conj B1 B2))).
Qed.

(** ** Revealing the same cell twice *)

Lemma setup_basic g r c d g1 :
  wf g -> is_terminal (game_state g) = false -> in_bounds g r c = true ->
  valid_action g (Reveal r c d) -> first_click_setup g r c d = Some g1 ->
  wf g1 /\ first_click g1 = false /\ is_terminal (game_state g1) = false /\
  in_bounds g1 r c = true.
Proof.
  intros Hwf Ht Hb Hv Hs. unfold first_click_setup in Hs. destruct (first_click g) eqn:Ef.
  2: { injection Hs as <-. auto. }
  destruct (generate_mines g r c d) as [g0|] eqn:Eg; [|discriminate].
  injection Hs as <-. simpl in Hv.
  pose proof (generate_mines_wf g r c d g0 Hwf (Hv Ef Hb) Eg) as W0.
  destruct (generate_mines_frame _ _ _ _ _ Eg) as (_ & Er & Ec & _).
  split; [exact W0|]. split; [reflexivity|]. split; [reflexivity|].
  unfold in_bounds in *. simpl. rewrite Er, Ec. exact Hb.
Qed.

Lemma reveal_settled g r c d :
  is_terminal (game_state g) = false -> in_bounds g r c = true -> first_click g = false ->
  state_is g r c HIDDEN = false -> reveal_cell g r c d = Some (g, true).
Proof.
  intros Ht Hb Ef Hh. unfold reveal_cell, first_click_setup.
  rewrite Ht, Hb, Ef, Hh. reflexivity.
Qed.

(** X9.  Revealing a cell a second time changes nothing: after
    [reveal_cell(row, col)] returned (on a well-formed game, with
    [random.sample] honouring its contract if it was the first click), a
    second [reveal_cell(row, col)] leaves the game as it is, whatever the
    random source, and returns [False] exactly when the game is over. *)
Theorem reveal_cell_idempotent g r c d g1 b :
  wf g -> valid_action g (Reveal r c d) -> reveal_cell g r c d = Some (g1, b) ->
  forall d', reveal_cell g1 r c d' = Some (g1, negb (is_terminal (game_state g1))).
Proof.
  intros Hwf Hv H d'. unfold reveal_cell in H.
  destruct (is_terminal (game_state g)) eqn:Ht.
  { injection H as <- <-. unfold reveal_cell. rewrite Ht. reflexivity. }
  destruct (in_bounds g r c) eqn:Hb; cbn [negb] in H.
  2: { injection H as <- <-. unfold reveal_cell. rewrite Ht, Hb. reflexivity. }
  destruct (first_click_setup g r c d) as [g0|] eqn:Es; [|discriminate].
  destruct (setup_basic g r c d g0 Hwf Ht Hb Hv Es) as (Hwf0 & Ef0 & Ht0 & Hb0).
  destruct (state_is g0 r c HIDDEN) eqn:Eh; cbn [negb] in H.
  2: { injection H as <- <-. rewrite Ht0. apply reveal_settled; assumption. }
  destruct (mem (r, c) (mines g0)) eqn:Em.
  { injection H as <- <-. unfold reveal_cell. reflexivity. }
  destruct (reveal_recursive (reveal_fuel g0) g0 r c) as [g2|] eqn:Erec; [|discriminate].
  destruct (reveal_recursive_spec _ g0 r c g2 Hwf0 Erec) as [Hmono [Hset _]].
  destruct Hmono as ((Er2 & Ec2 & _ & _ & Em2 & Eg2 & _ & Ef2) & _).
  destruct (_ =? _); injection H as <- <-.
  { unfold reveal_cell. reflexivity. }
  rewrite Eg2, Ht0. apply reveal_settled.
  - rewrite Eg2. exact Ht0.
  - unfold in_bounds in *. rewrite Er2, Ec2. exact Hb0.
  - rewrite Ef2. exact Ef0.
  - destruct (Hset Hb0) as [Hs | Hs].
    + destruct (state_is g2 r c HIDDEN) eqn:E; [|reflexivity].
      apply state_is_true in E. contradiction.
    + simpl in Hs. rewrite Em2, Em in Hs. discriminate.
Qed.

Lemma reveal_cell_idempotent_witness :
  wf (init BEGINNER) /\ valid_action (init BEGINNER) (Reveal 7 7 demo_draw) /\
  match reveal_cell (init BEGINNER) 7 7 demo_draw with
  | Some (g1, b) => reveal_cell g1 7 7 [] = Some (g1, negb (is_terminal (game_state g1)))
  | None => False
  end.
Proof.
  assert (Hwf : wf (init BEGINNER)) by (apply wfb_sound; vm_compute; reflexivity).
  assert (Hv : valid_action (init BEGINNER) (Reveal 7 7 demo_draw))
    by (intros _ _; vm_compute; reflexivity).
  split; [exact Hwf|]. split; [exact Hv|].
  destruct (reveal_cell (init BEGINNER) 7 7 demo_draw) as [[g1 b]|] eqn:E.
  - exact (reveal_cell_idempotent _ _ _ _ _ _ Hwf Hv E []).
  - vm_compute in E. discriminate.
Defined.

(** ** The board array of [get_board_state] *)

Lemma neighbors_in_length rs cs r c : (length (neighbors_in rs cs r c) <= 8)%nat.
Proof.
  unfold neighbors_in. simpl.
  repeat match goal with |- context [if ?b then _ else _] => destruct b end;
    cbn [length app]; lia.
Qed.

Lemma count_adjacent_mines_range g r c : 0 <= count_adjacent_mines g r c <= 8.
Proof.
  unfold count_adjacent_mines, get_neighbors.
  pose proof (filter_length_le (fun n => mem n (mines g)) (neighbors_in (rows g) (cols g) r c)).
  pose proof (neighbors_in_length (rows g) (cols g) r c). lia.
Qed.

Lemma board_fold_spec (h : cell -> option Z) l : forall st0,
  (forall x, In x l -> 0 <= fst x /\ 0 <= snd x /\ h x <> None) ->
  exists st,
    fold_left (fun acc rc =>
        match acc with
        | Some st => match h rc with Some v => Some (grid_set st (fst rc) (snd rc) v) | None => None end
        | None => None
        end) l (Some st0) = Some st /\
    forall r c, 0 <= r -> 0 <= c ->
      py_index2 st r c =
      if mem (r, c) l then match py_index2 st0 r c with Some _ => h (r, c) | None => None end
      else py_index2 st0 r c.
Proof.
  induction l as [|x t IH]; intros st0 Hl.
  - exists st0. split; [reflexivity|]. intros. reflexivity.
  - destruct (Hl x (or_introl eq_refl)) as (Hx1 & Hx2 & Hx3).
    destruct (h x) as [v|] eqn:Ev; [|congruence].
    destruct (IH (grid_set st0 (fst x) (snd x) v)) as (st & E & Hst).
    { intros y Hy. exact (Hl y (or_intror Hy)). }
    exists st. split; [cbn [fold_left]; rewrite Ev; exact E|].
    intros r c Hr Hc. rewrite Hst by assumption.
    rewrite py_index2_grid_set by assumption.
    destruct x as [a b]. unfold mem at 2. cbn [existsb]. fold (mem (r, c) t).
    unfold cell_eqb. cbn [fst snd] in *.
    destruct (Z.eqb_spec a r), (Z.eqb_spec b c); subst; cbn [andb orb];
      try rewrite (Z.eqb_sym r a); try rewrite (Z.eqb_sym c b);
      rewrite ?Z.eqb_refl; cbn [andb orb].
    + destruct (mem (r, c) t); destruct (py_index2 st0 r c); cbn [option_map]; congruence.
    + apply Z.eqb_neq in n. rewrite n. reflexivity.
    + apply Z.eqb_neq in n. rewrite n. cbn [andb]. reflexivity.
    + apply Z.eqb_neq in n. rewrite n. cbn [andb]. reflexivity.
Qed.

Lemma board_code_spec g r c :
  wf g -> mines_inv g -> in_bounds g r c = true ->
  exists v, board_code g r c = Some v /\ -2 <= v <= 9 /\
    (get_cell_state g r c = Some HIDDEN -> v = -1) /\
    (get_cell_state g r c = Some FLAGGED -> v = -2) /\
    (get_cell_state g r c = Some REVEALED ->
       (is_mine g r c = true -> v = 9) /\
       (is_mine g r c = false -> v = count_adjacent_mines g r c /\ v <= 8)).
Proof.
  intros Hwf (M1 & M2 & _) Hb. destruct (wf_get_state g r c Hwf Hb) as [s Es].
  unfold board_code. rewrite Es. destruct s.
  - exists (-1). split; [reflexivity|]. split; [lia|].
    split; [reflexivity|]. split; intros H; discriminate.
  - destruct (is_mine g r c) eqn:Em.
    + exists 9. split; [reflexivity|]. split; [lia|].
      split; [discriminate|]. split; [discriminate|]. split; [reflexivity | discriminate].
    + destruct (first_click g) eqn:Ef.
      { exfalso. exact (count_zero_not_state g REVEALED r c (M1 eq_refl) Es). }
      rewrite (M2 eq_refl r c Hb Em). pose proof (count_adjacent_mines_range g r c).
      exists (count_adjacent_mines g r c). split; [reflexivity|]. split; [lia|].
      split; [discriminate|]. split; [discriminate|].
      split; [discriminate | split; [reflexivity | lia]].
  - exists (-2). split; [reflexivity|]. split; [lia|].
    split; [discriminate|]. split; [reflexivity | discriminate].
Qed.

(** X10.  On any reachable game [get_board_state] runs without error and
    encodes every cell as its docstring says: -1 for a Hidden cell, -2 for
    a Flagged one, 9 for a Revealed mine and, for any other Revealed cell,
    its number of neighbouring mines (0 to 8), so every entry fits the
    [int8] array; and a 9 appears in the array exactly when the game is
    Lost. *)
Theorem board_state_encoding g :
  reachable g ->
  exists st, get_board_state g = Some st /\
  (forall r c, in_bounds g r c = true ->
     exists v, py_index2 st r c = Some v /\ -2 <= v <= 9 /\
       (get_cell_state g r c = Some HIDDEN -> v = -1) /\
       (get_cell_state g r c = Some FLAGGED -> v = -2) /\
       (get_cell_state g r c = Some REVEALED ->
          (is_mine g r c = true -> v = 9) /\
          (is_mine g r c = false -> v = count_adjacent_mines g r c))) /\
  (game_state g = LOST <-> exists r c, in_bounds g r c = true /\ py_index2 st r c = Some 9).
Proof.
  intros Hr. destruct (reachable_state_inv g Hr) as ((Hwf & _) & _ & Hm & _).
  pose proof Hm as (_ & _ & M3 & M4).
  destruct (board_fold_spec (fun rc => board_code g (fst rc) (snd rc))
              (all_cells (rows g) (cols g))
              (repeat (repeat 0 (Z.to_nat (cols g))) (Z.to_nat (rows g)))) as (st & E & Hst).
  { intros [r c] Hx. apply all_cells_In in Hx. cbn [fst snd].
    split; [lia|]. split; [lia|].
    destruct (board_code_spec g r c Hwf Hm) as (v & Ev & _); [apply in_bounds_true; lia|].
    rewrite Ev. discriminate. }
  assert (Hcell : forall r c, in_bounds g r c = true -> py_index2 st r c = board_code g r c).
  { intros r c Hb. pose proof Hb as Hb'. apply in_bounds_true in Hb'.
    rewrite Hst by lia.
    replace (mem (r, c) (all_cells (rows g) (cols g))) with true
      by (symmetry; apply mem_true, all_cells_In; exact Hb').
    destruct (shaped_get _ _ _ r c (repeat_shaped 0 (rows g) (cols g))) as [z Hz]; [lia | lia |].
    rewrite Hz. reflexivity. }
  exists st. split; [exact E|]. split.
  - intros r c Hb. destruct (board_code_spec g r c Hwf Hm Hb) as (v & Ev & H1 & H2 & H3 & H4).
    exists v. rewrite Hcell by exact Hb. split; [exact Ev|]. split; [exact H1|].
    split; [exact H2|]. split; [exact H3|].
    intros Hs. destruct (H4 Hs) as [H5 H6]. split; [exact H5|].
    intros Hmf. exact (proj1 (H6 Hmf)).
  - split.
    + intros HL. destruct (M4 HL) as (r & c & Hb & Hs & Hmi). exists r, c. split; [exact Hb|].
      rewrite Hcell by exact Hb.
      destruct (board_code_spec g r c Hwf Hm Hb) as (v & Ev & _ & _ & _ & H4).
      rewrite Ev. rewrite (proj1 (H4 Hs) Hmi). reflexivity.
    + intros (r & c & Hb & H9). rewrite Hcell in H9 by exact Hb.
      destruct (board_code_spec g r c Hwf Hm Hb) as (v & Ev & _ & H2 & H3 & H4).
      rewrite Ev in H9. injection H9 as ->.
      destruct (wf_get_state g r c Hwf Hb) as [[| |] Es].
      * specialize (H2 Es). lia.
      * destruct (is_mine g r c) eqn:Emi; [exact (M3 r c Hb Es Emi)|].
        destruct (proj2 (H4 Es) eq_refl). lia.
      * specialize (H3 Es). lia.
Qed.

Lemma board_state_encoding_witness :
  reachable demo_lost /\ get_board_state demo_lost =
  Some [[-1; -1; 9; 2; 1; -1; -1; -1]; [-1; -1; -1; -1; -1; -1; -1; -1];
        [-1; -1; -1; -1; -1; -1; -1; -1]; [-1; -1; -1; -1; -1; -1; -1; -1];
        [2; 3; 3; 3; 3; 3; 3; 2]; [0; 0; 0; 0; 0; 0; 0; 0];
        [0; 0; 0; 0; 0; 0; 0; 0]; [0; 0; 0; 0; 0; 0; 0; 0]] /\
  exists st, get_board_state demo_lost = Some st /\
    (game_state demo_lost = LOST <->
       exists r c, in_bounds demo_lost r c = true /\ py_index2 st r c = Some 9).
Proof.
  split; [exact demo_lost_reachable|]. split; [vm_compute; reflexivity|].
  destruct (board_state_encoding demo_lost demo_lost_reachable) as (st & E & _ & H).
  exists st. split; [exact E | exact H].
Defined.

(** ** Statistics *)

Lemma length_filter_flat_map {A B} (f : B -> bool) (h : A -> list B) l :
  length (filter f (flat_map h l)) = list_sum (map (fun x => length (filter f (h x))) l).
Proof.
  induction l as [|x l IH]; [reflexivity|].
  cbn [flat_map map list_sum]. rewrite filter_app, length_app, IH. reflexivity.
Qed.

Lemma length_filter_map {A B} (f : B -> bool) (h : A -> B) l :
  length (filter f (map h l)) = length (filter (fun x => f (h x)) l).
Proof.
  induction l as [|x l IH]; [reflexivity|]. cbn [map filter].
  destruct (f (h x)); cbn [length]; rewrite IH; reflexivity.
Qed.

Lemma filter_seq_nth {A} (q : A -> bool) (row : list A) : forall pre : list A,
  length (filter (fun j => match nth_error (pre ++ row) j with Some v => q v | None => false end)
            (seq (length pre) (length row))) = length (filter q row).
Proof.
  induction row as [|a t IH]; intros pre; [reflexivity|].
  cbn [length seq filter].
  rewrite (nth_error_app2 pre (a :: t) (n := length pre)) by lia.
  rewrite Nat.sub_diag. cbn [nth_error].
  replace (pre ++ a :: t) with ((pre ++ [a]) ++ t) by (rewrite <- app_assoc; reflexivity).
  replace (S (length pre)) with (length (pre ++ [a])) by (rewrite length_app; simpl; lia).
  destruct (q a); cbn [length]; rewrite IH; reflexivity.
Qed.

Lemma grid_count_nat {A} (q : A -> bool) C : forall (gr pre : list (list A)),
  Forall (fun row => length row = C) gr ->
  list_sum (map (fun i => length (filter (fun j =>
      match nth_error (pre ++ gr) i with
      | Some row => match nth_error row j with Some v => q v | None => false end
      | None => false
      end) (seq 0 C))) (seq (length pre) (length gr))) = count_grid q gr.
Proof.
  induction gr as [|row t IH]; intros pre HF; [reflexivity|].
  inversion HF as [|? ? Hrow Ht]; subst.
  cbn [length seq map list_sum].
  rewrite (nth_error_app2 pre (row :: t) (n := length pre)) by lia.
  rewrite Nat.sub_diag. cbn [nth_error].
  pose proof (filter_seq_nth q row []) as E. cbn [length app] in E. rewrite E.
  replace (pre ++ row :: t) with ((pre ++ [row]) ++ t) by (rewrite <- app_assoc; reflexivity).
  replace (S (length pre)) with (length (pre ++ [row])) by (rewrite length_app; simpl; lia).
  specialize (IH (pre ++ [row]) Ht). unfold count_grid, list_sum in *. cbn [map fold_right].
  f_equal. exact IH.
Qed.

Lemma count_cells_state g s :
  wf g -> count_cells g (fun r c => state_is g r c s) = Z.of_nat (count_state g s).
Proof.
  intros (Hr & Hc & _ & [Hl Hf] & _). unfold count_cells, all_cells, zrange, count_state.
  f_equal. rewrite length_filter_flat_map, map_map.
  rewrite <- (grid_count_nat (fun x => CellState_eqb x s) (Z.to_nat (cols g)) (cell_states g) []
                Hf).
  cbn [length app]. rewrite Hl. f_equal. apply map_ext. intros i.
  rewrite map_map, length_filter_map. f_equal. apply filter_ext. intros j.
  cbn [fst snd]. unfold state_is, get_cell_state, py_index2.
  rewrite py_index_nonneg, Nat2Z.id by lia.
  destruct (nth_error (cell_states g) i) as [row|]; [|reflexivity].
  rewrite py_index_nonneg, Nat2Z.id by lia. reflexivity.
Qed.

Lemma dims_ok_total g : dims_ok g -> 0 < rows g * cols g - num_mines g.
Proof. intros [d Hd]. destruct d; cbn in Hd; injection Hd as <- <- <-; lia. Qed.

(** The float computation of [progress] is exactly 100.0 only for a
    complete board, on each of the three boards. *)
Lemma progress_exact d n :
  let '(R, C, M) := difficulty_value d in
  0 <= n <= R * C ->
  (PrimFloat.eqb (PrimFloat.mul (PrimFloat.div (py_float n) (py_float (R * C - M))) (py_float 100))
                 (py_float 100) = true <-> n = R * C - M).
Proof.
  destruct d; cbn [difficulty_value]; intros Hn;
  match goal with |- (PrimFloat.eqb (PrimFloat.mul (PrimFloat.div _ (py_float ?T)) _) _ = true <-> _) =>
    match goal with |- context [?R * ?C] =>
    assert (Hall : forallb (fun k => Bool.eqb
        (PrimFloat.eqb (PrimFloat.mul (PrimFloat.div (py_float (Z.of_nat k)) (py_float T))
                                      (py_float 100)) (py_float 100))
        (Z.of_nat k =? T)) (seq 0 (S (Z.to_nat (R * C)))) = true)
      by (vm_compute; reflexivity) end end;
  rewrite forallb_forall in Hall; specialize (Hall (Z.to_nat n));
  rewrite in_seq, Z2Nat.id in Hall by lia;
  specialize (Hall ltac:(lia)); apply Bool.eqb_prop in Hall; rewrite Hall; apply Z.eqb_eq.
Qed.

(** X11.  On any reachable game both [calculate_statistics] (of the
    pattern agent and of the base agent, which [run_with_ai] calls on every
    frame) return the same dictionary without a division by zero: the
    board size, the number of Revealed cells, [flags_placed] as the number
    of Flagged cells, [flags_correct] exactly when [get_remaining_mines()]
    is not negative, and, unless the game is Lost, a [progress] float equal
    to 100.0 exactly when the game is Won. *)
Theorem statistics_consistent g :
  reachable g ->
  exists st, calculate_statistics g = Some st /\ agent_calculate_statistics g = Some st /\
    total_cells st = rows g * cols g /\
    revealed_cells st = Z.of_nat (count_state g REVEALED) /\
    flagged_cells st = flags_placed g /\
    flags_correct st = (0 <=? get_remaining_mines g) /\
    (game_state g <> LOST ->
       (PrimFloat.eqb (progress st) (py_float 100) = true <-> game_state g = WON)).
Proof.
  intros Hr.
  destruct (reachable_state_inv g Hr) as ((Hwf & Hf & Hcr & _) & (_ & Hwon) & _ & Hd).
  pose proof (dims_ok_total g Hd) as Ht. destruct Hd as [d Hd].
  pose proof (progress_exact d (Z.of_nat (count_state g REVEALED))) as P.
  rewrite Hd in P. cbv beta iota zeta in P.
  pose proof (count_state_le g REVEALED Hwf) as Hle.
  unfold calculate_statistics, agent_calculate_statistics. cbv zeta.
  destruct (Z.eqb_spec (rows g * cols g - num_mines g) 0); [lia|].
  eexists. split; [reflexivity|]. split; [reflexivity|].
  cbn [total_cells revealed_cells flagged_cells flags_correct progress].
  change (is_revealed g) with (fun r c => state_is g r c REVEALED).
  change (is_flagged g) with (fun r c => state_is g r c FLAGGED).
  rewrite !count_cells_state by exact Hwf.
  split; [reflexivity|]. split; [reflexivity|]. split; [symmetry; exact Hf|].
  split.
  - unfold get_remaining_mines. rewrite Hf.
    destruct (Z.leb_spec (Z.of_nat (count_state g FLAGGED)) (num_mines g)),
             (Z.leb_spec 0 (num_mines g - Z.of_nat (count_state g FLAGGED))); lia.
  - intros HnL. rewrite P.
    + rewrite Hwon, (Hcr HnL). reflexivity.
    + pose proof Hwf as (Hr0 & Hc0 & _). apply Nat2Z.inj_le in Hle.
      rewrite Z2Nat.id in Hle by nia. lia.
Qed.

Lemma statistics_consistent_witness :
  reachable demo_played /\ game_state demo_played <> LOST /\
  exists st, calculate_statistics demo_played = Some st /\
    revealed_cells st = Z.of_nat (count_state demo_played REVEALED) /\
    flags_correct st = true /\
    (PrimFloat.eqb (progress st) (py_float 100) = true <-> game_state demo_played = WON).
Proof.
  assert (HnL : game_state demo_played <> LOST) by (vm_compute; discriminate).
  split; [exact demo_played_reachable|]. split; [exact HnL|].
  destruct (statistics_consistent demo_played demo_played_reachable)
    as (st & E1 & _ & _ & E2 & _ & E3 & E4).
  exists st. split; [exact E1|]. split; [exact E2|]. split; [|exact (E4 HnL)].
  rewrite E3. vm_compute. reflexivity.
Defined.

(** ** Mouse clicks *)

Lemma floor_div_cell z k : z / cell_size = k <-> k * cell_size <= z < k * cell_size + cell_size.
Proof. unfold cell_size. split; intros H; [subst k | ]; Z.div_mod_to_equations; lia. Qed.

Lemma get_cell_from_pos_iff g x y r c :
  get_cell_from_pos g (x, y) = Some (r, c) <->
  in_bounds g r c = true /\
  fst (cell_origin r c) <= x < fst (cell_origin r c) + cell_size /\
  snd (cell_origin r c) <= y < snd (cell_origin r c) + cell_size.
Proof.
  unfold get_cell_from_pos, cell_origin. cbn [fst snd].
  rewrite in_bounds_true.
  pose proof (floor_div_cell (x - border_width) ((x - border_width) / cell_size)) as [Hx _].
  pose proof (floor_div_cell (y - header_height - border_width)
                ((y - header_height - border_width) / cell_size)) as [Hy _].
  specialize (Hx eq_refl). specialize (Hy eq_refl).
  unfold border_width, header_height, cell_size in *.
  split.
  - destruct (_ && _ && _ && _) eqn:E; [|discriminate]. intros H. injection H as <- <-.
    repeat rewrite andb_true_iff in E. rewrite !Z.leb_le, !Z.ltb_lt in E. lia.
  - intros (Hb & Hx' & Hy').
    assert (Er : (y - 80 - 10) / 32 = r) by (apply (floor_div_cell _ r); unfold cell_size; lia).
    assert (Ec : (x - 10) / 32 = c) by (apply (floor_div_cell _ c); unfold cell_size; lia).
    rewrite Er, Ec. destruct (Z.leb_spec 0 r), (Z.ltb_spec r (rows g)), (Z.leb_spec 0 c),
      (Z.ltb_spec c (cols g)); cbn [andb]; first [reflexivity | lia].
Qed.

(** X12.  A mouse position maps to cell (row, col) exactly when the cell
    is on the board and the position lies in the 32x32 square [draw_cell]
    paints for it; the smiley button (pixel rows 20 to 69) never covers a
    board cell (pixel rows from 90), so [handle_click] on a cell's square
    runs [reveal_cell] for the left button, [toggle_flag] for the right
    button and nothing for any other; a click on the smiley starts the fresh
    game of the current difficulty. *)
Theorem click_dispatch cd g x y r c button drawn :
  (get_cell_from_pos g (x, y) = Some (r, c) <->
     in_bounds g r c = true /\
     fst (cell_origin r c) <= x < fst (cell_origin r c) + cell_size /\
     snd (cell_origin r c) <= y < snd (cell_origin r c) + cell_size) /\
  (get_cell_from_pos g (x, y) = Some (r, c) ->
     handle_click cd g (x, y) button drawn =
       if button =? 1 then step g (Reveal r c drawn)
       else if button =? 3 then step g (ToggleFlag r c)
       else Some g) /\
  (smiley_hit g (x, y) = true -> handle_click cd g (x, y) button drawn = Some (init cd)).
Proof.
  split; [apply get_cell_from_pos_iff|]. split.
  - intros H. pose proof H as H'. apply get_cell_from_pos_iff in H' as (_ & _ & Hy).
    unfold cell_origin, header_height, border_width, cell_size in Hy. cbn [snd] in Hy.
    assert (Hs : smiley_hit g (x, y) = false).
    { unfold smiley_hit. destruct (Z.ltb_spec y (20 + 50)); [|rewrite !andb_false_r; reflexivity].
      assert (0 <= r).
      { unfold get_cell_from_pos in H. destruct (_ && _ && _ && _) eqn:E; [|discriminate].
        injection H as <- <-. repeat rewrite andb_true_iff in E. rewrite !Z.leb_le in E. lia. }
      lia. }
    unfold handle_click. rewrite Hs, H. reflexivity.
  - intros Hs. unfold handle_click. rewrite Hs. reflexivity.
Qed.

(** ** Moves of [run_with_ai] *)

Lemma reveal_recursive_strict f g r c h :
  wf g -> in_bounds g r c = true -> get_cell_state g r c = Some HIDDEN ->
  mem (r, c) (mines g) = false -> reveal_recursive f g r c = Some h ->
  (count_state h HIDDEN < count_state g HIDDEN)%nat.
Proof.
  intros Hwf Hb Hh Hm. pose proof Hb as Hb'. apply in_bounds_true in Hb'.
  destruct f as [|f]; [discriminate|]. cbn [reveal_recursive].
  rewrite Hb. replace (state_is g r c HIDDEN) with true by (symmetry; apply state_is_true; exact Hh).
  rewrite Hm. cbn [negb].
  pose proof (reveal_one_hidden_count g r c ltac:(lia) ltac:(lia) Hh) as C1.
  pose proof (reveal_one_mono g r c Hwf Hb Hh Hm) as M1.
  set (g1 := set_cells_revealed (set_cell_states g (grid_set (cell_states g) r c REVEALED))
               (cells_revealed g + 1)) in *.
  assert (W1 : wf g1) by exact (flood_mono_wf g g1 Hwf M1).
  destruct (value_is_zero g r c); [|intros E; injection E as <-; lia].
  intros E.
  assert (M : flood_mono g1 h).
  { apply (fold_reveal_ind f (fun _ b => flood_mono g1 b) (get_neighbors g r c) [] g1 h E
             (flood_mono_refl g1 W1)).
    intros pre' x b b' _ Mb Hr.
    pose proof (flood_mono_wf g1 b W1 Mb) as Wb.
    exact (flood_mono_trans _ _ _ Mb (proj1 (reveal_recursive_spec _ _ _ _ _ Wb Hr))). }
  pose proof (flood_mono_hidden g1 h M). lia.
Qed.

Lemma reveal_cell_hidden_decreases g r c d g' b :
  counters_inv g -> is_terminal (game_state g) = false -> in_bounds g r c = true ->
  get_cell_state g r c = Some HIDDEN -> valid_action g (Reveal r c d) ->
  reveal_cell g r c d = Some (g', b) -> (count_state g' HIDDEN < count_state g HIDDEN)%nat.
Proof.
  intros Hc Ht Hb Hh Hv. unfold reveal_cell. rewrite Ht, Hb. cbn [negb].
  destruct (first_click_setup g r c d) as [g1|] eqn:Es; [|discriminate].
  destruct (setup_counters g r c d g1 Hc Ht Hb Hv Es) as ((Hwf1 & _) & Ecs & _ & Er & Ec).
  assert (Hh1 : get_cell_state g1 r c = Some HIDDEN)
    by (unfold get_cell_state; rewrite Ecs; exact Hh).
  assert (Hcnt : count_state g1 HIDDEN = count_state g HIDDEN)
    by (unfold count_state; rewrite Ecs; reflexivity).
  assert (Hb1 : in_bounds g1 r c = true) by (unfold in_bounds; rewrite Er, Ec; exact Hb).
  replace (state_is g1 r c HIDDEN) with true by (symmetry; apply state_is_true; exact Hh1).
  cbn [negb].
  destruct (mem (r, c) (mines g1)) eqn:Em.
  - intros H. injection H as <- _.
    pose proof (set_state_counts g1 r c HIDDEN REVEALED Hb1 Hh1 HIDDEN) as C.
    cbn [CellState_eqb] in C. unfold count_state in *. cbn [cell_states set_game_state] in *.
    lia.
  - destruct (reveal_recursive (reveal_fuel g1) g1 r c) as [g2|] eqn:Erec; [|discriminate].
    pose proof (reveal_recursive_strict _ g1 r c g2 Hwf1 Hb1 Hh1 Em Erec) as S.
    destruct (_ =? _); intros H; injection H as <- _; unfold count_state in *;
      cbn [cell_states set_game_state] in *; lia.
Qed.

Lemma ai_move_eq ag g rnd drawn :
  ai_move ag g rnd drawn =
  if is_terminal (game_state g) then None
  else match agent_action ag g rnd with
       | Some (reveal, r, c) => option_map fst (reveal_cell g r c drawn)
       | Some (flag, r, c) => Some (toggle_flag g r c)
       | None => None
       end.
Proof. unfold ai_move. destruct (game_state g); reflexivity. Qed.

Lemma ai_move_step ag g rnd drawn g' :
  reachable g ->
  (forall k r c, agent_action ag g rnd = Some (k, r, c) -> valid_action g (Reveal r c drawn)) ->
  ai_move ag g rnd drawn = Some g' ->
  reachable g' /\ (count_state g' HIDDEN < count_state g HIDDEN)%nat.
Proof.
  intros Hr Hv H. destruct (reachable_state_inv g Hr) as (Hc & _).
  rewrite ai_move_eq in H.
  destruct (is_terminal (game_state g)) eqn:Ht; [discriminate|].
  destruct (agent_action ag g rnd) as [[[k r] c]|] eqn:Ea; [|discriminate].
  destruct (proj1 (agent_action_spec ag g rnd) k r c Ea) as [Hh Hb].
  destruct k.
  - injection H as <-.
    split; [exact (reach_step g (ToggleFlag r c) _ Hr I eq_refl)|].
    pose proof (set_state_counts g r c HIDDEN FLAGGED Hb Hh HIDDEN) as C.
    cbn [CellState_eqb] in C.
    unfold toggle_flag. rewrite Ht, Hb. unfold state_is at 1 2. rewrite Hh.
    cbn [negb CellState_eqb]. unfold count_state in *. cbn [cell_states set_flags_placed] in *.
    lia.
  - destruct (reveal_cell g r c drawn) as [[g1 b]|] eqn:Er; [|discriminate].
    injection H as <-. split.
    + apply (reach_step g (Reveal r c drawn)); [exact Hr | exact (Hv _ _ _ eq_refl) |].
      simpl. rewrite Er. reflexivity.
    + exact (reveal_cell_hidden_decreases g r c drawn g1 b Hc Ht Hb Hh (Hv _ _ _ eq_refl) Er).
Qed.

(** X13.  [run_with_ai] cannot make an endless game: on any reachable
    game, every move the agent makes (pattern, smart or random agent; a
    flag or a reveal, with [random.sample] honouring its contract on a
    first click) turns at least one Hidden cell into a Revealed or Flagged
    one and leaves a reachable game, so a sequence of moves that all
    succeed is no longer than the number of Hidden cells it started from,
    and never longer than the board. *)
Theorem ai_play_bounded ag moves :
  forall g g', reachable g -> ai_valid ag g moves -> ai_play ag g moves = Some g' ->
  reachable g' /\
  (length moves + count_state g' HIDDEN <= count_state g HIDDEN)%nat /\
  (length moves <= Z.to_nat (rows g * cols g))%nat.
Proof.
  induction moves as [|[rnd drawn] t IH]; intros g g' Hr Hv H.
  - injection H as <-. split; [exact Hr|]. cbn [length]. split; [lia|]. lia.
  - cbn [ai_play] in H. cbn [ai_valid] in Hv. destruct Hv as [Hv1 Hvt].
    destruct (ai_move ag g rnd drawn) as [g1|] eqn:E; [|discriminate].
    destruct (ai_move_step ag g rnd drawn g1 Hr Hv1 E) as [Hr1 Hlt].
    destruct (IH g1 g' Hr1 Hvt H) as (Hr' & Hle & _).
    destruct (reachable_state_inv g Hr) as ((Hwf & _) & _).
    pose proof (count_state_le g HIDDEN Hwf).
    split; [exact Hr'|]. cbn [length]. split; lia.
Qed.

Ltac ai_valid_move :=
  cbn [ai_valid]; split;
  [ intros k r c H; vm_compute in H; injection H as <- <- <-;
    intros Hf ?; vm_compute in Hf; try discriminate Hf; vm_compute; reflexivity
  | lazymatch goal with
    | |- context [ai_move ?a ?b ?c ?d] =>
        let v := eval vm_compute in (ai_move a b c d) in
        change (ai_move a b c d) with v; cbv beta iota
    end ].

Lemma ai_play_bounded_witness :
  reachable (init BEGINNER) /\
  ai_valid PatternAgent (init BEGINNER) [(0%nat, demo_draw); (0%nat, []); (0%nat, [])] /\
  match ai_play PatternAgent (init BEGINNER) [(0%nat, demo_draw); (0%nat, []); (0%nat, [])] with
  | Some g' => (3 + count_state g' HIDDEN <= count_state (init BEGINNER) HIDDEN)%nat
  | None => False
  end.
Proof.
  assert (Hv : ai_valid PatternAgent (init BEGINNER) [(0%nat, demo_draw); (0%nat, []); (0%nat, [])]).
  { ai_valid_move. ai_valid_move. ai_valid_move. exact I. }
  split; [apply reach_init|]. split; [exact Hv|].
  destruct (ai_play PatternAgent (init BEGINNER) _) as [g'|] eqn:E.
  - exact (proj1 (proj2 (ai_play_bounded PatternAgent _ _ g' (reach_init BEGINNER) Hv E))).
  - vm_compute in E. discriminate.
Defined.
